(** * tailx: the multi-file tail reader of logkit (reader/tailx/tailx.go)

    A shallow embedding of the follower ([ActiveReader]) and of the engine
    ([Reader]).  Goroutines, channels, the clock and the file system are
    made explicit:

    - the status atom of a follower is a field of its record; what the other
      goroutines do to it while this one is suspended is an oracle of the
      [World] (one action per suspension point);
    - channel sends, sleeps and the closing of a line buffer are recorded, in
      program order, in the trace of the [World];
    - [os.Stat], [time.Now], [filepath.Glob] and the external meta store and
      single-file reader are fields of an [Env]. *)

From Stdlib Require Import ZArith List Bool Lia String.
From stdpp Require Import gmap strings list fin_maps.
Import ListNotations.
Local Open Scope string_scope.

(** ** Base types *)

(** [time.Duration] is an int64 count of nanoseconds; a [time.Time] is kept
    as the wall-clock instant in nanoseconds.  Modification times come from
    the file system and a duration is below 2^63 ns, so [Time.Add] does not
    saturate on the values that occur and is plain addition. *)
Definition Duration := Z.
Definition Time := Z.
Definition Millisecond : Duration := 1000000%Z.
Definition Second : Duration := 1000000000%Z.
Definition Nanoseconds (d : Duration) : Z := d.
Definition Add (t : Time) (d : Duration) : Time := (t + d)%Z.
Definition Before (t u : Time) : bool := (t <? u)%Z.

(** Go's [int] on a 64-bit platform: [++] wraps around. *)
Definition wrap_int (z : Z) : Z := ((z + 2 ^ 63) mod 2 ^ 64 - 2 ^ 63)%Z.
#[global] Opaque wrap_int.

(** Modelled from the spec: the four status constants of utils/models
    ([StatusInit], [StatusStopped], [StatusStopping], [StatusRunning]) are
    declared outside this package; the spec lists them as
    [status ∈ {Init, Running, Stopping, Stopped}].  The code only stores and
    compares them, so an enumeration is enough. *)
Inductive Status := StatusInit | StatusStopped | StatusStopping | StatusRunning.

#[global] Instance Status_eq_dec : EqDecision Status.
Proof. solve_decision. Defined.

(** [error] values: the two sentinels the reading loop compares with [==],
    the not-exist error class recognised by [os.IsNotExist], and errors
    carrying a message (those built by [fmt.Errorf] among them). *)
Inductive error :=
| EOF
| ErrClosed
| ErrNotExist (path : string)
| Errorf (msg : string).

#[global] Instance error_eq_dec : EqDecision error.
Proof. solve_decision. Defined.

Definition Error (e : error) : string :=
  match e with
  | EOF => "EOF"
  | ErrClosed => "file already closed"
  | ErrNotExist p => "stat " +:+ p +:+ ": no such file or directory"
  | Errorf m => m
  end.

Definition IsNotExist (e : error) : bool :=
  match e with ErrNotExist _ => true | _ => false end.

Inductive result (A : Type) :=
| Ok (a : A)
| Err (e : error).
Arguments Ok {A} a.
Arguments Err {A} e.

Definition WhenceOldest : string := "oldest".
Definition WhenceNewest : string := "newest".

Record StatsInfo := { LastError : string }.

Record Result := { result_ : string; logpath : string }.

#[global] Instance Result_eq_dec : EqDecision Result.
Proof. solve_decision. Defined.

Record FileInfo := { IsDir : bool; ModTime : Time }.

(** The external line buffer ([reader.BufReader]) is kept as the facts the
    engine can observe: the file it was opened on, the whence handed to
    [reader.NewSingleFile], whether it was closed and the head pattern set
    on it. *)
Record BufReader := {
  br_realpath : string;
  br_whence : string;
  br_closed : bool;
  br_headPattern : option string
}.

(** The part of [reader.Meta] the package reads. *)
Record Meta := {
  Dir : string;
  RunnerName : string;
  statisticFileExist : bool      (* meta.IsStatisticFileExist() *)
}.

(** ** The environment: file system, clock, external constructors *)

Record Env := {
  Stat : string -> result FileInfo;                 (* os.Stat *)
  Now : Time;                                       (* time.Now() *)
  Glob : string -> result (list string);            (* filepath.Glob *)
  GetRealPath : string -> result (string * FileInfo);
  IsFileModified : string -> Duration -> Time -> bool;
  NewMetaWithRunnerName : string -> result bool;    (* Ok b: b = subMeta.IsNotExist() *)
  NewSingleFile : string -> string -> option error; (* realPath, whence *)
  NewReaderSize : string -> option error;
  SetMode : string -> string -> option error        (* br.SetMode: realPath, pattern *)
}.

(** ** Events and the world threaded through a goroutine's code *)

Inductive event :=
| EvSleep (d : Duration)               (* time.Sleep(d) *)
| EvTick                               (* <-timer.C won the deliver select *)
| EvSendMsg (m : Result)               (* msgchan <- m *)
| EvSendErr (e : error)                (* errChan <- e *)
| EvRecovered                          (* a send panicked and was recovered *)
| EvBrClose (realpath : string)        (* br.Close() *)
| EvGoRun (originpath : string)        (* go ar.Run() *)
| EvAddSubMeta (realpath : string)     (* meta.AddSubMeta *)
| EvRemoveSubMeta (realpath : string). (* meta.RemoveSubMeta *)

#[global] Instance event_eq_dec : EqDecision event.
Proof. unfold Duration. solve_decision. Defined.

Record World := {
  trace : list event;
  (** what the other goroutines do to the follower's status during the
      n-th suspension of this goroutine *)
  peer : nat -> Status -> Status;
  npeer : nat;
  (** the n-th answer of [br.ReadLine] *)
  readLine : nat -> string * option error;
  nread : nat;
  (** the n-th deliver select: [true] when the send on msgchan went through,
      [false] when the ticker fired first *)
  selectSent : nat -> bool;
  nselect : nat;
  errChanClosed : bool;
  brCloseErr : option error              (* what br.Close() answers *)
}.

Definition St (A : Type) : Type := World -> A * World.
Definition ret {A} (a : A) : St A := fun w => (a, w).
Definition bind {A B} (m : St A) (k : A -> St B) : St B :=
  fun w => let (a, w') := m w in k a w'.

Notation "x <- m ;; k" := (bind m (fun x => k))
  (at level 100, m at next level, right associativity).

Definition emit (e : event) : St unit := fun w =>
  (tt, {| trace := trace w ++ [e]; peer := peer w; npeer := npeer w;
          readLine := readLine w; nread := nread w;
          selectSent := selectSent w; nselect := nselect w;
          errChanClosed := errChanClosed w; brCloseErr := brCloseErr w |}).

(** A suspension point: the peers' next action on the status is taken. *)
Definition yield (s : Status) : St Status := fun w =>
  (peer w (npeer w) s,
   {| trace := trace w; peer := peer w; npeer := S (npeer w);
      readLine := readLine w; nread := nread w;
      selectSent := selectSent w; nselect := nselect w;
      errChanClosed := errChanClosed w; brCloseErr := brCloseErr w |}).

Definition nextLine : St (string * option error) := fun w =>
  (readLine w (nread w),
   {| trace := trace w; peer := peer w; npeer := npeer w;
      readLine := readLine w; nread := S (nread w);
      selectSent := selectSent w; nselect := nselect w;
      errChanClosed := errChanClosed w; brCloseErr := brCloseErr w |}).

Definition nextSelect : St bool := fun w =>
  (selectSent w (nselect w),
   {| trace := trace w; peer := peer w; npeer := npeer w;
      readLine := readLine w; nread := nread w;
      selectSent := selectSent w; nselect := S (nselect w);
      errChanClosed := errChanClosed w; brCloseErr := brCloseErr w |}).

Definition get {A} (f : World -> A) : St A := fun w => (f w, w).

(** Total time slept in a trace. *)
Fixpoint slept (tr : list event) : Z :=
  match tr with
  | [] => 0
  | EvSleep d :: tr' => d + slept tr'
  | _ :: tr' => slept tr'
  end%Z.

Definition sentErrs (tr : list event) : list error :=
  omap (fun e => match e with EvSendErr x => Some x | _ => None end) tr.

(** [errChan <- err] under the deferred [recover]: a send on a closed
    channel panics, the panic is recovered and nothing is delivered. *)
Definition sendOnErrChan (err : error) : St unit :=
  closed <- get errChanClosed ;;
  if closed : bool then emit EvRecovered else emit (EvSendErr err).

(** ** The follower *)

Module ActiveReader.

Record t := {
  br : BufReader;
  realpath : string;
  originpath : string;
  readcache : string;
  status : Status;
  inactive : Z;          (* int32; expire collects the follower only when > 0 *)
  runnerName : string;
  emptyLineCnt : Z;
  stats : StatsInfo
}.

Definition set_status (s : Status) (ar : t) : t :=
  {| br := br ar; realpath := realpath ar; originpath := originpath ar;
     readcache := readcache ar; status := s; inactive := inactive ar;
     runnerName := runnerName ar; emptyLineCnt := emptyLineCnt ar;
     stats := stats ar |}.

Definition set_inactive (i : Z) (ar : t) : t :=
  {| br := br ar; realpath := realpath ar; originpath := originpath ar;
     readcache := readcache ar; status := status ar; inactive := i;
     runnerName := runnerName ar; emptyLineCnt := emptyLineCnt ar;
     stats := stats ar |}.

Definition set_emptyLineCnt (c : Z) (ar : t) : t :=
  {| br := br ar; realpath := realpath ar; originpath := originpath ar;
     readcache := readcache ar; status := status ar; inactive := inactive ar;
     runnerName := runnerName ar; emptyLineCnt := c;
     stats := stats ar |}.

Definition set_readcache (c : string) (ar : t) : t :=
  {| br := br ar; realpath := realpath ar; originpath := originpath ar;
     readcache := c; status := status ar; inactive := inactive ar;
     runnerName := runnerName ar; emptyLineCnt := emptyLineCnt ar;
     stats := stats ar |}.

Definition set_br (b : BufReader) (ar : t) : t :=
  {| br := b; realpath := realpath ar; originpath := originpath ar;
     readcache := readcache ar; status := status ar; inactive := inactive ar;
     runnerName := runnerName ar; emptyLineCnt := emptyLineCnt ar;
     stats := stats ar |}.

(** [atomic.CompareAndSwapInt32(&ar.status, old, new)] *)
Definition CompareAndSwap (old new : Status) (ar : t) : t * bool :=
  if decide (status ar = old) then (set_status new ar, true) else (ar, false).

(** [time.Sleep(d)]: the sleep is recorded and the peers run. *)
Definition Sleep (d : Duration) (ar : t) : St t :=
  _ <- emit (EvSleep d) ;;
  s <- yield (status ar) ;;
  ret (set_status s ar).

(** The polling loop shared by [Start] and [Stop]:
<<
    for atomic.LoadInt32(&ar.status) != StatusStopped {
        cnt++
        if cnt > limit { break }
        time.Sleep(d)
    }
>>
    [fuel] bounds the iterations; [limit + 1] of them always suffice
    (lemma [waitStopped_fuel]). *)
Fixpoint waitStopped (limit : Z) (d : Duration) (fuel : nat) (cnt : Z) (ar : t)
  : St t :=
  match fuel with
  | O => ret ar
  | S fuel' =>
      if decide (status ar = StatusStopped) then ret ar
      else
        let cnt := (cnt + 1)%Z in
        if (cnt >? limit)%Z then ret ar
        else
          ar' <- Sleep d ar ;;
          waitStopped limit d fuel' cnt ar'
  end.

Definition stopError (ar : t) : error :=
  Errorf ("Runner[" +:+ runnerName ar +:+ "] ActiveReader " +:+ originpath ar
          +:+ " was not in StatusRunning or StatusStopping status, exit it... ").

Definition Stop (ar : t) : St (t * option error) :=
  if decide (status ar = StatusStopped) then ret (ar, None)
  else
    let (ar1, swapped) := CompareAndSwap StatusRunning StatusStopping ar in
    if negb swapped && negb (bool_decide (status ar1 = StatusStopping)) then
      let err := stopError ar1 in
      ret (ar1, Some err)
    else
      (* cnt := 0; wait for the end, giving up after 3 sleeps of 1s *)
      ar2 <- waitStopped 3 Second 4 0 ar1 ;;
      ret (ar2, None).

Definition Start (ar : t) : St t :=
  if decide (status ar = StatusRunning) then ret ar
  else
    ar1 <- (if decide (status ar = StatusStopping) then
              ar' <- waitStopped 300 (10 * Millisecond)%Z 301 0 ar ;;
              ret (fst (CompareAndSwap StatusStopping StatusStopped ar'))
            else ret ar) ;;
    let ar2 := set_status StatusInit ar1 in
    _ <- emit (EvGoRun (originpath ar2)) ;;
    ret ar2.

Definition isStopping (ar : t) : bool := bool_decide (status ar = StatusStopping).
Definition hasStopped (ar : t) : bool := bool_decide (status ar = StatusStopped).

Definition Close (ar : t) : St (t * option error) :=
  _ <- emit (EvBrClose (realpath ar)) ;;
  brCloseErr <- get brCloseErr ;;
  let b := br ar in
  let ar := set_br {| br_realpath := br_realpath b; br_whence := br_whence b;
                      br_closed := true; br_headPattern := br_headPattern b |} ar in
  r <- Stop ar ;;
  let (ar, err) := r in
  match err with
  | Some _ => ret (ar, brCloseErr)
  | None => ret (ar, None)
  end.

Definition setStatsError (err : string) (ar : t) : t :=
  {| br := br ar; realpath := realpath ar; originpath := originpath ar;
     readcache := readcache ar; status := status ar; inactive := inactive ar;
     runnerName := runnerName ar; emptyLineCnt := emptyLineCnt ar;
     stats := {| LastError := err |} |}.

Definition sendError (ar : t) (err : option error) : St unit :=
  match err with
  | None => ret tt
  | Some e =>
      if isStopping ar || hasStopped ar then
        let err := Errorf ("sendError " +:+ Error e +:+ " failed as is closed") in
        ret tt
      else sendOnErrChan e
  end.

Definition expired (env : Env) (ar : t) (expire : Duration) : bool :=
  (* an expire of 0 never expires *)
  if (Nanoseconds expire =? 0)%Z then false
  else
    match Stat env (realpath ar) with
    | Err err => if IsNotExist err then true else false
    | Ok fi =>
        if Before (Add (ModTime fi) expire) (Now env) && (inactive ar >? 0)%Z
        then true else false
    end.

(** How one pass through a loop body ends. *)
Inductive ctl := Proceed | Continue | Return | Fuel.

(** Whether [Run] came back or the model ran out of fuel. *)
Inductive outcome := Returned | OutOfFuel.

(** [err != nil && err != io.EOF && err != os.ErrClosed] *)
Definition isReadError (err : option error) : bool :=
  match err with
  | None => false
  | Some e => negb (bool_decide (e = EOF)) && negb (bool_decide (e = ErrClosed))
  end.

Definition isDown (ar : t) : bool :=
  bool_decide (status ar = StatusStopped) || bool_decide (status ar = StatusStopping).

(** The fetch phase of one iteration of the reading loop (the block under
    [if ar.readcache == ""]). *)
Definition fetch (ar : t) : St (t * ctl) :=
  if decide (readcache ar = "") then
    r <- nextLine ;;
    let (line, err) := r in
    let ar := set_readcache line ar in
    if isReadError err then
      let ar := setStatsError (from_option Error "" err) ar in
      _ <- sendError ar err ;;
      r <- Stop ar ;;
      ret (fst r, Return)
    else if decide (readcache ar = "") then
      let ar := set_emptyLineCnt (wrap_int (emptyLineCnt ar + 1)) ar in
      (* EOF with nothing read: not the first EOF *)
      if bool_decide (err = Some EOF) then
        let ar := set_inactive 1 ar in
        r <- Stop ar ;;
        ret (fst r, Return)
      (* 3s without content: inactive *)
      else if (emptyLineCnt ar >? 3)%Z then
        let ar := set_inactive 1 ar in
        r <- Stop ar ;;
        ret (fst r, Return)
      else
        (* an empty read always sleeps 1s *)
        ar <- Sleep Second ar ;;
        ret (ar, Continue)
    else ret (ar, Proceed)
  else ret (ar, Proceed).

(** The deliver phase: the inner [for] with the select on msgchan and the
    1s ticker.  The select is a suspension point whichever case wins.  The
    message channel is taken to be open while the reading task runs. *)
Fixpoint deliver (fuel : nat) (repeat : Z) (ar : t) : St (t * ctl) :=
  match fuel with
  | O => ret (ar, Fuel)
  | S fuel' =>
      if decide (readcache ar = "") then ret (ar, Continue)
      else
        let repeat := wrap_int (repeat + 1) in
        let ar := set_emptyLineCnt 0 (set_inactive 0 ar) in
        if isDown ar then
          ret (fst (CompareAndSwap StatusStopping StatusStopped ar), Return)
        else
          sent <- nextSelect ;;
          s <- yield (status ar) ;;
          let ar := set_status s ar in
          if sent : bool then
            _ <- emit (EvSendMsg {| result_ := readcache ar; logpath := originpath ar |}) ;;
            deliver fuel' repeat (set_readcache "" ar)
          else
            _ <- emit EvTick ;;
            deliver fuel' repeat ar
  end.

Fixpoint runLoop (fuel : nat) (ar : t) : St (t * outcome) :=
  match fuel with
  | O => ret (ar, OutOfFuel)
  | S fuel' =>
      if isDown ar then
        ret (fst (CompareAndSwap StatusStopping StatusStopped ar), Returned)
      else
        r <- fetch ar ;;
        let (ar, c) := r in
        match c with
        | Return => ret (ar, Returned)
        | Fuel => ret (ar, OutOfFuel)
        | Continue => runLoop fuel' ar
        | Proceed =>
            r <- deliver fuel' 0 ar ;;
            let (ar, c) := r in
            match c with
            | Return => ret (ar, Returned)
            | Fuel => ret (ar, OutOfFuel)
            | _ => runLoop fuel' ar
            end
        end
  end.

Definition Run (fuel : nat) (ar : t) : St (t * outcome) :=
  let (ar, ok) := CompareAndSwap StatusInit StatusRunning ar in
  if ok then runLoop fuel ar else ret (ar, Returned).

End ActiveReader.

(** [NewActiveReader]: the sub-meta directory name (the real path with the
    separators replaced) only selects which sub-meta the meta store opens;
    the store is asked by real path here. *)
Definition NewActiveReader (env : Env) (originPath realPath whence : string)
    (notFirstTime : bool) (meta : Meta) : result ActiveReader.t :=
  match NewMetaWithRunnerName env realPath with
  | Err err => Err err
  | Ok subMetaIsNotExist =>
      let isNewFile := statisticFileExist meta || notFirstTime in
      (* a file that is not part of the stock is read from its start *)
      let whence := if isNewFile && subMetaIsNotExist then WhenceOldest else whence in
      match NewSingleFile env realPath whence with
      | Some err => Err err
      | None =>
          match NewReaderSize env realPath with
          | Some err => Err err
          | None =>
              Ok {| ActiveReader.br :=
                      {| br_realpath := realPath; br_whence := whence;
                         br_closed := false; br_headPattern := None |};
                    ActiveReader.realpath := realPath;
                    ActiveReader.originpath := originPath;
                    ActiveReader.readcache := "";
                    ActiveReader.status := StatusInit;
                    ActiveReader.inactive := 1;
                    ActiveReader.runnerName := RunnerName meta;
                    ActiveReader.emptyLineCnt := 0;
                    ActiveReader.stats := {| LastError := "" |} |}
          end
      end
  end.

(** ** The engine *)

(** What the engine's [ReadLine] select received. *)
Inductive selectCase :=
| RecvMsg (msg : Result)           (* msg := <-r.msgChan *)
| RecvErr (err : option error)     (* err := <-r.errChan *)
| TimerFired.                      (* <-timer.C, after one second *)

Module Reader.

Record t := {
  meta : Meta;
  status : Status;
  stats : StatsInfo;
  fileReaders : gmap string ActiveReader.t;
  currentFile : string;
  headRegexp : option string;
  cacheMap : gmap string string;
  logPathPattern : string;
  ignoreLogPathPattern : string;
  expire : Duration;
  submetaExpire : Duration;
  statInterval : Duration;
  maxOpenFiles : Z;
  whence : string;
  notFirstTime : bool
}.

Definition set_maps (fr : gmap string ActiveReader.t) (cm : gmap string string)
    (r : t) : t :=
  {| meta := meta r; status := status r; stats := stats r;
     fileReaders := fr; currentFile := currentFile r;
     headRegexp := headRegexp r; cacheMap := cm;
     logPathPattern := logPathPattern r;
     ignoreLogPathPattern := ignoreLogPathPattern r; expire := expire r;
     submetaExpire := submetaExpire r; statInterval := statInterval r;
     maxOpenFiles := maxOpenFiles r; whence := whence r;
     notFirstTime := notFirstTime r |}.

Definition set_fileReaders (fr : gmap string ActiveReader.t) (r : t) : t :=
  set_maps fr (cacheMap r) r.

Definition set_currentFile (f : string) (r : t) : t :=
  {| meta := meta r; status := status r; stats := stats r;
     fileReaders := fileReaders r; currentFile := f;
     headRegexp := headRegexp r; cacheMap := cacheMap r;
     logPathPattern := logPathPattern r;
     ignoreLogPathPattern := ignoreLogPathPattern r; expire := expire r;
     submetaExpire := submetaExpire r; statInterval := statInterval r;
     maxOpenFiles := maxOpenFiles r; whence := whence r;
     notFirstTime := notFirstTime r |}.

Definition set_notFirstTime (b : bool) (r : t) : t :=
  {| meta := meta r; status := status r; stats := stats r;
     fileReaders := fileReaders r; currentFile := currentFile r;
     headRegexp := headRegexp r; cacheMap := cacheMap r;
     logPathPattern := logPathPattern r;
     ignoreLogPathPattern := ignoreLogPathPattern r; expire := expire r;
     submetaExpire := submetaExpire r; statInterval := statInterval r;
     maxOpenFiles := maxOpenFiles r; whence := whence r;
     notFirstTime := b |}.

Definition setStatsError (err : string) (r : t) : t :=
  {| meta := meta r; status := status r; stats := {| LastError := err |};
     fileReaders := fileReaders r; currentFile := currentFile r;
     headRegexp := headRegexp r; cacheMap := cacheMap r;
     logPathPattern := logPathPattern r;
     ignoreLogPathPattern := ignoreLogPathPattern r; expire := expire r;
     submetaExpire := submetaExpire r; statInterval := statInterval r;
     maxOpenFiles := maxOpenFiles r; whence := whence r;
     notFirstTime := notFirstTime r |}.

Definition isStopping (r : t) : bool := bool_decide (status r = StatusStopping).
Definition hasStopped (r : t) : bool := bool_decide (status r = StatusStopped).

Definition sendError (r : t) (err : option error) : St unit :=
  match err with
  | None => ret tt
  | Some e => sendOnErrChan e
  end.

(** [checkExpiredFiles]: the [range] over the map visits the followers in
    the order of [map_to_list]. *)
Fixpoint expireEach (env : Env) (l : list (string * ActiveReader.t)) (r : t)
    (paths : list string) : St (t * list string) :=
  match l with
  | [] => ret (r, paths)
  | (path, ar) :: l' =>
      if ActiveReader.expired env ar (expire r) then
        _ <- ActiveReader.Close ar ;;
        let r := set_maps (delete path (fileReaders r)) (delete path (cacheMap r)) r in
        _ <- emit (EvRemoveSubMeta path) ;;
        expireEach env l' r (paths ++ [path])
      else expireEach env l' r paths
  end.

Definition checkExpiredFiles (env : Env) (r : t) : St t :=
  x <- expireEach env (map_to_list (fileReaders r)) r [] ;;
  ret (fst x).

(** The body of the [for _, mc := range matches] loop of [statLogPath]. *)
Definition statMatch (env : Env) (unmatchMap : gset string) (now : Time)
    (mc : string) (acc : t * list string) : St (t * list string) :=
  let (r, newaddsPath) := acc in
  if decide (mc ∈ unmatchMap) then ret acc
  else
    match GetRealPath env mc with
    | Err _ => ret acc
    | Ok (rp, fi) =>
        if IsDir fi then ret acc
        else
          match fileReaders r !! rp with
          | Some filear =>
              if IsFileModified env rp (statInterval r) now then
                filear <- ActiveReader.Start filear ;;
                ret (set_fileReaders (<[rp := filear]> (fileReaders r)) r, newaddsPath)
              else ret acc
          | None =>
              let cacheline := default "" (cacheMap r !! rp) in
              (* an expired file is not followed, unless it was followed
                 before and a line of it is still pending *)
              if bool_decide (cacheline = "")
                 && (Nanoseconds (expire r) >? 0)%Z
                 && Before (Add (ModTime fi) (expire r)) (Now env)
              then ret acc
              else
                match NewActiveReader env mc rp (whence r) (notFirstTime r) (meta r) with
                | Err err =>
                    let err := Errorf ("runner[" +:+ RunnerName (meta r)
                                       +:+ "] NewActiveReader for matches " +:+ rp
                                       +:+ " error " +:+ Error err) in
                    _ <- sendError r (Some err) ;;
                    ret acc
                | Ok ar =>
                    let ar := ActiveReader.set_readcache cacheline ar in
                    let (ar, r) :=
                      match headRegexp r with
                      | Some re =>
                          match SetMode env rp re with
                          | Some err =>
                              (ar, setStatsError
                                     ("Runner[" +:+ RunnerName (meta r)
                                      +:+ "] NewActiveReader for matches " +:+ rp
                                      +:+ " SetMode error " +:+ Error err) r)
                          | None =>
                              let b := ActiveReader.br ar in
                              (ActiveReader.set_br
                                 {| br_realpath := br_realpath b;
                                    br_whence := br_whence b;
                                    br_closed := br_closed b;
                                    br_headPattern := Some re |} ar, r)
                          end
                      | None => (ar, r)
                      end in
                    let newaddsPath := (newaddsPath ++ [rp])%list in
                    let up := negb (hasStopped r) && negb (isStopping r) in
                    _ <- (if up then emit (EvAddSubMeta rp) else ret tt) ;;
                    let r := if up then set_fileReaders (<[rp := ar]> (fileReaders r)) r
                             else r in
                    if up then
                      ar <- ActiveReader.Start ar ;;
                      (* the map holds the pointer [Start] has written through *)
                      ret (set_fileReaders (<[rp := ar]> (fileReaders r)) r, newaddsPath)
                    else ret (r, newaddsPath)
                end
          end
    end.

Fixpoint statMatches (env : Env) (unmatchMap : gset string) (now : Time)
    (matches : list string) (acc : t * list string) : St (t * list string) :=
  match matches with
  | [] => ret acc
  | mc :: rest =>
      acc <- statMatch env unmatchMap now mc acc ;;
      statMatches env unmatchMap now rest acc
  end.

Definition statLogPath (env : Env) (r : t) : St t :=
  (* the maximum of open files is reached: nothing more is followed *)
  if (Z.of_nat (size (fileReaders r)) >=? maxOpenFiles r)%Z then ret r
  else
    match Glob env (logPathPattern r) with
    | Err err =>
        ret (setStatsError ("Runner[" +:+ RunnerName (meta r)
                            +:+ "] stat logPathPattern error " +:+ Error err) r)
    | Ok matches =>
        let scan (unmatchMap : gset string) : St t :=
          acc <- statMatches env unmatchMap (Now env) matches (r, []) ;;
          let (r, newaddsPath) := acc : t * list string in
          ret (if negb (notFirstTime r) then set_notFirstTime true r else r) in
        if negb (bool_decide (ignoreLogPathPattern r = "")) then
          match Glob env (ignoreLogPathPattern r) with
          | Err err =>
              ret (setStatsError ("Runner[" +:+ RunnerName (meta r)
                                  +:+ "] stat ignoreLogPathPattern error "
                                  +:+ Error err) r)
          | Ok unmatches => scan (list_to_set unmatches)
          end
        else scan ∅
    end.

(** One turn of the discovery goroutine started by [Start]. *)
Definition discoveryTick (env : Env) (r : t) : St t :=
  r <- checkExpiredFiles env r ;;
  statLogPath env r.

(** A run of discovery ticks, the file system and the clock of each tick
    given by its own [Env]. *)
Fixpoint discoveryTicks (envs : list Env) (r : t) : St t :=
  match envs with
  | [] => ret r
  | env :: envs' =>
      r <- discoveryTick env r ;;
      discoveryTicks envs' r
  end.

(** [ReadLine], given the case of its select that fired. *)
Definition ReadLine (r : t) (c : selectCase) : t * (string * option error) :=
  match c with
  | RecvMsg msg => (set_currentFile (logpath msg) r, (result_ msg, None))
  | RecvErr err => (r, ("", err))
  | TimerFired => (r, ("", None))
  end.

End Reader.

(** ** Construction of the engine *)

(** The configuration helpers, key names and the duration parser that
    [NewReader] takes from the packages conf, reader/config and time, and
    the reading back of the persisted line cache from the meta store. *)
Record ConfLib := {
  KeyLogPath : string;
  KeyWhence : string;
  KeyStatInterval : string;
  KeyMaxOpenFiles : string;
  KeyExpire : string;
  KeyIgnoreLogPath : string;
  KeySubmetaExpire : string;
  GetString : gmap string string -> string -> result string;
  GetStringOr : gmap string string -> string -> string -> string;
  GetIntOr : gmap string string -> string -> Z -> Z;
  ParseDuration : string -> result Duration;
  TrimSpace : string -> string;
  ReadBufMeta : Meta -> result Z;                   (* the buffer size *)
  ReadBuf : Meta -> Z -> result string;
  Unmarshal : string -> gmap string string          (* the map left by jsoniter.Unmarshal *)
}.

(** Modelled from the spec: [IsSubmetaExpireValid] of utils/models is not
    among the sources.  The spec has submeta_expire "must be ≥ expire when
    nonzero (else configuration error)" and notes that the predicate "is
    used as return error if true": it holds exactly for the pairs that are
    refused. *)
Definition IsSubmetaExpireValid (submetaExpire expire : Duration) : bool :=
  negb (Nanoseconds submetaExpire =? 0)%Z
  && (Nanoseconds submetaExpire <? Nanoseconds expire)%Z.

(** The verb [%q] of [fmt.Errorf], on the key names (which need no
    escaping). *)
Definition quoted (s : string) : string :=
  let dq := String (Ascii.ascii_of_nat 34) EmptyString in
  dq +:+ s +:+ dq.

Definition submetaExpireError (lib : ConfLib) : error :=
  Errorf (quoted (KeySubmetaExpire lib) +:+ " valus is less than "
          +:+ quoted (KeyExpire lib)).

Definition NewReader (lib : ConfLib) (meta : Meta) (conf : gmap string string)
  : result Reader.t :=
  match GetString lib conf (KeyLogPath lib) with
  | Err err => Err err
  | Ok logPathPattern =>
      let whence := GetStringOr lib conf (KeyWhence lib) WhenceOldest in
      let statIntervalDur := GetStringOr lib conf (KeyStatInterval lib) "3m" in
      let maxOpenFiles := GetIntOr lib conf (KeyMaxOpenFiles lib) 256 in
      let expireDur := GetStringOr lib conf (KeyExpire lib) "24h" in
      match ParseDuration lib expireDur with
      | Err err => Err err
      | Ok expire =>
          let ignoreLogPathPattern := GetStringOr lib conf (KeyIgnoreLogPath lib) "" in
          let submetaExpireDur := GetStringOr lib conf (KeySubmetaExpire lib) "720h" in
          match ParseDuration lib submetaExpireDur with
          | Err err => Err err
          | Ok submetaExpire =>
              (* a submetaExpire of 0 keeps the meta data for ever *)
              if IsSubmetaExpireValid submetaExpire expire then
                Err (submetaExpireError lib)
              else
                match ParseDuration lib statIntervalDur with
                | Err err => Err err
                | Ok statInterval =>
                    let bufsize :=
                      match ReadBufMeta lib meta with
                      | Err _ => 0%Z
                      | Ok n => n
                      end in
                    let cacheMap : gmap string string :=
                      if (bufsize >? 0)%Z then
                        match ReadBuf lib meta bufsize with
                        | Err _ => ∅
                        | Ok buf => Unmarshal lib buf
                        end
                      else ∅ in
                    Ok {| Reader.meta := meta;
                          Reader.status := StatusInit;
                          Reader.stats := {| LastError := "" |};
                          Reader.fileReaders := ∅;
                          Reader.currentFile := "";
                          Reader.headRegexp := None;
                          Reader.cacheMap := cacheMap;
                          Reader.logPathPattern := logPathPattern;
                          Reader.ignoreLogPathPattern := TrimSpace lib ignoreLogPathPattern;
                          Reader.expire := expire;
                          Reader.submetaExpire := submetaExpire;
                          Reader.statInterval := statInterval;
                          Reader.maxOpenFiles := maxOpenFiles;
                          Reader.whence := whence;
                          Reader.notFirstTime := false |}
                end
          end
      end
  end.

(** ** The rest of the follower's and the engine's methods *)

(** The line-feed character of the messages built with "\n". *)
Definition nl : string := String (Ascii.ascii_of_nat 10) EmptyString.

(** [strings.Join] *)
Fixpoint Join (elems : list string) (sep : string) : string :=
  match elems with
  | [] => ""
  | [x] => x
  | x :: rest => x +:+ sep +:+ Join rest sep
  end.

(** The messages handed to the consumer, in the order of a trace. *)
Definition sentMsgs (tr : list event) : list Result :=
  omap (fun e => match e with EvSendMsg m => Some m | _ => None end) tr.

(** [int64] addition wraps around. *)
Definition wrap_int64 (z : Z) : Z := ((z + 2 ^ 63) mod 2 ^ 64 - 2 ^ 63)%Z.

(** What the engine asks of the line buffers and of the meta store when it
    reports, checkpoints and resets. *)
Record Store := {
  brLag : string -> result Z;                   (* ar.br.Lag(): the Size, by real path *)
  brMetaReset : string -> option error;         (* ar.br.Meta.Reset() *)
  metaReset : option error;                     (* r.meta.Reset() *)
  Marshal : gmap string string -> result string;   (* jsoniter.Marshal *)
  WriteBuf : string -> option error             (* meta.WriteBuf(buf, 0, 0, len(buf)) *)
}.

(** Modelled from the spec: [IsSubMetaExpire] of utils/models is not among
    the sources.  The spec starts the sub-meta sweep "only if
    submeta_expire > 0 AND submeta_expire >= expire". *)
Definition IsSubMetaExpire (submetaExpire expire : Duration) : bool :=
  (Nanoseconds submetaExpire >? 0)%Z
  && (Nanoseconds submetaExpire >=? Nanoseconds expire)%Z.

(** Modelled from the spec: [LagInfo] of utils/models is not among the
    sources; the spec gives the lag as "{size, unit="bytes"}".  The size
    is taken to be an int64 byte count, as the line buffers report it. *)
Record LagInfo := { Size : Z; SizeUnit : string }.

(** The goroutines [Start] launches. *)
Inductive task :=
| DiscoveryTask                 (* checkExpiredFiles, statLogPath, every statInterval *)
| SubmetaSweepTask.             (* meta.CheckExpiredSubMetas, every hour *)

Module Engine.

Import Reader.

(** [ar.Status()], [ar.Lag()], [ar.SyncMeta()] of the follower;
    [br.SyncMeta()] flushes the offset into the sub-meta and answers
    nothing. *)
Definition arStatus (ar : ActiveReader.t) : StatsInfo := ActiveReader.stats ar.
Definition arLag (st : Store) (ar : ActiveReader.t) : result Z :=
  brLag st (br_realpath (ActiveReader.br ar)).
Definition arSyncMeta (ar : ActiveReader.t) : string := ActiveReader.readcache ar.

Definition Name (r : t) : string := "TailxReader: " +:+ logPathPattern r.

Definition Source (r : t) : string := currentFile r.

Definition set_status (s : Status) (r : t) : t :=
  {| meta := meta r; status := s; stats := stats r;
     fileReaders := fileReaders r; currentFile := currentFile r;
     headRegexp := headRegexp r; cacheMap := cacheMap r;
     logPathPattern := logPathPattern r;
     ignoreLogPathPattern := ignoreLogPathPattern r; expire := expire r;
     submetaExpire := submetaExpire r; statInterval := statInterval r;
     maxOpenFiles := maxOpenFiles r; whence := whence r;
     notFirstTime := notFirstTime r |}.

(** The followers, in the order the [range] over the map meets them. *)
Definition getActiveReaders (r : t) : list ActiveReader.t :=
  (map_to_list (fileReaders r)).*2.

Definition Start (r : t) : t * option error * list task :=
  if isStopping r || hasStopped r then
    (r, Some (Errorf "reader is stopping or has stopped"), [])
  else if decide (status r = StatusInit) then
    (set_status StatusRunning r, None,
     DiscoveryTask ::
       (if IsSubMetaExpire (submetaExpire r) (expire r) then [SubmetaSweepTask] else []))
  else (r, None, []).

(** A run of [ReadLine] calls, one select case each; the answers are
    collected. *)
Fixpoint ReadLines (r : t) (cs : list selectCase) : t * list (string * option error) :=
  match cs with
  | [] => (r, [])
  | c :: cs' =>
      let (r1, a) := ReadLine r c in
      let (r2, rest) := ReadLines r1 cs' in
      (r2, a :: rest)
  end.

Definition statusLine (ar : ActiveReader.t) : string :=
  nl +:+ "<" +:+ ActiveReader.originpath ar +:+ ">: " +:+ LastError (arStatus ar).

Definition Status (r : t) : t * StatsInfo :=
  let r' :=
    fold_left
      (fun (r : t) (ar : ActiveReader.t) =>
         if decide (LastError (arStatus ar) = "") then r
         else setStatsError (LastError (stats r) +:+ statusLine ar) r)
      (getActiveReaders r) r in
  (r', stats r').

Definition Lag (st : Store) (r : t) : LagInfo * option error :=
  let acc :=
    fold_left
      (fun (acc : Z * string) (ar : ActiveReader.t) =>
         let (size, errStr) := acc in
         match arLag st ar with
         | Err subErr => (size, errStr +:+ Error subErr)
         | Ok lg => (wrap_int64 (size + lg), errStr)
         end)
      (getActiveReaders r) (0%Z, "") in
  let (size, errStr) := acc in
  ({| Size := size; SizeUnit := "bytes" |},
   if (0 <? String.length errStr)%nat then Some (Errorf errStr) else None).

(** What a [SyncMeta] leaves behind outside the engine: the buffer handed
    to [WriteBuf] and whether the expired sub-metas were cleaned. *)
Record synced := { written : option string; cleaned : bool }.

Definition syncCache (cm : gmap string string) (ar : ActiveReader.t)
  : gmap string string :=
  let readcache := arSyncMeta ar in
  if decide (readcache = "") then cm
  else <[ActiveReader.realpath ar := readcache]> cm.

Definition SyncMeta (st : Store) (r : t) : t * synced :=
  let cm := fold_left syncCache (getActiveReaders r) (cacheMap r) in
  let r := set_maps (fileReaders r) cm r in
  match Marshal st (cacheMap r) with
  | Err _ => (r, {| written := None; cleaned := false |})
  | Ok buf =>
      match WriteBuf st buf with
      | Some _ => (r, {| written := Some buf; cleaned := false |})
      | None =>
          (r, {| written := Some buf;
                 cleaned := IsSubMetaExpire (submetaExpire r) (expire r) |})
      end
  end.

Definition Reset (st : Store) (r : t) : option error :=
  let errMsg := match metaReset st with Some err => [Error err] | None => [] end in
  let errMsg :=
    fold_left
      (fun (errMsg : list string) (ar : ActiveReader.t) =>
         match brMetaReset st (br_realpath (ActiveReader.br ar)) with
         | Some subErr => (errMsg ++ [Error subErr])%list
         | None => errMsg
         end)
      (getActiveReaders r) errMsg in
  if negb (length errMsg =? 0)%nat then Some (Errorf (Join errMsg nl)) else None.

End Engine.

(** ** The docker collector (metric/telegraf/docker/docker.go) *)

Module Docker.

Definition ConfigEndpoint : string := "endpoint".
Definition ConfigGatherServices : string := "gather_services".
Definition ConfigContainerNames : string := "container_names".
Definition ConfigContainerNameInclude : string := "container_name_include".
Definition ConfigContainerNameExclude : string := "container_name_exclude".
Definition ConfigContainerStateInclude : string := "container_state_include".
Definition ConfigContainerStateExclude : string := "container_state_exclude".
Definition ConfigPerDevice : string := "perdevice".
Definition ConfigTotal : string := "total".
Definition ConfigInsecureSkipVerify : string := "insecure_skip_verify".
Definition ConfigTLSCA : string := "tls_ca".
Definition ConfigTLSCert : string := "tls_cert".
Definition ConfigTLSKey : string := "tls_key".

(** A value of [map[string]interface{}]: a string, a bool, or a value of
    another dynamic type, kept by the name [%T] prints. *)
Inductive value :=
| VString (s : string)
| VBool (b : bool)
| VOther (typeName : string).

(** [data[key].(string)] and [data[key].(bool)] *)
Definition asString (v : option value) : option string :=
  match v with Some (VString s) => Some s | _ => None end.
Definition asBool (v : option value) : option bool :=
  match v with Some (VBool b) => Some b | _ => None end.

(** The verb [%T]. *)
Definition typeOf (v : option value) : string :=
  match v with
  | None => "<nil>"
  | Some (VString _) => "string"
  | Some (VBool _) => "bool"
  | Some (VOther n) => n
  end.

(** The fields of telegraf's [docker.Docker] that [SyncConfig] writes. *)
Record Docker := {
  Endpoint : string;
  GatherServices : bool;
  ContainerInclude : list string;
  ContainerExclude : list string;
  ContainerStateInclude : list string;
  ContainerStateExclude : list string;
  PerDevice : bool;
  Total : bool;
  InsecureSkipVerify : bool;
  TLSCA : string;
  TLSCert : string;
  TLSKey : string
}.

(** [c.Input]: the docker input or an input of another type. *)
Inductive Input :=
| DockerInput (dc : Docker)
| OtherInput.

(** [strings.Split(s, sep)] for a separator of one byte: a cut at every
    occurrence. *)
Fixpoint splitOn (sep : Ascii.ascii) (s : string) : list string :=
  match s with
  | EmptyString => [""]
  | String c s' =>
      if Ascii.eqb c sep then "" :: splitOn sep s'
      else
        match splitOn sep s' with
        | [] => [String c ""]
        | x :: rest => String c x :: rest
        end
  end.

Definition comma : Ascii.ascii := Ascii.ascii_of_nat 44.

(** The pattern of the four filter options: the list is replaced only by a
    string that is not blank. *)
Definition syncList (TrimSpace : string -> string) (v : option value)
    (old : list string) : list string :=
  match asString v with
  | Some s =>
      let s := TrimSpace s in
      if decide (s = "") then old else splitOn comma s
  | None => old
  end.

Definition endpointError (v : option value) : error :=
  Errorf ("key endpoint want as string,actual get " +:+ typeOf v +:+ nl).

(** [SyncConfig]; [strings.TrimSpace] is the standard library's. *)
Definition SyncConfig (TrimSpace : string -> string) (input : Input)
    (data : gmap string value) : Input * option error :=
  match input with
  | OtherInput =>
      (input, Some (Errorf "unexpected docker type, want '*docker.Docker'"))
  | DockerInput dc =>
      match asString (data !! ConfigEndpoint) with
      | None => (input, Some (endpointError (data !! ConfigEndpoint)))
      | Some endpoint =>
          (DockerInput
             {| Endpoint := endpoint;
                GatherServices :=
                  default (GatherServices dc) (asBool (data !! ConfigGatherServices));
                ContainerInclude :=
                  syncList TrimSpace (data !! ConfigContainerNameInclude)
                    (ContainerInclude dc);
                ContainerExclude :=
                  syncList TrimSpace (data !! ConfigContainerNameExclude)
                    (ContainerExclude dc);
                ContainerStateInclude :=
                  syncList TrimSpace (data !! ConfigContainerStateInclude)
                    (ContainerStateInclude dc);
                ContainerStateExclude :=
                  syncList TrimSpace (data !! ConfigContainerStateExclude)
                    (ContainerStateExclude dc);
                (* perdevice defaults to true *)
                PerDevice := default true (asBool (data !! ConfigPerDevice));
                Total := default (Total dc) (asBool (data !! ConfigTotal));
                InsecureSkipVerify :=
                  default (InsecureSkipVerify dc)
                    (asBool (data !! ConfigInsecureSkipVerify));
                TLSCA := default (TLSCA dc) (asString (data !! ConfigTLSCA));
                TLSCert := default (TLSCert dc) (asString (data !! ConfigTLSCert));
                TLSKey := default (TLSKey dc) (asString (data !! ConfigTLSKey)) |},
           None)
      end
  end.

End Docker.

(** ** Fixtures: concrete followers, worlds and environments *)

Module Fixtures.

(** A world in which no other goroutine touches the follower, the line
    buffer has nothing to give and nobody has closed the channels. *)
Definition idle : World :=
  {| trace := []; peer := fun _ s => s; npeer := 0;
     readLine := fun _ => ("", None); nread := 0;
     selectSent := fun _ => true; nselect := 0;
     errChanClosed := false; brCloseErr := None |}.

(** The same world, with a line buffer whose [Close] fails. *)
Definition idleCloseFails : World :=
  {| trace := []; peer := fun _ s => s; npeer := 0;
     readLine := fun _ => ("", None); nread := 0;
     selectSent := fun _ => true; nselect := 0;
     errChanClosed := false; brCloseErr := Some (Errorf "close failed") |}.

Definition follower (path : string) (st : Status) (inact : Z) : ActiveReader.t :=
  {| ActiveReader.br := {| br_realpath := path; br_whence := WhenceOldest;
                           br_closed := false; br_headPattern := None |};
     ActiveReader.realpath := path;
     ActiveReader.originpath := path;
     ActiveReader.readcache := "";
     ActiveReader.status := st;
     ActiveReader.inactive := inact;
     ActiveReader.runnerName := "runner";
     ActiveReader.emptyLineCnt := 0;
     ActiveReader.stats := {| LastError := "" |} |}.

Definition hour : Duration := (3600 * Second)%Z.

(** A file system in which every path is a regular file last modified at
    instant [mtime], seen at instant [now]; the pattern matches [matches]. *)
Definition fsEnv (matches : list string) (mtime now : Time) : Env :=
  {| Stat := fun _ => Ok {| IsDir := false; ModTime := mtime |};
     Now := now;
     Glob := fun _ => Ok matches;
     GetRealPath := fun p => Ok (p, {| IsDir := false; ModTime := mtime |});
     IsFileModified := fun _ _ _ => false;
     NewMetaWithRunnerName := fun _ => Ok true;
     NewSingleFile := fun _ _ => None;
     NewReaderSize := fun _ => None;
     SetMode := fun _ _ => None |}.

Definition meta0 : Meta :=
  {| Dir := "/meta"; RunnerName := "runner"; statisticFileExist := false |}.

(** An engine with a cap of two followers that already follows one file. *)
Definition engine : Reader.t :=
  {| Reader.meta := meta0;
     Reader.status := StatusRunning;
     Reader.stats := {| LastError := "" |};
     Reader.fileReaders := {[ "/logs/a.log" := follower "/logs/a.log" StatusRunning 0 ]};
     Reader.currentFile := "";
     Reader.headRegexp := None;
     Reader.cacheMap := ∅;
     Reader.logPathPattern := "/logs/*.log";
     Reader.ignoreLogPathPattern := "";
     Reader.expire := (24 * hour)%Z;
     Reader.submetaExpire := (720 * hour)%Z;
     Reader.statInterval := (180 * Second)%Z;
     Reader.maxOpenFiles := 2;
     Reader.whence := WhenceOldest;
     Reader.notFirstTime := true |}.

(** A configuration library with a three-entry duration table. *)
Definition lib0 : ConfLib :=
  {| KeyLogPath := "log_path";
     KeyWhence := "read_from";
     KeyStatInterval := "stat_interval";
     KeyMaxOpenFiles := "max_open_files";
     KeyExpire := "expire";
     KeyIgnoreLogPath := "ignore_log_path";
     KeySubmetaExpire := "submeta_expire";
     GetString := fun c k =>
       match c !! k with
       | Some v => Ok v
       | None => Err (Errorf ("missing key " +:+ k))
       end;
     GetStringOr := fun c k d => default d (c !! k);
     GetIntOr := fun _ _ d => d;
     ParseDuration := fun s =>
       if decide (s = "24h") then Ok (24 * hour)%Z
       else if decide (s = "720h") then Ok (720 * hour)%Z
       else if decide (s = "1h") then Ok hour
       else if decide (s = "3m") then Ok (180 * Second)%Z
       else Err (Errorf ("time: invalid duration " +:+ s));
     TrimSpace := fun s => s;
     ReadBufMeta := fun _ => Err (ErrNotExist "buf.meta");
     ReadBuf := fun _ _ => Err (ErrNotExist "buf.dat");
     Unmarshal := fun _ => ∅ |}.

End Fixtures.

(** The matches of the ignore pattern, as [statLogPath] collects them
    (none without a pattern). *)
Definition excluded (env : Env) (r : Reader.t) : list string :=
  if bool_decide (Reader.ignoreLogPathPattern r = "") then []
  else match Glob env (Reader.ignoreLogPathPattern r) with
       | Ok unmatches => unmatches
       | Err _ => []
       end.

(** Every follower is registered under its own real path. *)
Definition keyedByRealPath (m : gmap string ActiveReader.t) : Prop :=
  forall (k : string) (ar : ActiveReader.t),
    m !! k = Some ar -> ActiveReader.realpath ar = k.

(** Whether a pass of [statLogPath] gets as far as the scan of the matches:
    the cap on open files is not reached and both patterns are read without
    error.  Only such a pass reaches the assignment to notFirstTime. *)
Definition scans (env : Env) (r : Reader.t) : bool :=
  negb (Z.of_nat (size (Reader.fileReaders r)) >=? Reader.maxOpenFiles r)%Z
  && match Glob env (Reader.logPathPattern r) with Ok _ => true | Err _ => false end
  && (bool_decide (Reader.ignoreLogPathPattern r = "")
      || match Glob env (Reader.ignoreLogPathPattern r) with
         | Ok _ => true
         | Err _ => false
         end).

Module MoreFixtures.

(** A world whose line buffer fails with an I/O error after a partial
    line. *)
Definition failing : World :=
  {| trace := []; peer := fun _ s => s; npeer := 0;
     readLine := fun _ => ("par", Some (Errorf "input/output error")); nread := 0;
     selectSent := fun _ => true; nselect := 0;
     errChanClosed := false; brCloseErr := None |}.

(** A world whose line buffer is at the end of its file. *)
Definition atEOF : World :=
  {| trace := []; peer := fun _ s => s; npeer := 0;
     readLine := fun _ => ("", Some EOF); nread := 0;
     selectSent := fun _ => true; nselect := 0;
     errChanClosed := false; brCloseErr := None |}.

(** A world whose file holds the given lines, then EOF, read by a consumer
    that is always ready. *)
Definition holding (lines : list string) : World :=
  {| trace := []; peer := fun _ s => s; npeer := 0;
     readLine := fun n => match lines !! n with
                          | Some l => (l, None)
                          | None => ("", Some EOF)
                          end;
     nread := 0;
     selectSent := fun _ => true; nselect := 0;
     errChanClosed := false; brCloseErr := None |}.

(** The engine of the fixtures with expiry switched off. *)
Definition keepAll : Reader.t :=
  {| Reader.meta := Fixtures.meta0;
     Reader.status := StatusRunning;
     Reader.stats := {| LastError := "" |};
     Reader.fileReaders :=
       {[ "/logs/a.log" := Fixtures.follower "/logs/a.log" StatusStopping 1 ]};
     Reader.currentFile := "";
     Reader.headRegexp := None;
     Reader.cacheMap := {[ "/logs/a.log" := "pending" ]};
     Reader.logPathPattern := "/logs/*.log";
     Reader.ignoreLogPathPattern := "";
     Reader.expire := 0%Z;
     Reader.submetaExpire := 0%Z;
     Reader.statInterval := (180 * Second)%Z;
     Reader.maxOpenFiles := 256;
     Reader.whence := WhenceOldest;
     Reader.notFirstTime := true |}.

(** A file system in which every file is gone. *)
Definition goneEnv : Env :=
  {| Stat := fun p => Err (ErrNotExist p);
     Now := 10%Z;
     Glob := fun _ => Ok [];
     GetRealPath := fun p => Err (ErrNotExist p);
     IsFileModified := fun _ _ _ => false;
     NewMetaWithRunnerName := fun _ => Ok true;
     NewSingleFile := fun _ _ => None;
     NewReaderSize := fun _ => None;
     SetMode := fun _ _ => None |}.

(** An engine whose only follower holds a line it has not delivered. *)
Definition withPending : Reader.t :=
  Reader.set_maps
    {[ "/logs/a.log" :=
         ActiveReader.set_readcache "half a line"
           (Fixtures.follower "/logs/a.log" StatusRunning 0) ]}
    ∅ Fixtures.engine.

(** A store that encodes every cache as the same buffer and lags 7 bytes
    behind on every file. *)
Definition store : Store :=
  {| brLag := fun _ => Ok 7%Z;
     brMetaReset := fun _ => None;
     metaReset := None;
     Marshal := fun _ => Ok "{}";
     WriteBuf := fun _ => None |}.

(** A store and a library whose codec knows one buffer: the cache of
    [withPending] after its checkpoint. *)
Definition codecStore : Store :=
  {| brLag := fun _ => Ok 7%Z;
     brMetaReset := fun _ => None;
     metaReset := None;
     Marshal := fun m =>
       if decide (m = {[ "/logs/a.log" := "half a line" ]}) then Ok "B"
       else Err (Errorf "unsupported");
     WriteBuf := fun _ => None |}.

Definition codecLib : ConfLib :=
  {| KeyLogPath := KeyLogPath Fixtures.lib0;
     KeyWhence := KeyWhence Fixtures.lib0;
     KeyStatInterval := KeyStatInterval Fixtures.lib0;
     KeyMaxOpenFiles := KeyMaxOpenFiles Fixtures.lib0;
     KeyExpire := KeyExpire Fixtures.lib0;
     KeyIgnoreLogPath := KeyIgnoreLogPath Fixtures.lib0;
     KeySubmetaExpire := KeySubmetaExpire Fixtures.lib0;
     GetString := GetString Fixtures.lib0;
     GetStringOr := GetStringOr Fixtures.lib0;
     GetIntOr := GetIntOr Fixtures.lib0;
     ParseDuration := ParseDuration Fixtures.lib0;
     TrimSpace := TrimSpace Fixtures.lib0;
     ReadBufMeta := fun _ => Ok 1%Z;
     ReadBuf := fun _ _ => Ok "B";
     Unmarshal := fun _ => {[ "/logs/a.log" := "half a line" ]} |}.

(** The engine [NewReader] builds from that library. *)
Definition restarted : Reader.t :=
  {| Reader.meta := Fixtures.meta0;
     Reader.status := StatusInit;
     Reader.stats := {| LastError := "" |};
     Reader.fileReaders := ∅;
     Reader.currentFile := "";
     Reader.headRegexp := None;
     Reader.cacheMap := {[ "/logs/a.log" := "half a line" ]};
     Reader.logPathPattern := "/logs/*.log";
     Reader.ignoreLogPathPattern := "";
     Reader.expire := (24 * Fixtures.hour)%Z;
     Reader.submetaExpire := (720 * Fixtures.hour)%Z;
     Reader.statInterval := (180 * Second)%Z;
     Reader.maxOpenFiles := 256;
     Reader.whence := WhenceOldest;
     Reader.notFirstTime := false |}.

(** A docker input as its sample configuration leaves it, with a filter
    set by an earlier configuration. *)
Definition docker0 : Docker.Docker :=
  {| Docker.Endpoint := "unix:///var/run/docker.sock";
     Docker.GatherServices := false;
     Docker.ContainerInclude := ["web*"];
     Docker.ContainerExclude := [];
     Docker.ContainerStateInclude := [];
     Docker.ContainerStateExclude := [];
     Docker.PerDevice := false;
     Docker.Total := true;
     Docker.InsecureSkipVerify := false;
     Docker.TLSCA := "";
     Docker.TLSCert := "";
     Docker.TLSKey := "" |}.

(** A world whose consumer does not read and in which the follower is
    asked to stop during its first wait. *)
Definition stopping : World :=
  {| trace := [];
     peer := fun n s => match n with O => StatusStopping | _ => s end;
     npeer := 0;
     readLine := fun _ => ("", None); nread := 0;
     selectSent := fun _ => false; nselect := 0;
     errChanClosed := false; brCloseErr := None |}.

(** The file system of [Fixtures.fsEnv], in which every path already has
    its sub-meta. *)
Definition knownEnv (matches : list string) (mtime now : Time) : Env :=
  {| Stat := fun _ => Ok {| IsDir := false; ModTime := mtime |};
     Now := now;
     Glob := fun _ => Ok matches;
     GetRealPath := fun p => Ok (p, {| IsDir := false; ModTime := mtime |});
     IsFileModified := fun _ _ _ => false;
     NewMetaWithRunnerName := fun _ => Ok false;
     NewSingleFile := fun _ _ => None;
     NewReaderSize := fun _ => None;
     SetMode := fun _ _ => None |}.

(** An engine before its first discovery pass, configured to read new
    files from their end. *)
Definition firstPass : Reader.t :=
  {| Reader.meta := Fixtures.meta0;
     Reader.status := StatusRunning;
     Reader.stats := {| LastError := "" |};
     Reader.fileReaders := ∅;
     Reader.currentFile := "";
     Reader.headRegexp := None;
     Reader.cacheMap := ∅;
     Reader.logPathPattern := "/logs/*.log";
     Reader.ignoreLogPathPattern := "";
     Reader.expire := (24 * Fixtures.hour)%Z;
     Reader.submetaExpire := (720 * Fixtures.hour)%Z;
     Reader.statInterval := (180 * Second)%Z;
     Reader.maxOpenFiles := 256;
     Reader.whence := WhenceNewest;
     Reader.notFirstTime := false |}.

(** An engine configured with the duration -1h that follows one idle
    file. *)
Definition negativeExpire : Reader.t :=
  {| Reader.meta := Fixtures.meta0;
     Reader.status := StatusRunning;
     Reader.stats := {| LastError := "" |};
     Reader.fileReaders :=
       {[ "/logs/a.log" := Fixtures.follower "/logs/a.log" StatusStopped 1 ]};
     Reader.currentFile := "";
     Reader.headRegexp := None;
     Reader.cacheMap := ∅;
     Reader.logPathPattern := "/logs/*.log";
     Reader.ignoreLogPathPattern := "";
     Reader.expire := (- Fixtures.hour)%Z;
     Reader.submetaExpire := 0%Z;
     Reader.statInterval := (180 * Second)%Z;
     Reader.maxOpenFiles := 256;
     Reader.whence := WhenceOldest;
     Reader.notFirstTime := true |}.

End MoreFixtures.

(** ** Properties of the follower *)

Section FollowerFacts.

Import ActiveReader.

Lemma set_status_id (ar : t) : set_status (status ar) ar = ar.
Proof. destruct ar; reflexivity. Qed.

Lemma set_status_twice (s s' : Status) (ar : t) :
  set_status s (set_status s' ar) = set_status s ar.
Proof. reflexivity. Qed.

(** The polling loop changes nothing of the follower but its status, only
    appends sleeps of [d] to the trace, and leaves the answer of
    [br.Close] and the error channel alone. *)
Lemma waitStopped_shape (limit : Z) (d : Duration) (fuel : nat) :
  forall (cnt : Z) (ar : t) (w : World),
  exists (s : Status) (k : nat),
    fst (waitStopped limit d fuel cnt ar w) = set_status s ar
    /\ trace (snd (waitStopped limit d fuel cnt ar w))
       = (trace w ++ repeat (EvSleep d) k)%list
    /\ (Z.of_nat k <= Z.max 0 (limit - cnt))%Z
    /\ brCloseErr (snd (waitStopped limit d fuel cnt ar w)) = brCloseErr w
    /\ errChanClosed (snd (waitStopped limit d fuel cnt ar w)) = errChanClosed w.
Proof.
  induction fuel as [|fuel IH]; intros cnt ar w; simpl.
  - exists (status ar), 0%nat. rewrite set_status_id, app_nil_r.
    unfold ret; simpl. repeat split; lia.
  - destruct (decide (status ar = StatusStopped)) as [Hs|Hs].
    + exists (status ar), 0%nat. rewrite set_status_id, app_nil_r.
      unfold ret; simpl. repeat split; lia.
    + destruct (cnt + 1 >? limit)%Z eqn:Hc.
      * exists (status ar), 0%nat. rewrite set_status_id, app_nil_r.
        unfold ret; simpl. repeat split; lia.
      * unfold bind at 1. unfold Sleep, bind, emit, yield, ret; simpl.
        match goal with
        | |- context [waitStopped limit d fuel ?c ?a ?v] =>
            destruct (IH c a v) as (s & k & Hfst & Htr & Hk & Hb & He)
        end.
        exists s, (S k). rewrite Hfst, Htr, Hb, He; simpl.
        rewrite <- app_assoc. simpl.
        repeat split; try reflexivity. lia.
Qed.

Lemma waitStopped_S (limit : Z) (d : Duration) (fuel : nat) (cnt : Z) (ar : t)
    (w : World) :
  waitStopped limit d (S fuel) cnt ar w
  = if decide (status ar = StatusStopped) then (ar, w)
    else if (cnt + 1 >? limit)%Z then (ar, w)
         else let (ar', w') := Sleep d ar w in
              waitStopped limit d fuel (cnt + 1) ar' w'.
Proof.
  simpl. destruct (decide _); [reflexivity|].
  destruct (cnt + 1 >? limit)%Z; reflexivity.
Qed.

(** Enough fuel: past [limit + 1 - cnt] iterations more fuel changes
    nothing, the loop has left through its own [break]. *)
Lemma waitStopped_fuel (limit : Z) (d : Duration) (fuel : nat) :
  forall (cnt : Z) (ar : t) (w : World),
    (limit - cnt < Z.of_nat fuel)%Z ->
    waitStopped limit d (S fuel) cnt ar w = waitStopped limit d fuel cnt ar w.
Proof.
  induction fuel as [|fuel IH]; intros cnt ar w Hf.
  - rewrite waitStopped_S. simpl. destruct (decide _); [reflexivity|].
    destruct (cnt + 1 >? limit)%Z eqn:Hc; [reflexivity|lia].
  - rewrite (waitStopped_S limit d (S fuel)), (waitStopped_S limit d fuel).
    destruct (decide _); [reflexivity|].
    destruct (cnt + 1 >? limit)%Z eqn:Hc; [reflexivity|].
    destruct (Sleep d ar w) as [ar' w'].
    apply IH. lia.
Qed.

Lemma slept_app (tr tr' : list event) : slept (tr ++ tr') = (slept tr + slept tr')%Z.
Proof.
  induction tr as [|e tr IH]; simpl; [lia|].
  destruct e; rewrite ?IH; lia.
Qed.

Lemma slept_repeat (d : Duration) (k : nat) :
  slept (repeat (EvSleep d) k) = (Z.of_nat k * d)%Z.
Proof. induction k as [|k IH]; simpl repeat; simpl slept; [lia|]. rewrite IH. lia. Qed.

(** [Stop] by cases on the status it finds. *)
Lemma Stop_eq (ar : t) (w : World) :
  Stop ar w
  = match status ar with
    | StatusStopped => ((ar, None), w)
    | StatusInit => ((ar, Some (stopError ar)), w)
    | _ => let (ar2, w2) :=
             waitStopped 3 Second 4 0 (set_status StatusStopping ar) w in
           ((ar2, None), w2)
    end.
Proof.
  unfold Stop, CompareAndSwap, stopError.
  destruct ar as [b rp op rc st ina rn cnt sts]; simpl.
  destruct st; reflexivity.
Qed.

(** [Stop] in full: what it answers depends on the status alone, it
    touches no other field, and it sleeps at most three times one second. *)
Lemma Stop_shape (ar : t) (w : World) :
  exists (s : Status) (k : nat),
    fst (fst (Stop ar w)) = set_status s ar
    /\ trace (snd (Stop ar w)) = (trace w ++ repeat (EvSleep Second) k)%list
    /\ (k <= 3)%nat
    /\ brCloseErr (snd (Stop ar w)) = brCloseErr w
    /\ errChanClosed (snd (Stop ar w)) = errChanClosed w
    /\ (status ar = StatusInit -> snd (fst (Stop ar w)) = Some (stopError ar))
    /\ (status ar <> StatusInit -> snd (fst (Stop ar w)) = None).
Proof.
  rewrite Stop_eq.
  destruct (waitStopped_shape 3 Second 4 0 (set_status StatusStopping ar) w)
    as (s & k & Hfst & Htr & Hk & Hb & He).
  destruct (status ar) eqn:Hst.
  - exists StatusInit, 0%nat. rewrite <- Hst, set_status_id, app_nil_r; simpl.
    repeat split; try reflexivity; try lia. congruence.
  - exists StatusStopped, 0%nat. rewrite <- Hst, set_status_id, app_nil_r; simpl.
    repeat split; try reflexivity; try lia. congruence.
  - destruct (waitStopped 3 Second 4 0 (set_status StatusStopping ar) w)
      as [ar2 w2]; simpl in *.
    exists s, k. rewrite Hfst, Htr, Hb, He.
    repeat split; try reflexivity; try lia. congruence.
  - destruct (waitStopped 3 Second 4 0 (set_status StatusStopping ar) w)
      as [ar2 w2]; simpl in *.
    exists s, k. rewrite Hfst, Htr, Hb, He.
    repeat split; try reflexivity; try lia. congruence.
Qed.

End FollowerFacts.

(** ** The expiry predicate (C3, C10) *)

Section Expiry.

Import ActiveReader.
Local Open Scope Z_scope.

(** C3, as stated, does not hold, already among the durations expire >= 0:
    the claim lets a file that is gone expire whatever the duration; with
    expire = 0 the gate comes before the stat and [expired] answers false
    for a file that is gone too. *)
Lemma expired_zero_file_gone :
  ~ (forall (env : Env) (ar : t) (expire : Duration),
       0 <= expire ->
       inactive ar = 0 \/ inactive ar = 1 ->
       (expired env ar expire = true <->
        (exists err, Stat env (realpath ar) = Err err /\ IsNotExist err = true)
        \/ (exists fi, Stat env (realpath ar) = Ok fi
                       /\ expire > 0 /\ ModTime fi + expire < Now env
                       /\ inactive ar = 1))).
Proof.
  intros H.
  specialize (H MoreFixtures.goneEnv
                (Fixtures.follower "/logs/a.log" StatusStopping 1) 0).
  destruct H as [_ H]; [lia|right; reflexivity|].
  assert (expired MoreFixtures.goneEnv
            (Fixtures.follower "/logs/a.log" StatusStopping 1) 0 = true) as Habs.
  { apply H. left. exists (ErrNotExist "/logs/a.log"). split; reflexivity. }
  discriminate Habs.
Qed.

(** C3, amended, for the durations expire >= 0: the gate expire > 0 comes
    before the stat.  [expired] is true exactly when expire > 0 and either
    the stat fails with a not-exist error, or it succeeds with
    mtime + expire < now and inactive = 1; any other stat error gives false,
    and so does expire = 0, whatever the stat would answer.  [inactive] is
    only ever stored as 0 or 1. *)
Theorem expired_iff (env : Env) (ar : t) (expire : Duration)
    (Hpos : 0 <= expire)
    (Hflag : inactive ar = 0%Z \/ inactive ar = 1%Z) :
  expired env ar expire = true <->
  0 < expire
  /\ ((exists err, Stat env (realpath ar) = Err err /\ IsNotExist err = true)
      \/ (exists fi, Stat env (realpath ar) = Ok fi
                     /\ (ModTime fi + expire < Now env)%Z
                     /\ inactive ar = 1%Z)).
Proof.
  unfold expired, Nanoseconds, Before, Add.
  destruct (expire =? 0) eqn:He.
  - apply Z.eqb_eq in He. split; [discriminate|]. intros [Hne _]. lia.
  - apply Z.eqb_neq in He.
    assert (0 < expire) as Hgt by lia.
    destruct (Stat env (realpath ar)) as [fi|err].
    + split.
      * intros H. split; [assumption|]. right. exists fi.
        destruct (ModTime fi + expire <? Now env) eqn:Hb; [|discriminate].
        destruct (inactive ar >? 0) eqn:Hi; [|discriminate].
        apply Z.ltb_lt in Hb. apply Z.gtb_lt in Hi.
        split; [reflexivity|]. split; lia.
      * intros [_ [(e & Habs & _)|(fi' & Hfi & Hlt & Hin)]]; [discriminate|].
        injection Hfi as <-.
        apply Z.ltb_lt in Hlt. rewrite Hlt, Hin. reflexivity.
    + destruct (IsNotExist err) eqn:Hn; split.
      * intros _. split; [assumption|]. left. exists err. split; [reflexivity|assumption].
      * reflexivity.
      * discriminate.
      * intros [_ [(e & Heq & Hne)|(fi & Habs & _)]]; [|discriminate].
        injection Heq as <-. congruence.
Qed.

Lemma expired_iff_witness :
  0 <= Fixtures.hour
  /\ (inactive (Fixtures.follower "/logs/a.log" StatusStopping 1) = 0%Z
      \/ inactive (Fixtures.follower "/logs/a.log" StatusStopping 1) = 1%Z)
  /\ (expired (Fixtures.fsEnv [] 0 (2 * Fixtures.hour))
        (Fixtures.follower "/logs/a.log" StatusStopping 1) Fixtures.hour = true <->
      0 < Fixtures.hour
      /\ ((exists err,
             Stat (Fixtures.fsEnv [] 0 (2 * Fixtures.hour))
               (realpath (Fixtures.follower "/logs/a.log" StatusStopping 1)) = Err err
             /\ IsNotExist err = true)
          \/ (exists fi,
                Stat (Fixtures.fsEnv [] 0 (2 * Fixtures.hour))
                  (realpath (Fixtures.follower "/logs/a.log" StatusStopping 1)) = Ok fi
                /\ (ModTime fi + Fixtures.hour < Now (Fixtures.fsEnv [] 0 (2 * Fixtures.hour)))%Z
                /\ inactive (Fixtures.follower "/logs/a.log" StatusStopping 1) = 1%Z))).
Proof.
  split; [unfold Fixtures.hour, Second; lia|].
  split.
  - right; reflexivity.
  - apply (expired_iff (Fixtures.fsEnv [] 0 (2 * Fixtures.hour))
             (Fixtures.follower "/logs/a.log" StatusStopping 1) Fixtures.hour).
    + unfold Fixtures.hour, Second; lia.
    + right; reflexivity.
Defined.

(** Outside that range the two expiry tests of the package part ways.  A
    negative duration, which [time.ParseDuration] accepts and [NewReader]
    lets through, passes the gate of [expired] (expire == 0) and does not
    pass the gate of [statLogPath] (expire > 0), both written under the
    comment that an expire of 0 never expires: an idle follower expires as
    soon as its file is older than the instant now - expire, which lies in
    the future. *)
Lemma expired_negative_expire (env : Env) (ar : t) (expire : Duration)
    (fi : FileInfo) :
  expire < 0 ->
  Stat env (realpath ar) = Ok fi ->
  inactive ar = 1 ->
  expired env ar expire = Before (Add (ModTime fi) expire) (Now env).
Proof.
  intros Hneg Hs Hi. unfold expired, Nanoseconds.
  destruct (expire =? 0) eqn:E; [apply Z.eqb_eq in E; lia|].
  rewrite Hs, Hi. destruct (Before _ _); reflexivity.
Qed.

(** With such a duration every discovery tick retires the idle follower and
    follows its file anew: the line buffer is closed and the sub-meta
    removed, then the sub-meta is added again and a new reading task
    launched, tick after tick. *)
Lemma negative_expire_churn :
  let env := Fixtures.fsEnv ["/logs/a.log"] 0 10 in
  trace (snd (Reader.discoveryTicks [env; env] MoreFixtures.negativeExpire
                Fixtures.idle))
  = [EvBrClose "/logs/a.log"; EvRemoveSubMeta "/logs/a.log";
     EvAddSubMeta "/logs/a.log"; EvGoRun "/logs/a.log";
     EvBrClose "/logs/a.log"; EvRemoveSubMeta "/logs/a.log";
     EvAddSubMeta "/logs/a.log"; EvGoRun "/logs/a.log"].
Proof. vm_compute. reflexivity. Qed.

(** The two deviations named by the spec: a file that is gone expires
    (once the gate is passed), another stat error never does. *)
Lemma expired_gone (env : Env) (ar : t) (expire : Duration) (path : string) :
  expire <> 0%Z ->
  Stat env (realpath ar) = Err (ErrNotExist path) ->
  expired env ar expire = true.
Proof.
  intros He Hs. unfold expired, Nanoseconds.
  destruct (expire =? 0)%Z eqn:E; [apply Z.eqb_eq in E; contradiction|].
  rewrite Hs. reflexivity.
Qed.

Lemma expired_stat_error (env : Env) (ar : t) (expire : Duration) (err : error) :
  Stat env (realpath ar) = Err err ->
  IsNotExist err = false ->
  expired env ar expire = false.
Proof.
  intros Hs Hn. unfold expired. destruct (Nanoseconds expire =? 0)%Z; [reflexivity|].
  rewrite Hs, Hn. reflexivity.
Qed.

Lemma expired_zero (env : Env) (ar : t) : expired env ar 0 = false.
Proof. reflexivity. Qed.

End Expiry.

(** ** Construction of a follower (C10) *)

Section Construction.

Import ActiveReader.
Local Open Scope Z_scope.

Lemma NewActiveReader_inv (env : Env) (originPath realPath whence : string)
    (notFirstTime : bool) (meta : Meta) (ar : t) :
  NewActiveReader env originPath realPath whence notFirstTime meta = Ok ar ->
  exists subMetaIsNotExist : bool,
    NewMetaWithRunnerName env realPath = Ok subMetaIsNotExist
    /\ let eff := if (statisticFileExist meta || notFirstTime) && subMetaIsNotExist
                  then WhenceOldest else whence in
       NewSingleFile env realPath eff = None
       /\ NewReaderSize env realPath = None
       /\ ar = {| br := {| br_realpath := realPath; br_whence := eff;
                           br_closed := false; br_headPattern := None |};
                  realpath := realPath; originpath := originPath;
                  readcache := ""; status := StatusInit; inactive := 1;
                  runnerName := RunnerName meta; emptyLineCnt := 0;
                  stats := {| LastError := "" |} |}.
Proof.
  unfold NewActiveReader. intros H.
  destruct (NewMetaWithRunnerName env realPath) as [b|e]; [|discriminate].
  exists b. split; [reflexivity|]. cbv zeta.
  destruct (NewSingleFile env realPath _) eqn:Hsf; [discriminate|].
  destruct (NewReaderSize env realPath) eqn:Hrs; [discriminate|].
  injection H as <-. repeat split; reflexivity.
Qed.

(** The whence handed to [reader.NewSingleFile]: [WhenceOldest] when the
    file counts as new (a statistics file exists or notFirstTime is set)
    and its sub-meta does not exist, the configured whence otherwise. *)
Lemma NewActiveReader_br_whence (env : Env) (originPath realPath whence : string)
    (notFirstTime : bool) (meta : Meta) (ar : t) :
  NewActiveReader env originPath realPath whence notFirstTime meta = Ok ar ->
  exists b : bool,
    NewMetaWithRunnerName env realPath = Ok b
    /\ br_whence (br ar)
       = if (statisticFileExist meta || notFirstTime) && b
         then WhenceOldest else whence.
Proof.
  intros Hok.
  destruct (NewActiveReader_inv _ _ _ _ _ _ _ Hok) as (b & Hb & _ & _ & ->).
  exists b. split; [exact Hb|reflexivity].
Qed.

(** A path whose sub-meta exists is opened with the configured whence
    (the offset kept in the sub-meta then decides where reading resumes). *)
Lemma NewActiveReader_whence_known_path (env : Env)
    (originPath realPath whence : string) (notFirstTime : bool) (meta : Meta) (ar : t) :
  NewMetaWithRunnerName env realPath = Ok false ->
  NewActiveReader env originPath realPath whence notFirstTime meta = Ok ar ->
  br_whence (br ar) = whence.
Proof.
  intros Hnew Hok.
  destruct (NewActiveReader_inv _ _ _ _ _ _ _ Hok) as (b & Hb & _ & _ & ->).
  rewrite Hnew in Hb. injection Hb as <-. simpl.
  rewrite andb_false_r. reflexivity.
Qed.

(** C10: a new follower has inactive = 1, emptyLineCnt = 0 and status Init;
    so, before any read, [expired] is already true for it when expire > 0
    and the file was last modified before now - expire. *)
Theorem NewActiveReader_initial (env : Env) (originPath realPath whence : string)
    (notFirstTime : bool) (meta : Meta) (ar : t)
    (Hok : NewActiveReader env originPath realPath whence notFirstTime meta = Ok ar) :
  inactive ar = 1 /\ emptyLineCnt ar = 0 /\ status ar = StatusInit
  /\ forall (env' : Env) (expire : Duration) (fi : FileInfo),
       expire > 0 ->
       Stat env' (realpath ar) = Ok fi ->
       ModTime fi < Now env' - expire ->
       expired env' ar expire = true.
Proof.
  destruct (NewActiveReader_inv _ _ _ _ _ _ _ Hok) as (b & _ & _ & _ & ->).
  simpl. repeat split.
  intros env' expire fi He Hs Hlt.
  unfold expired, Nanoseconds, Before, Add; simpl.
  destruct (expire =? 0) eqn:E; [apply Z.eqb_eq in E; lia|].
  rewrite Hs.
  assert ((ModTime fi + expire <? Now env') = true) as -> by (apply Z.ltb_lt; lia).
  reflexivity.
Qed.

Lemma NewActiveReader_initial_witness :
  NewActiveReader (Fixtures.fsEnv [] 0 10) "/logs/a.log" "/logs/a.log"
    WhenceOldest false Fixtures.meta0
  = Ok (Fixtures.follower "/logs/a.log" StatusInit 1)
  /\ inactive (Fixtures.follower "/logs/a.log" StatusInit 1) = 1
  /\ emptyLineCnt (Fixtures.follower "/logs/a.log" StatusInit 1) = 0
  /\ status (Fixtures.follower "/logs/a.log" StatusInit 1) = StatusInit
  /\ expired (Fixtures.fsEnv [] 0 (2 * Fixtures.hour))
       (Fixtures.follower "/logs/a.log" StatusInit 1) Fixtures.hour = true.
Proof.
  split; [reflexivity|].
  destruct (NewActiveReader_initial (Fixtures.fsEnv [] 0 10) "/logs/a.log" "/logs/a.log"
              WhenceOldest false Fixtures.meta0
              (Fixtures.follower "/logs/a.log" StatusInit 1) eq_refl)
    as (Hi & Hc & Hs & Hexp).
  split; [exact Hi|]. split; [exact Hc|]. split; [exact Hs|].
  apply (Hexp (Fixtures.fsEnv [] 0 (2 * Fixtures.hour)) Fixtures.hour
           {| IsDir := false; ModTime := 0 |}).
  - reflexivity.
  - reflexivity.
  - reflexivity.
Defined.

End Construction.

(** ** Stopping and closing a follower (C5, C6, C9) *)

Section Stopping.

Import ActiveReader.
Local Open Scope Z_scope.

(** C5, as stated, does not hold: there is no follower in the Stopping or
    Stopped state, no error and no world in which [sendError] changes the
    trace, let alone sends on the error channel. *)
Lemma sendError_never_sends_when_down :
  ~ (exists (ar : t) (e : error) (w : World),
       (status ar = StatusStopping \/ status ar = StatusStopped)
       /\ trace (snd (sendError ar (Some e) w)) <> trace w).
Proof.
  intros (ar & e & w & Hst & Hsend). apply Hsend.
  unfold sendError, isStopping, hasStopped.
  destruct Hst as [-> | ->]; reflexivity.
Qed.

(** C5, amended: once [sendError] has found the follower Stopping or
    Stopped it assigns the wrapped message to its local [err] and returns:
    the world is left as it was, nothing is sent on the error channel. *)
Theorem sendError_down (ar : t) (err : option error) (w : World)
    (Hdown : status ar = StatusStopping \/ status ar = StatusStopped) :
  sendError ar err w = (tt, w)
  /\ sentErrs (trace (snd (sendError ar err w))) = sentErrs (trace w).
Proof.
  assert (sendError ar err w = (tt, w)) as ->; [|split; reflexivity].
  unfold sendError, isStopping, hasStopped.
  destruct err as [e|]; [|reflexivity].
  destruct Hdown as [-> | ->]; reflexivity.
Qed.

Lemma sendError_down_witness :
  (status (Fixtures.follower "/logs/a.log" StatusStopping 1) = StatusStopping
   \/ status (Fixtures.follower "/logs/a.log" StatusStopping 1) = StatusStopped)
  /\ sendError (Fixtures.follower "/logs/a.log" StatusStopping 1)
       (Some (Errorf "read failed")) Fixtures.idle = (tt, Fixtures.idle)
  /\ sentErrs (trace (snd (sendError (Fixtures.follower "/logs/a.log" StatusStopping 1)
                             (Some (Errorf "read failed")) Fixtures.idle)))
     = sentErrs (trace Fixtures.idle).
Proof.
  split; [left; reflexivity|].
  apply (sendError_down (Fixtures.follower "/logs/a.log" StatusStopping 1)
           (Some (Errorf "read failed")) Fixtures.idle).
  left; reflexivity.
Defined.

(** The send does happen for a follower that is up, on an open channel. *)
Lemma sendError_up (ar : t) (e : error) (w : World) :
  status ar = StatusInit \/ status ar = StatusRunning ->
  errChanClosed w = false ->
  trace (snd (sendError ar (Some e) w)) = (trace w ++ [EvSendErr e])%list.
Proof.
  intros Hst Hc. unfold sendError, isStopping, hasStopped, sendOnErrChan, bind, get.
  destruct Hst as [-> | ->]; simpl; rewrite Hc; reflexivity.
Qed.

(** [Stop] never sleeps more than three seconds. *)
Lemma Stop_sleeps_at_most_3s (ar : t) (w : World) :
  slept (trace (snd (Stop ar w))) <= slept (trace w) + 3 * Second.
Proof.
  destruct (Stop_shape ar w) as (s & k & _ & Htr & Hk & _).
  rewrite Htr, slept_app, slept_repeat. unfold Second. lia.
Qed.

(** When no other goroutine advances the status, [Stop] called on a
    Running or Stopping follower gives up after three sleeps and leaves it
    Stopping. *)
Lemma Stop_alone (ar : t) (w : World) :
  status ar = StatusStopping \/ status ar = StatusRunning ->
  (forall n s, peer w n s = s) ->
  fst (Stop ar w) = (set_status StatusStopping ar, None)
  /\ trace (snd (Stop ar w)) = (trace w ++ repeat (EvSleep Second) 3)%list
  /\ nread (snd (Stop ar w)) = nread w.
Proof.
  intros Hst Hpeer. rewrite Stop_eq.
  assert (waitStopped 3 Second 4 0 (set_status StatusStopping ar) w
          = (set_status StatusStopping ar,
             {| trace := trace w ++ repeat (EvSleep Second) 3;
                peer := peer w; npeer := S (S (S (npeer w)));
                readLine := readLine w; nread := nread w;
                selectSent := selectSent w; nselect := nselect w;
                errChanClosed := errChanClosed w;
                brCloseErr := brCloseErr w |})) as Hw.
  { destruct ar as [b rp op rc st ina rn cnt sts].
    unfold set_status; simpl.
    unfold bind, Sleep, emit, yield, ret, bind; simpl.
    rewrite !Hpeer; simpl. rewrite !Hpeer; simpl. rewrite !Hpeer; simpl.
    rewrite <- !app_assoc. reflexivity. }
  destruct Hst as [-> | ->]; rewrite Hw; simpl; repeat split.
Qed.

(** C6, on the code: [Stop] is called on a follower in the Stopping state
    whose reading task is gone (nobody else touches the status).  It sleeps
    three times one second, then returns nil and the status is still
    Stopping: the wait is bounded by 3s, but nothing advances the status to
    Stopped.  [Close] on the same follower ends the same way. *)
Theorem Stop_leaves_Stopping :
  let r := Stop (Fixtures.follower "/logs/a.log" StatusStopping 1) Fixtures.idle in
  let c := Close (Fixtures.follower "/logs/a.log" StatusStopping 1) Fixtures.idle in
  snd (fst r) = None
  /\ slept (trace (snd r)) = 3 * Second
  /\ status (fst (fst r)) = StatusStopping
  /\ status (fst (fst r)) <> StatusStopped
  /\ snd (fst c) = None
  /\ status (fst (fst c)) = StatusStopping.
Proof. vm_compute. repeat split; congruence. Qed.

(** C9: [Close] closes the line buffer before anything else, then calls
    [Stop]; the error of the line buffer's [Close] is returned exactly when
    that [Stop] fails, which is when the follower was still in the Init
    state; whenever [Stop] succeeds (a Stopped follower included) the
    answer is nil, whatever the line buffer's [Close] said. *)
Theorem Close_result (ar : t) (w : World) :
  let closed := set_br {| br_realpath := br_realpath (br ar);
                          br_whence := br_whence (br ar);
                          br_closed := true;
                          br_headPattern := br_headPattern (br ar) |} ar in
  let stop := Stop closed (snd (emit (EvBrClose (realpath ar)) w)) in
  (exists k : nat,
     trace (snd (Close ar w))
     = (trace w ++ EvBrClose (realpath ar) :: repeat (EvSleep Second) k)%list)
  /\ br_closed (br (fst (fst (Close ar w)))) = true
  /\ snd (fst (Close ar w))
     = match snd (fst stop) with Some _ => brCloseErr w | None => None end
  /\ snd (fst (Close ar w))
     = if decide (status ar = StatusInit) then brCloseErr w else None.
Proof.
  intros closed stop.
  assert (Close ar w
          = let (r, w') := stop in
            match snd r with
            | Some _ => ((fst r, brCloseErr w), w')
            | None => ((fst r, None), w')
            end) as ->.
  { unfold Close, bind, get, ret, stop, closed; simpl.
    destruct (Stop _ _) as [[ar' [e|]] w']; reflexivity. }
  destruct (Stop_shape closed (snd (emit (EvBrClose (realpath ar)) w)))
    as (s & k & Hfst & Htr & _ & _ & _ & Hinit & Hother).
  fold stop in Hfst, Htr, Hinit, Hother.
  assert (status closed = status ar) as Hsame by reflexivity.
  rewrite Hsame in Hinit, Hother.
  destruct stop as [[ar' e] w']; simpl in *.
  split; [|split; [|split]].
  - exists k. destruct e; simpl; rewrite Htr, <- app_assoc; reflexivity.
  - destruct e; simpl; subst ar'; reflexivity.
  - destruct e; reflexivity.
  - destruct (decide (status ar = StatusInit)) as [Hi|Hi].
    + rewrite (Hinit Hi). reflexivity.
    + rewrite (Hother Hi). reflexivity.
Qed.

End Stopping.

(** ** The reading loop (C2) *)

Section ReadingLoop.

Import ActiveReader.
Local Open Scope Z_scope.

Lemma set_readcache_id (ar : t) : set_readcache (readcache ar) ar = ar.
Proof. destruct ar; reflexivity. Qed.

(** The fetch phase on an empty read with a nil error. *)
Lemma fetch_miss_eq (ar : t) (w : World) :
  readcache ar = "" ->
  readLine w (nread w) = ("", None) ->
  fetch ar w
  = let ar1 := set_emptyLineCnt (wrap_int (emptyLineCnt ar + 1)) ar in
    let w1 := snd (nextLine w) in
    if wrap_int (emptyLineCnt ar + 1) >? 3
    then let (r, w') := Stop (set_inactive 1 ar1) w1 in ((fst r, Return), w')
    else let (a, w') := Sleep Second ar1 w1 in ((a, Continue), w').
Proof.
  intros Hcache Hread.
  destruct ar as [b rp op rc st ina rn c sts]; simpl in Hcache; subst rc.
  unfold fetch, bind, nextLine; simpl. rewrite Hread; simpl.
  destruct (wrap_int (c + 1) >? 3); reflexivity.
Qed.

Lemma runLoop_S (fuel : nat) (ar : t) (w : World) :
  runLoop (S fuel) ar w
  = if isDown ar
    then ((fst (CompareAndSwap StatusStopping StatusStopped ar), Returned), w)
    else
      let (r, w1) := fetch ar w in
      let (ar1, c) := r in
      match c with
      | Return => ((ar1, Returned), w1)
      | Fuel => ((ar1, OutOfFuel), w1)
      | Continue => runLoop fuel ar1 w1
      | Proceed =>
          let (r2, w2) := deliver fuel 0 ar1 w1 in
          let (ar2, c2) := r2 in
          match c2 with
          | Return => ((ar2, Returned), w2)
          | Fuel => ((ar2, OutOfFuel), w2)
          | _ => runLoop fuel ar2 w2
          end
      end.
Proof.
  simpl. destruct (isDown ar); [reflexivity|].
  unfold bind. destruct (fetch ar w) as [[ar1 c] w1].
  destruct c; try reflexivity.
  destruct (deliver fuel 0 ar1 w1) as [[ar2 c2] w2]. destruct c2; reflexivity.
Qed.

(** C2, as stated, does not hold: a running follower with inactive = 0
    and emptyLineCnt = 0 meets three empty reads in a row (nil error).
    After the third one the loop has slept three times and is still going:
    inactive is 0, the status is Running, the counter is 3. *)
Lemma three_misses_keep_reading :
  let r := runLoop 3 (Fixtures.follower "/logs/a.log" StatusRunning 0) Fixtures.idle in
  nread (snd r) = 3%nat
  /\ snd (fst r) = OutOfFuel
  /\ inactive (fst (fst r)) = 0
  /\ status (fst (fst r)) = StatusRunning
  /\ emptyLineCnt (fst (fst r)) = 3
  /\ trace (snd r) = [EvSleep Second; EvSleep Second; EvSleep Second].
Proof. vm_compute. repeat split. Qed.

(** C2, amended: an iteration whose [ReadLine] gives an empty line and a nil
    error increments emptyLineCnt; when the incremented counter exceeds 3
    (the fourth miss in a row after a reset) the follower sets inactive to 1
    and calls [Stop] on itself, and the task returns; while it is at most 3
    (the first three misses) the follower sleeps one second and retries,
    inactive unchanged. *)
Theorem fetch_empty_read (ar : t) (w : World)
    (Hcache : readcache ar = "")
    (Hread : readLine w (nread w) = ("", None)) :
  let cnt := wrap_int (emptyLineCnt ar + 1) in
  let ar1 := set_emptyLineCnt cnt ar in
  let w1 := snd (nextLine w) in
  emptyLineCnt (fst (fst (fetch ar w))) = cnt
  /\ (cnt > 3 ->
      fetch ar w = (let (r, w') := Stop (set_inactive 1 ar1) w1 in ((fst r, Return), w'))
      /\ inactive (fst (fst (fetch ar w))) = 1
      /\ snd (fst (fetch ar w)) = Return)
  /\ (cnt <= 3 ->
      fetch ar w = (let (a, w') := Sleep Second ar1 w1 in ((a, Continue), w'))
      /\ inactive (fst (fst (fetch ar w))) = inactive ar
      /\ snd (fst (fetch ar w)) = Continue
      /\ trace (snd (fetch ar w)) = (trace w ++ [EvSleep Second])%list).
Proof.
  intros cnt ar1 w1.
  pose proof (fetch_miss_eq ar w Hcache Hread) as Heq. cbv zeta in Heq.
  fold cnt in Heq. fold ar1 in Heq. fold w1 in Heq.
  rewrite Heq.
  destruct (cnt >? 3) eqn:Hc.
  - apply Z.gtb_lt in Hc.
    destruct (Stop_shape (set_inactive 1 ar1) w1) as (s & k & Hfst & _).
    destruct (Stop (set_inactive 1 ar1) w1) as [[ar' e] w']; simpl in *. subst ar'.
    split; [reflexivity|]. split; [|intros; lia].
    intros _. repeat split.
  - rewrite Z.gtb_ltb in Hc. apply Z.ltb_ge in Hc.
    unfold Sleep, bind, emit, yield, ret; simpl.
    split; [reflexivity|]. split; [intros; lia|].
    intros _. repeat split.
Qed.

Lemma fetch_empty_read_witness :
  readcache (Fixtures.follower "/logs/a.log" StatusRunning 0) = ""
  /\ readLine Fixtures.idle (nread Fixtures.idle) = ("", None)
  /\ emptyLineCnt (fst (fst (fetch (Fixtures.follower "/logs/a.log" StatusRunning 0)
                              Fixtures.idle)))
     = wrap_int (emptyLineCnt (Fixtures.follower "/logs/a.log" StatusRunning 0) + 1).
Proof.
  split; [reflexivity|]. split; [reflexivity|].
  pose proof (fetch_empty_read (Fixtures.follower "/logs/a.log" StatusRunning 0)
                Fixtures.idle eq_refl eq_refl) as H.
  cbv zeta in H. exact (proj1 H).
Defined.

#[local] Arguments runLoop : simpl never.

(** From a reset counter, alone with a silent file: the task returns at the
    fourth empty read, whatever fuel above four it is given; by then it has
    slept once after each of the first three reads and three more times in
    its own [Stop], whose wait nobody ends: the status stays Stopping. *)
Lemma runLoop_four_misses (ar : t) (w : World) (fuel : nat) :
  status ar = StatusRunning ->
  readcache ar = "" ->
  emptyLineCnt ar = 0 ->
  (forall n s, peer w n s = s) ->
  (forall i, (i < 4)%nat -> readLine w (i + nread w)%nat = ("", None)) ->
  (4 <= fuel)%nat ->
  fst (runLoop fuel ar w)
  = (set_status StatusStopping (set_inactive 1 (set_emptyLineCnt 4 ar)), Returned)
  /\ nread (snd (runLoop fuel ar w)) = (4 + nread w)%nat
  /\ trace (snd (runLoop fuel ar w)) = (trace w ++ repeat (EvSleep Second) 6)%list.
Proof.
  intros Hst Hrc Hcnt Hpeer Hread Hfuel.
  do 4 (destruct fuel as [|fuel]; [lia|]). clear Hfuel.
  pose proof (Hread 0%nat ltac:(lia)) as H0.
  pose proof (Hread 1%nat ltac:(lia)) as H1.
  pose proof (Hread 2%nat ltac:(lia)) as H2.
  pose proof (Hread 3%nat ltac:(lia)) as H3.
  simpl in H0, H1, H2, H3.
  destruct ar as [b rp op rc st ina rn cnt sts]; simpl in Hst, Hrc, Hcnt; subst.
  rewrite runLoop_S; simpl isDown; cbv iota.
  rewrite fetch_miss_eq by (simpl; first [reflexivity | assumption]). simpl emptyLineCnt.
  change (wrap_int (0 + 1)) with 1. cbv zeta.
  unfold Sleep, bind, emit, yield, ret, nextLine; simpl. rewrite Hpeer.
  rewrite runLoop_S; simpl isDown; cbv iota.
  rewrite fetch_miss_eq by (simpl; first [reflexivity | assumption]). simpl emptyLineCnt.
  change (wrap_int (1 + 1)) with 2. cbv zeta.
  unfold Sleep, bind, emit, yield, ret, nextLine; simpl. rewrite Hpeer.
  rewrite runLoop_S; simpl isDown; cbv iota.
  rewrite fetch_miss_eq by (simpl; first [reflexivity | assumption]). simpl emptyLineCnt.
  change (wrap_int (2 + 1)) with 3. cbv zeta.
  unfold Sleep, bind, emit, yield, ret, nextLine; simpl. rewrite Hpeer.
  rewrite runLoop_S; simpl isDown; cbv iota.
  rewrite fetch_miss_eq by (simpl; first [reflexivity | assumption]). simpl emptyLineCnt.
  change (wrap_int (3 + 1)) with 4. cbv zeta.
  unfold nextLine; simpl snd.
  match goal with
  | |- context [Stop ?a ?v] =>
      destruct (Stop_alone a v) as (Hfst & Htr & Hnr);
        [right; reflexivity | exact Hpeer |];
        destruct (Stop a v) as [r w']
  end.
  simpl in Hfst, Htr, Hnr |- *. subst r. simpl.
  rewrite Htr, Hnr, <- !app_assoc. repeat split.
Qed.

End ReadingLoop.

(** ** The engine's [ReadLine] (C7) *)

(** C7: of the three cases of the select, a message sets currentFile to the
    message's path and is answered by (line, nil); an error is answered by
    ("", err) and a time-out by ("", nil), both leaving the engine, and so
    currentFile, as it was. *)
Theorem ReadLine_cases (r : Reader.t) :
  (forall msg : Result,
     Reader.ReadLine r (RecvMsg msg)
     = (Reader.set_currentFile (logpath msg) r, (result_ msg, None))
     /\ Reader.currentFile (fst (Reader.ReadLine r (RecvMsg msg))) = logpath msg)
  /\ (forall err : option error,
        Reader.ReadLine r (RecvErr err) = (r, ("", err)))
  /\ Reader.ReadLine r TimerFired = (r, ("", None)).
Proof. repeat split. Qed.

(** ** Discovery and the cap on open files (C1) *)

Section Discovery.

Import Reader.
Local Open Scope Z_scope.

(** At the cap, [statLogPath] does nothing. *)
Lemma statLogPath_at_cap (env : Env) (r : t) (w : World) :
  maxOpenFiles r <= Z.of_nat (size (fileReaders r)) ->
  statLogPath env r w = (r, w).
Proof.
  intros H. unfold statLogPath.
  destruct (Z.of_nat (size (fileReaders r)) >=? maxOpenFiles r) eqn:E; [reflexivity|].
  rewrite Z.geb_leb in E. apply Z.leb_gt in E. lia.
Qed.

(** The expiry sweep only removes followers. *)
Lemma expireEach_subseteq (env : Env) (l : list (string * ActiveReader.t)) :
  forall (r : t) (paths : list string) (w : World),
    fileReaders (fst (fst (expireEach env l r paths w))) ⊆ fileReaders r.
Proof.
  induction l as [|[path ar] l IH]; intros r paths w; simpl.
  - reflexivity.
  - destruct (ActiveReader.expired env ar (expire r)).
    + unfold bind at 1. destruct (ActiveReader.Close ar w) as [x w1].
      unfold bind at 1. destruct (emit (EvRemoveSubMeta path) w1) as [u w2].
      etrans; [apply IH|]. simpl. apply delete_subseteq.
    + apply IH.
Qed.

Lemma checkExpiredFiles_size (env : Env) (r : t) (w : World) :
  (size (fileReaders (fst (checkExpiredFiles env r w))) <= size (fileReaders r))%nat.
Proof.
  unfold checkExpiredFiles, bind, ret.
  pose proof (expireEach_subseteq env (map_to_list (fileReaders r)) r [] w) as H.
  destruct (expireEach env (map_to_list (fileReaders r)) r [] w) as [[r' ps] w'].
  simpl in *. apply map_subseteq_size. exact H.
Qed.

(** A pass that gets as far as the scan of the matches ends with
    notFirstTime set. *)
Lemma statLogPath_notFirstTime (env : Env) (r : t) (w : World) (matches : list string) :
  Z.of_nat (size (fileReaders r)) < maxOpenFiles r ->
  Glob env (logPathPattern r) = Ok matches ->
  ignoreLogPathPattern r = "" ->
  notFirstTime (fst (statLogPath env r w)) = true.
Proof.
  intros Hcap Hglob Hign. unfold statLogPath.
  destruct (Z.of_nat (size (fileReaders r)) >=? maxOpenFiles r) eqn:E.
  { apply Z.geb_le in E. lia. }
  rewrite Hglob, Hign. simpl. unfold bind.
  destruct (statMatches env ∅ (Now env) matches (r, []) w) as [[r' n] w'].
  unfold ret; simpl. destruct (notFirstTime r') eqn:Hn; simpl; [exact Hn|reflexivity].
Qed.

(** C1, on the code: the engine follows one file and its cap is two.  The
    pattern matches two more files, both fresh.  The cap is looked at once,
    at the start of the pass, so both are registered: the tick (expiry
    sweep, then [statLogPath]) ends with three followers. *)
Theorem discoveryTick_exceeds_maxOpenFiles :
  let env := Fixtures.fsEnv ["/logs/b.log"; "/logs/c.log"]
               (1000 * Fixtures.hour) (1000 * Fixtures.hour + Second) in
  let r' := fst (discoveryTicks [env] Fixtures.engine Fixtures.idle) in
  Z.of_nat (size (fileReaders Fixtures.engine)) = maxOpenFiles Fixtures.engine - 1
  /\ maxOpenFiles r' = 2
  /\ size (fileReaders r') = 3%nat
  /\ is_Some (fileReaders r' !! "/logs/b.log")
  /\ is_Some (fileReaders r' !! "/logs/c.log")
  /\ ~ (Z.of_nat (size (fileReaders r')) <= maxOpenFiles r').
Proof.
  vm_compute. repeat split; try (eexists; reflexivity). intros H; apply H; reflexivity.
Qed.

End Discovery.

(** ** The configuration check of [NewReader] (C8) *)

Section Configuration.

Local Open Scope Z_scope.

(** C8: with a log path and three durations that parse, [NewReader] fails
    exactly when submeta_expire is nonzero and less than expire, with the
    error naming the two keys; it succeeds exactly when submeta_expire is 0
    or at least expire. *)
Theorem NewReader_submetaExpire (lib : ConfLib) (meta : Meta)
    (conf : gmap string string) (logPath : string) (e s i : Duration)
    (Hpath : GetString lib conf (KeyLogPath lib) = Ok logPath)
    (He : ParseDuration lib (GetStringOr lib conf (KeyExpire lib) "24h") = Ok e)
    (Hs : ParseDuration lib (GetStringOr lib conf (KeySubmetaExpire lib) "720h") = Ok s)
    (Hi : ParseDuration lib (GetStringOr lib conf (KeyStatInterval lib) "3m") = Ok i) :
  ((exists err, NewReader lib meta conf = Err err) <-> (s <> 0 /\ s < e))
  /\ (s <> 0 /\ s < e -> NewReader lib meta conf = Err (submetaExpireError lib))
  /\ ((exists r, NewReader lib meta conf = Ok r
                 /\ Reader.expire r = e /\ Reader.submetaExpire r = s)
      <-> (s = 0 \/ s >= e)).
Proof.
  unfold NewReader. rewrite Hpath, He, Hs, Hi.
  unfold IsSubmetaExpireValid, Nanoseconds.
  destruct (s =? 0) eqn:E0; destruct (s <? e) eqn:E1; simpl;
    [apply Z.eqb_eq in E0 | apply Z.eqb_eq in E0
     | apply Z.eqb_neq in E0 | apply Z.eqb_neq in E0];
    [apply Z.ltb_lt in E1 | apply Z.ltb_ge in E1
     | apply Z.ltb_lt in E1 | apply Z.ltb_ge in E1].
  - split; [|split].
    + split; [intros [err H]; discriminate | intros [H _]; contradiction].
    + intros [H _]; contradiction.
    + split; [intros _; left; assumption | intros _; eexists; repeat split].
  - split; [|split].
    + split; [intros [err H]; discriminate | intros [H _]; contradiction].
    + intros [H _]; contradiction.
    + split; [intros _; left; assumption | intros _; eexists; repeat split].
  - split; [|split].
    + split; [intros _; split; assumption | intros _; eexists; reflexivity].
    + intros _; reflexivity.
    + split; [intros (r & H & _); discriminate | intros [H | H]; lia].
  - split; [|split].
    + split; [intros [err H]; discriminate | intros [_ H]; lia].
    + intros [_ H]; lia.
    + split; [intros _; right; lia | intros _; eexists; repeat split].
Qed.

Lemma NewReader_submetaExpire_witness :
  GetString Fixtures.lib0 {[ "log_path" := "/logs/*.log"; "expire" := "24h";
                             "submeta_expire" := "1h" ]}
    (KeyLogPath Fixtures.lib0) = Ok "/logs/*.log"
  /\ NewReader Fixtures.lib0 Fixtures.meta0
       {[ "log_path" := "/logs/*.log"; "expire" := "24h"; "submeta_expire" := "1h" ]}
     = Err (submetaExpireError Fixtures.lib0).
Proof.
  split; [reflexivity|].
  apply (NewReader_submetaExpire Fixtures.lib0 Fixtures.meta0
           {[ "log_path" := "/logs/*.log"; "expire" := "24h"; "submeta_expire" := "1h" ]}
           "/logs/*.log" (24 * Fixtures.hour) Fixtures.hour (180 * Second)).
  - reflexivity.
  - reflexivity.
  - reflexivity.
  - reflexivity.
  - split; [discriminate|reflexivity].
Defined.

End Configuration.

(** ** More on the follower: restart, delivery, read errors *)

Section FollowerLifecycle.

Import ActiveReader.
Local Open Scope Z_scope.

Lemma sentMsgs_app (tr tr' : list event) :
  sentMsgs (tr ++ tr') = (sentMsgs tr ++ sentMsgs tr')%list.
Proof. unfold sentMsgs. apply omap_app. Qed.

Lemma sentErrs_app (tr tr' : list event) :
  sentErrs (tr ++ tr') = (sentErrs tr ++ sentErrs tr')%list.
Proof. unfold sentErrs. apply omap_app. Qed.

Lemma sentErrs_sleeps (d : Duration) (k : nat) : sentErrs (repeat (EvSleep d) k) = [].
Proof. induction k as [|k IH]; [reflexivity|exact IH]. Qed.

Lemma sentMsgs_sleeps (d : Duration) (k : nat) : sentMsgs (repeat (EvSleep d) k) = [].
Proof. induction k as [|k IH]; [reflexivity|exact IH]. Qed.

Lemma Start_restarts_shape (ar : t) (w : World) :
  (status ar = StatusRunning -> Start ar w = (ar, w))
  /\ (status ar <> StatusRunning ->
      exists k : nat,
        fst (Start ar w) = set_status StatusInit ar
        /\ trace (snd (Start ar w))
           = (trace w ++ repeat (EvSleep (10 * Millisecond)) k
                ++ [EvGoRun (originpath ar)])%list
        /\ (k <= 300)%nat
        /\ (status ar <> StatusStopping -> k = 0%nat)
        /\ slept (trace (snd (Start ar w))) <= slept (trace w) + 3 * Second).
Proof.
  split.
  - intros Hr. unfold Start. destruct (decide (status ar = StatusRunning)); [reflexivity|contradiction].
  - intros Hr. unfold Start.
    destruct (decide (status ar = StatusRunning)) as [|_]; [contradiction|].
    destruct (decide (status ar = StatusStopping)) as [Hs|Hs].
    + destruct (waitStopped_shape 300 (10 * Millisecond) 301 0 ar w)
        as (s & k & Hfst & Htr & Hk & _).
      unfold bind, ret, emit.
      destruct (waitStopped 300 (10 * Millisecond) 301 0 ar w) as [ar' w'].
      simpl in Hfst, Htr. subst ar'. simpl.
      exists k. unfold CompareAndSwap.
      split; [destruct (decide _); reflexivity|].
      split; [destruct (decide _); simpl; rewrite Htr, <- app_assoc; reflexivity|].
      split; [lia|]. split; [intros; contradiction|].
      destruct (decide _); simpl; rewrite Htr, !slept_app, slept_repeat; simpl;
        unfold Second, Millisecond; lia.
    + unfold bind, ret, emit; simpl. exists 0%nat.
      repeat split; try lia. rewrite slept_app; simpl. unfold Second; lia.
Qed.

(** X1. [Start] leaves a Running follower alone; any other follower comes
    back in the Init state with one reading task launched, every other
    field as it was, after at most 300 sleeps of 10ms, and none unless it
    was Stopping. *)
Theorem Start_restarts (ar : t) (w : World) :
  (status ar = StatusRunning -> Start ar w = (ar, w))
  /\ (status ar <> StatusRunning ->
      exists k : nat,
        fst (Start ar w) = set_status StatusInit ar
        /\ trace (snd (Start ar w))
           = (trace w ++ repeat (EvSleep (10 * Millisecond)) k
                ++ [EvGoRun (originpath ar)])%list
        /\ (k <= 300)%nat
        /\ (status ar <> StatusStopping -> k = 0%nat)
        /\ slept (trace (snd (Start ar w))) <= slept (trace w) + 3 * Second).
Proof. exact (Start_restarts_shape ar w). Qed.

Lemma deliver_S (fuel : nat) (repeat_ : Z) (ar : t) (w : World) :
  deliver (S fuel) repeat_ ar w
  = if decide (readcache ar = "") then ((ar, Continue), w)
    else
      let ar0 := set_emptyLineCnt 0 (set_inactive 0 ar) in
      if isDown ar0
      then ((fst (CompareAndSwap StatusStopping StatusStopped ar0), Return), w)
      else
        let w1 := snd (yield (status ar0) (snd (nextSelect w))) in
        let ar1 := set_status (peer w (npeer w) (status ar0)) ar0 in
        if selectSent w (nselect w)
        then deliver fuel (wrap_int (repeat_ + 1)) (set_readcache "" ar1)
               (snd (emit (EvSendMsg {| result_ := readcache ar1;
                                        logpath := originpath ar1 |}) w1))
        else deliver fuel (wrap_int (repeat_ + 1)) ar1 (snd (emit EvTick w1)).
Proof.
  simpl. destruct (decide _); [reflexivity|].
  destruct (isDown _); [reflexivity|].
  unfold bind, nextSelect, yield, emit; simpl.
  destruct (selectSent w (nselect w)); reflexivity.
Qed.

(** X2. The deliver phase neither loses nor repeats the pending line:
    when it ends, either the line is still in readcache and nothing was
    sent, or readcache is empty and the line was sent once, under the
    follower's origin path.  It breaks out only with an empty readcache and
    returns only with the status Stopped. *)
Theorem deliver_sends_once (fuel : nat) :
  forall (repeat_ : Z) (ar : t) (w : World),
    let ar' := fst (fst (deliver fuel repeat_ ar w)) in
    let c := snd (fst (deliver fuel repeat_ ar w)) in
    let w' := snd (deliver fuel repeat_ ar w) in
    originpath ar' = originpath ar
    /\ ((readcache ar' = readcache ar /\ sentMsgs (trace w') = sentMsgs (trace w))
        \/ (readcache ar <> "" /\ readcache ar' = ""
            /\ sentMsgs (trace w')
               = (sentMsgs (trace w)
                    ++ [{| result_ := readcache ar; logpath := originpath ar |}])%list))
    /\ (c = Continue -> readcache ar' = "")
    /\ (c = Return -> status ar' = StatusStopped)
    /\ c <> Proceed.
Proof.
  induction fuel as [|fuel IH]; intros repeat_ ar w; cbv zeta.
  - simpl. split; [reflexivity|]. split; [left; split; reflexivity|].
    repeat split; discriminate.
  - rewrite deliver_S.
    destruct (decide (readcache ar = "")) as [He|He].
    + simpl. split; [reflexivity|]. split; [left; split; reflexivity|].
      split; [intros _; exact He|]. split; discriminate.
    + cbv zeta.
      destruct (isDown (set_emptyLineCnt 0 (set_inactive 0 ar))) eqn:Hd.
      * unfold CompareAndSwap; simpl. unfold isDown in Hd; simpl in Hd.
        destruct (decide (status ar = StatusStopping)) as [Hs|Hs]; simpl;
          (split; [reflexivity|]); (split; [left; split; reflexivity|]);
          (split; [discriminate|]); (split; [|discriminate]); intros _;
          [reflexivity|].
        destruct (status ar); simpl in Hd; congruence.
      * destruct (selectSent w (nselect w)).
        -- match goal with
           | |- context [deliver fuel ?rp ?a ?v] =>
               specialize (IH rp a v); cbv zeta in IH;
                 destruct (deliver fuel rp a v) as [[ar' c] w']
           end.
           simpl in IH |- *.
           destruct IH as (Ho & Hcase & Hc & Hr & Hp).
           split; [exact Ho|]. split; [|repeat split; assumption].
           right. split; [exact He|].
           destruct Hcase as [[Hrc Hm]|[Habs _]]; [|congruence].
           split; [exact Hrc|]. rewrite Hm, sentMsgs_app. reflexivity.
        -- match goal with
           | |- context [deliver fuel ?rp ?a ?v] =>
               specialize (IH rp a v); cbv zeta in IH;
                 destruct (deliver fuel rp a v) as [[ar' c] w']
           end.
           simpl in IH |- *.
           destruct IH as (Ho & Hcase & Hc & Hr & Hp).
           split; [exact Ho|]. split; [|repeat split; assumption].
           destruct Hcase as [[Hrc Hm]|(Hne & Hrc & Hm)].
           ++ left. split; [exact Hrc|]. rewrite Hm, sentMsgs_app, app_nil_r. reflexivity.
           ++ right. split; [exact He|]. split; [exact Hrc|].
              rewrite Hm, sentMsgs_app, app_nil_r. reflexivity.
Qed.

#[local] Arguments runLoop : simpl never.
#[local] Arguments deliver : simpl never.

(** The fetch phase by cases on what [ReadLine] answered. *)
Lemma fetch_eq (ar : t) (w : World) (line : string) (err : option error) :
  readcache ar = "" ->
  readLine w (nread w) = (line, err) ->
  fetch ar w
  = let w1 := snd (nextLine w) in
    let ar1 := set_readcache line ar in
    if isReadError err then
      let ar2 := setStatsError (from_option Error "" err) ar1 in
      let (r, w3) := Stop ar2 (snd (sendError ar2 err w1)) in ((fst r, Return), w3)
    else if decide (line = "") then
      let ar2 := set_emptyLineCnt (wrap_int (emptyLineCnt ar + 1)) ar1 in
      if bool_decide (err = Some EOF) then
        let (r, w3) := Stop (set_inactive 1 ar2) w1 in ((fst r, Return), w3)
      else if wrap_int (emptyLineCnt ar + 1) >? 3 then
        let (r, w3) := Stop (set_inactive 1 ar2) w1 in ((fst r, Return), w3)
      else let (a, w3) := Sleep Second ar2 w1 in ((a, Continue), w3)
    else ((ar1, Proceed), w1).
Proof.
  intros Hcache Hread.
  destruct ar as [b rp op rc st ina rn c sts]; simpl in Hcache; subst rc.
  unfold fetch, bind, nextLine; simpl. rewrite Hread; simpl.
  destruct (isReadError err).
  - destruct (sendError _ err _) as [u w2]. reflexivity.
  - destruct (decide (line = "")); [|reflexivity].
    destruct (bool_decide (err = Some EOF)); [reflexivity|].
    destruct (wrap_int (c + 1) >? 3); reflexivity.
Qed.

(** X3. A read error other than EOF and closed-file ends the reading task:
    the error text is recorded in the follower's LastError and the line
    that came with the error is kept in readcache; [sendError] is called on
    the follower so updated, then [Stop], and the task returns with the
    follower and the world as [Stop] leaves them.  The error is sent once
    on the error channel when [sendError] finds the follower neither
    Stopping nor Stopped and the channel is open, and not at all otherwise.
    Nothing is delivered; inactive and emptyLineCnt are untouched; [Stop]
    adds at most three sleeps of 1s. *)
Theorem fetch_read_error (ar : t) (w : World) (line : string) (e : error)
    (Hcache : readcache ar = "")
    (Hread : readLine w (nread w) = (line, Some e))
    (Heof : e <> EOF) (Hclosed : e <> ErrClosed) :
  let ar2 := setStatsError (Error e) (set_readcache line ar) in
  let w2 := snd (sendError ar2 (Some e) (snd (nextLine w))) in
  let ar' := fst (fst (fetch ar w)) in
  let w' := snd (fetch ar w) in
  fetch ar w = ((fst (fst (Stop ar2 w2)), Return), snd (Stop ar2 w2))
  /\ sentErrs (trace w')
     = (sentErrs (trace w)
          ++ if isStopping ar2 || hasStopped ar2 || errChanClosed w
             then [] else [e])%list
  /\ sentMsgs (trace w') = sentMsgs (trace w)
  /\ LastError (stats ar') = Error e
  /\ readcache ar' = line
  /\ inactive ar' = inactive ar
  /\ emptyLineCnt ar' = emptyLineCnt ar
  /\ slept (trace w') <= slept (trace w) + 3 * Second.
Proof.
  cbv zeta. rewrite (fetch_eq ar w line (Some e) Hcache Hread). cbv zeta.
  assert (isReadError (Some e) = true) as ->.
  { simpl. rewrite !bool_decide_eq_false_2 by assumption. reflexivity. }
  change (from_option Error "" (Some e)) with (Error e).
  set (ar2 := setStatsError (Error e) (set_readcache line ar)).
  set (w2 := snd (sendError ar2 (Some e) (snd (nextLine w)))).
  assert (trace w2
          = (trace w ++ if isStopping ar2 || hasStopped ar2 then []
                        else if errChanClosed w then [EvRecovered]
                             else [EvSendErr e])%list) as Htr2.
  { unfold w2, sendError.
    destruct (isStopping ar2 || hasStopped ar2); simpl.
    - rewrite app_nil_r. reflexivity.
    - unfold sendOnErrChan, bind, get, emit; simpl.
      destruct (errChanClosed w); reflexivity. }
  destruct (Stop_shape ar2 w2) as (s & k & Hfst & Htr & Hk & _).
  destruct (Stop ar2 w2) as [[ar3 e3] w3]. simpl in Hfst, Htr |- *. subst ar3.
  rewrite Htr, Htr2. unfold ar2; simpl.
  rewrite !sentErrs_app, !sentMsgs_app, sentErrs_sleeps, sentMsgs_sleeps,
    !slept_app, slept_repeat, !app_nil_r.
  split; [reflexivity|].
  destruct (isStopping _ || hasStopped _); simpl;
    [|destruct (errChanClosed w); simpl];
    rewrite ?app_nil_r; repeat split; unfold Second; lia.
Qed.

Lemma fetch_read_error_witness :
  readLine MoreFixtures.failing (nread MoreFixtures.failing)
  = ("par", Some (Errorf "input/output error"))
  /\ status (fst (fst (fetch (Fixtures.follower "/logs/a.log" StatusRunning 0)
                         MoreFixtures.failing)))
     = StatusStopping
  /\ sentErrs (trace (snd (fetch (Fixtures.follower "/logs/a.log" StatusRunning 0)
                             MoreFixtures.failing)))
     = [Errorf "input/output error"]
  /\ slept (trace (snd (fetch (Fixtures.follower "/logs/a.log" StatusRunning 0)
                          MoreFixtures.failing)))
     = 3 * Second.
Proof.
  split; [reflexivity|].
  pose proof (fetch_read_error (Fixtures.follower "/logs/a.log" StatusRunning 0)
                MoreFixtures.failing "par" (Errorf "input/output error")
                eq_refl eq_refl) as H.
  cbv zeta in H. destruct H as (Heq & _).
  - discriminate.
  - discriminate.
  - rewrite Heq. split; [reflexivity|]. split; reflexivity.
Defined.

(** X4. An empty line together with EOF ends the reading task at once:
    emptyLineCnt is incremented, inactive is set to 1, [Stop] is called and
    the task returns without the 1s retry of the other empty reads; nothing
    is sent on either channel. *)
Theorem fetch_eof (ar : t) (w : World)
    (Hcache : readcache ar = "")
    (Hread : readLine w (nread w) = ("", Some EOF)) :
  let ar' := fst (fst (fetch ar w)) in
  let w' := snd (fetch ar w) in
  snd (fst (fetch ar w)) = Return
  /\ inactive ar' = 1
  /\ emptyLineCnt ar' = wrap_int (emptyLineCnt ar + 1)
  /\ readcache ar' = ""
  /\ sentErrs (trace w') = sentErrs (trace w)
  /\ sentMsgs (trace w') = sentMsgs (trace w)
  /\ fst (fetch ar w)
     = (fst (fst (Stop (set_inactive 1
                         (set_emptyLineCnt (wrap_int (emptyLineCnt ar + 1)) ar))
                    (snd (nextLine w)))), Return).
Proof.
  cbv zeta. rewrite (fetch_eq ar w "" (Some EOF) Hcache Hread). cbv zeta.
  simpl isReadError. cbv iota.
  destruct (decide ("" = "")) as [_|Hn]; [|contradiction].
  simpl bool_decide. cbv iota.
  destruct ar as [b rp op rc st ina rn c sts]; simpl in Hcache; subst rc.
  unfold set_readcache, set_inactive, set_emptyLineCnt; simpl.
  match goal with
  | |- context [Stop ?a ?v] =>
      destruct (Stop_shape a v) as (s & k & Hfst & Htr & Hk & _);
        destruct (Stop a v) as [[ar3 e3] w3]
  end.
  simpl in Hfst, Htr |- *. subst ar3.
  rewrite Htr. simpl.
  rewrite !sentErrs_app, !sentMsgs_app, sentErrs_sleeps, sentMsgs_sleeps, !app_nil_r.
  repeat split.
Qed.

Lemma fetch_eof_witness :
  readcache (Fixtures.follower "/logs/a.log" StatusRunning 0) = ""
  /\ readLine MoreFixtures.atEOF (nread MoreFixtures.atEOF) = ("", Some EOF)
  /\ inactive (fst (fst (fetch (Fixtures.follower "/logs/a.log" StatusRunning 0)
                           MoreFixtures.atEOF))) = 1.
Proof.
  split; [reflexivity|]. split; [reflexivity|].
  pose proof (fetch_eof (Fixtures.follower "/logs/a.log" StatusRunning 0)
                MoreFixtures.atEOF eq_refl eq_refl) as H.
  cbv zeta in H. apply H.
Defined.

Lemma wrap_int_small (z : Z) : - 2 ^ 63 <= z < 2 ^ 63 -> wrap_int z = z.
Proof.
  intros H. with_strategy transparent [wrap_int] unfold wrap_int.
  rewrite Z.mod_small by lia. lia.
Qed.

(** The polling loop and [Stop] leave the line buffer's oracle alone. *)
Lemma waitStopped_reads (limit : Z) (d : Duration) (fuel : nat) :
  forall (cnt : Z) (ar : t) (w : World),
    nread (snd (waitStopped limit d fuel cnt ar w)) = nread w
    /\ readLine (snd (waitStopped limit d fuel cnt ar w)) = readLine w.
Proof.
  induction fuel as [|fuel IH]; intros cnt ar w.
  - split; reflexivity.
  - rewrite waitStopped_S.
    destruct (decide _); [split; reflexivity|].
    destruct (cnt + 1 >? limit); [split; reflexivity|].
    unfold Sleep, bind, emit, yield, ret; simpl.
    match goal with
    | |- context [waitStopped limit d fuel ?c ?a ?v] =>
        destruct (IH c a v) as [H1 H2]; rewrite H1, H2
    end.
    split; reflexivity.
Qed.

Lemma Stop_reads (ar : t) (w : World) :
  nread (snd (Stop ar w)) = nread w /\ readLine (snd (Stop ar w)) = readLine w.
Proof.
  rewrite Stop_eq.
  pose proof (waitStopped_reads 3 Second 4 0 (set_status StatusStopping ar) w) as H.
  destruct (status ar); try (split; reflexivity);
    destruct (waitStopped 3 Second 4 0 (set_status StatusStopping ar) w); exact H.
Qed.

(** X5. [Stop] and [Start] leave emptyLineCnt as it is.  So a follower
    that is restarted by [Start] with a counter of 3 or more and an empty
    readcache is stopped again by its first read, if that read is empty
    (nil error): the task makes that one read, raises the counter, sets
    inactive to 1, calls [Stop] and returns, the follower being as [Stop]
    leaves it, without the 1s sleep of the other empty reads. *)
Theorem restarted_follower_stops_at_first_miss (ar : t) (w : World) (fuel : nat)
    (Hst : status ar <> StatusRunning)
    (Hcache : readcache ar = "")
    (Hcnt : 3 <= emptyLineCnt ar < 2 ^ 63 - 1)
    (Hread : readLine (snd (Start ar w)) (nread (snd (Start ar w))) = ("", None)) :
  let ar1 := fst (Start ar w) in
  let w1 := snd (Start ar w) in
  let stopped :=
    Stop (set_inactive 1
            (set_emptyLineCnt (emptyLineCnt ar + 1) (set_status StatusRunning ar)))
      (snd (nextLine w1)) in
  emptyLineCnt ar1 = emptyLineCnt ar
  /\ status ar1 = StatusInit
  /\ Run (S fuel) ar1 w1 = ((fst (fst stopped), Returned), snd stopped)
  /\ inactive (fst (fst (Run (S fuel) ar1 w1))) = 1
  /\ emptyLineCnt (fst (fst (Run (S fuel) ar1 w1))) = emptyLineCnt ar + 1
  /\ nread (snd (Run (S fuel) ar1 w1)) = S (nread w1).
Proof.
  cbv zeta.
  destruct (proj2 (Start_restarts_shape ar w) Hst) as (k & Hfst & _).
  rewrite Hfst. set (w1 := snd (Start ar w)) in *.
  split; [reflexivity|]. split; [reflexivity|].
  assert (Run (S fuel) (set_status StatusInit ar) w1
          = let (r, w') :=
              Stop (set_inactive 1
                      (set_emptyLineCnt (emptyLineCnt ar + 1)
                         (set_status StatusRunning ar)))
                (snd (nextLine w1)) in
            ((fst r, Returned), w')) as Hrun.
  { unfold Run, CompareAndSwap; simpl.
    rewrite runLoop_S. simpl isDown. cbv iota.
    rewrite fetch_miss_eq by (simpl; assumption). simpl emptyLineCnt. cbv zeta.
    rewrite (wrap_int_small (emptyLineCnt ar + 1)) by lia.
    assert ((emptyLineCnt ar + 1 >? 3) = true) as -> by (apply Z.gtb_lt; lia).
    change (set_status StatusRunning (set_status StatusInit ar))
      with (set_status StatusRunning ar).
    destruct (Stop _ _) as [[ar3 e3] w3]. reflexivity. }
  rewrite Hrun.
  match goal with
  | |- context [Stop ?a ?v] =>
      destruct (Stop_shape a v) as (s & k' & Hs & _);
        destruct (Stop_reads a v) as [Hn _];
        destruct (Stop a v) as [[ar3 e3] w3]
  end.
  simpl in Hs, Hn |- *. subst ar3. rewrite Hn. repeat split.
Qed.

Lemma restarted_follower_stops_at_first_miss_witness :
  status (set_emptyLineCnt 3 (Fixtures.follower "/logs/a.log" StatusStopping 0))
  <> StatusRunning
  /\ inactive (set_emptyLineCnt 3 (Fixtures.follower "/logs/a.log" StatusStopping 0)) = 0
  /\ inactive (fst (fst (Run 1
                 (fst (Start (set_emptyLineCnt 3
                                (Fixtures.follower "/logs/a.log" StatusStopping 0))
                         Fixtures.idle))
                 (snd (Start (set_emptyLineCnt 3
                                (Fixtures.follower "/logs/a.log" StatusStopping 0))
                         Fixtures.idle))))) = 1
  /\ snd (fst (Run 1
                 (fst (Start (set_emptyLineCnt 3
                                (Fixtures.follower "/logs/a.log" StatusStopping 0))
                         Fixtures.idle))
                 (snd (Start (set_emptyLineCnt 3
                                (Fixtures.follower "/logs/a.log" StatusStopping 0))
                         Fixtures.idle)))) = Returned.
Proof.
  split; [discriminate|]. split; [reflexivity|].
  pose proof (restarted_follower_stops_at_first_miss
                (set_emptyLineCnt 3 (Fixtures.follower "/logs/a.log" StatusStopping 0))
                Fixtures.idle 0) as H.
  cbv zeta in H. destruct H as (_ & _ & Hrun & Hin & _).
  - discriminate.
  - reflexivity.
  - simpl. lia.
  - reflexivity.
  - split; [exact Hin|]. rewrite Hrun. reflexivity.
Defined.

Lemma isDown_running (ar : t) : status ar = StatusRunning -> isDown ar = false.
Proof. intros H. unfold isDown. rewrite H. reflexivity. Qed.

Lemma fetch_pending (ar : t) (w : World) :
  readcache ar <> "" -> fetch ar w = ((ar, Proceed), w).
Proof.
  intros H. unfold fetch. destruct (decide (readcache ar = "")); [contradiction|reflexivity].
Qed.

(** The deliver phase of a running follower whose consumer is ready. *)
Lemma deliver_ready (fuel : nat) (repeat_ : Z) (ar : t) (w : World) :
  status ar = StatusRunning ->
  readcache ar <> "" ->
  peer w (npeer w) StatusRunning = StatusRunning ->
  selectSent w (nselect w) = true ->
  deliver (S (S fuel)) repeat_ ar w
  = ((set_readcache "" (set_emptyLineCnt 0 (set_inactive 0 ar)), Continue),
     {| trace := trace w ++ [EvSendMsg {| result_ := readcache ar;
                                         logpath := originpath ar |}];
        peer := peer w; npeer := S (npeer w);
        readLine := readLine w; nread := nread w;
        selectSent := selectSent w; nselect := S (nselect w);
        errChanClosed := errChanClosed w; brCloseErr := brCloseErr w |}).
Proof.
  intros Hst Hrc Hpeer Hsel.
  rewrite deliver_S.
  destruct (decide (readcache ar = "")) as [|_]; [contradiction|].
  cbv zeta. rewrite isDown_running by exact Hst.
  change (status (set_emptyLineCnt 0 (set_inactive 0 ar))) with (status ar).
  rewrite Hst, Hsel, Hpeer.
  rewrite deliver_S.
  destruct ar as [b rp op rc st ina rn c sts]; simpl in Hst; subst st.
  reflexivity.
Qed.

(** One turn of the loop that reads a line and hands it over at once. *)
Lemma runLoop_line (fuel : nat) (ar : t) (w : World) (l : string) :
  status ar = StatusRunning ->
  readcache ar = "" ->
  readLine w (nread w) = (l, None) ->
  l <> "" ->
  peer w (npeer w) StatusRunning = StatusRunning ->
  selectSent w (nselect w) = true ->
  runLoop (S (S (S fuel))) ar w
  = runLoop (S (S fuel)) (set_emptyLineCnt 0 (set_inactive 0 ar))
      {| trace := trace w ++ [EvSendMsg {| result_ := l; logpath := originpath ar |}];
         peer := peer w; npeer := S (npeer w);
         readLine := readLine w; nread := S (nread w);
         selectSent := selectSent w; nselect := S (nselect w);
         errChanClosed := errChanClosed w; brCloseErr := brCloseErr w |}.
Proof.
  intros Hst Hrc Hread Hl Hpeer Hsel.
  rewrite runLoop_S, (isDown_running ar Hst).
  rewrite (fetch_eq ar w l None Hrc Hread). simpl isReadError. cbv iota zeta.
  destruct (decide (l = "")) as [|_]; [contradiction|].
  rewrite deliver_ready; try assumption.
  destruct ar as [b rp op rc st ina rn c sts]; simpl in Hst, Hrc; subst.
  reflexivity.
Qed.

(** One turn of the loop that starts with a pending line: no read. *)
Lemma runLoop_pending (fuel : nat) (ar : t) (w : World) :
  status ar = StatusRunning ->
  readcache ar <> "" ->
  peer w (npeer w) StatusRunning = StatusRunning ->
  selectSent w (nselect w) = true ->
  runLoop (S (S (S fuel))) ar w
  = runLoop (S (S fuel)) (set_readcache "" (set_emptyLineCnt 0 (set_inactive 0 ar)))
      {| trace := trace w ++ [EvSendMsg {| result_ := readcache ar;
                                          logpath := originpath ar |}];
         peer := peer w; npeer := S (npeer w);
         readLine := readLine w; nread := nread w;
         selectSent := selectSent w; nselect := S (nselect w);
         errChanClosed := errChanClosed w; brCloseErr := brCloseErr w |}.
Proof.
  intros Hst Hrc Hpeer Hsel.
  rewrite runLoop_S, (isDown_running ar Hst), (fetch_pending ar w Hrc).
  rewrite deliver_ready; try assumption. reflexivity.
Qed.

Lemma runLoop_lines (lines : list string) :
  forall (fuel : nat) (ar : t) (w : World),
    status ar = StatusRunning ->
    readcache ar = "" ->
    (forall n s, peer w n s = s) ->
    (forall n, selectSent w n = true) ->
    (forall i l, lines !! i = Some l ->
                 readLine w (nread w + i)%nat = (l, None) /\ l <> "") ->
    readLine w (nread w + length lines)%nat = ("", Some EOF) ->
    (length lines + 2 <= fuel)%nat ->
    snd (fst (runLoop fuel ar w)) = Returned
    /\ sentMsgs (trace (snd (runLoop fuel ar w)))
       = (sentMsgs (trace w)
            ++ map (fun l => {| result_ := l; logpath := originpath ar |}) lines)%list
    /\ sentErrs (trace (snd (runLoop fuel ar w))) = sentErrs (trace w)
    /\ inactive (fst (fst (runLoop fuel ar w))) = 1
    /\ readcache (fst (fst (runLoop fuel ar w))) = ""
    /\ nread (snd (runLoop fuel ar w)) = (nread w + length lines + 1)%nat.
Proof.
  induction lines as [|l ls IH]; intros fuel ar w Hst Hrc Hpeer Hsel Hlines Heof Hfuel.
  - destruct fuel as [|fuel]; [simpl in Hfuel; lia|].
    simpl in Heof. rewrite Nat.add_0_r in Heof.
    rewrite runLoop_S. unfold isDown. rewrite Hst. simpl. 
    rewrite (fetch_eq ar w "" (Some EOF) Hrc Heof). simpl.
    match goal with
    | |- context [Stop ?a ?v] =>
        destruct (Stop_shape a v) as (s & k & Hs & Htr & _);
          destruct (Stop_reads a v) as [Hn _];
          destruct (Stop a v) as [[ar3 e3] w3]
    end.
    simpl in Hs, Htr, Hn |- *. subst ar3. rewrite Htr, Hn.
    rewrite sentMsgs_app, sentErrs_app, sentMsgs_sleeps, sentErrs_sleeps, !app_nil_r.
    simpl. repeat split; try assumption. lia.
  - destruct fuel as [|[|[|fuel]]]; try (simpl in Hfuel; lia).
    destruct (Hlines 0%nat l eq_refl) as [Hread Hl].
    rewrite Nat.add_0_r in Hread.
    rewrite (runLoop_line fuel ar w l Hst Hrc Hread Hl (Hpeer _ _) (Hsel _)).
    match goal with
    | |- context [runLoop _ ?a ?v] =>
        specialize (IH (S (S fuel)) a v)
    end.
    simpl in IH.
    destruct IH as (Ho & Hm & He & Hi & Hc & Hn).
    + exact Hst.
    + exact Hrc.
    + exact Hpeer.
    + exact Hsel.
    + intros i l' Hi. pose proof (Hlines (S i) l' Hi) as H.
      rewrite Nat.add_succ_r in H. exact H.
    + simpl in Heof. rewrite Nat.add_succ_r in Heof. exact Heof.
    + simpl in Hfuel. lia.
    + rewrite Ho, Hm, He, Hi, Hc, Hn.
      rewrite sentMsgs_app, sentErrs_app, <- app_assoc. simpl.
      repeat split; [apply app_nil_r | lia].
Qed.

(** X6. A file of non-empty lines followed by EOF, a consumer that is
    always ready, nobody else touching the follower: the reading task,
    started from Init, first hands over the pending line (if readcache held
    one), then every line of the file, in file order, once each and under
    the origin path; it sends no error, ends on the EOF with inactive = 1
    and an empty readcache, and has read exactly the lines and the EOF. *)
Theorem Run_delivers_in_order (lines : list string) (fuel : nat) (ar : t) (w : World)
    (Hst : status ar = StatusInit)
    (Hpeer : forall n s, peer w n s = s)
    (Hsel : forall n, selectSent w n = true)
    (Hlines : forall i l, lines !! i = Some l ->
                          readLine w (nread w + i)%nat = (l, None) /\ l <> "")
    (Heof : readLine w (nread w + length lines)%nat = ("", Some EOF))
    (Hfuel : (length lines + 3 <= fuel)%nat) :
  let pending := if decide (readcache ar = "") then [] else [readcache ar] in
  snd (fst (Run fuel ar w)) = Returned
  /\ sentMsgs (trace (snd (Run fuel ar w)))
     = (sentMsgs (trace w)
          ++ map (fun l => {| result_ := l; logpath := originpath ar |})
               (pending ++ lines))%list
  /\ sentErrs (trace (snd (Run fuel ar w))) = sentErrs (trace w)
  /\ inactive (fst (fst (Run fuel ar w))) = 1
  /\ readcache (fst (fst (Run fuel ar w))) = ""
  /\ nread (snd (Run fuel ar w)) = (nread w + length lines + 1)%nat.
Proof.
  cbv zeta. unfold Run, CompareAndSwap.
  destruct (decide (status ar = StatusInit)) as [_|]; [|contradiction].
  destruct (decide (readcache ar = "")) as [Hrc|Hrc].
  - simpl.
    exact (runLoop_lines lines fuel (set_status StatusRunning ar) w eq_refl Hrc
             Hpeer Hsel Hlines Heof ltac:(lia)).
  - simpl. destruct fuel as [|[|[|fuel]]]; try lia.
    rewrite (runLoop_pending fuel (set_status StatusRunning ar) w eq_refl Hrc
               (Hpeer _ _) (Hsel _)).
    match goal with
    | |- context [runLoop _ ?a ?v] =>
        pose proof (runLoop_lines lines (S (S fuel)) a v) as IH
    end.
    simpl in IH |- *.
    destruct IH as (Ho & Hm & He & Hi & Hc & Hn); try assumption; try reflexivity.
    + lia.
    + rewrite Ho, Hm, He, Hi, Hc, Hn.
      rewrite sentMsgs_app, sentErrs_app, <- app_assoc. simpl.
      repeat split. apply app_nil_r.
Qed.

Lemma Run_delivers_in_order_witness :
  status (Fixtures.follower "/logs/a.log" StatusInit 1) = StatusInit
  /\ sentMsgs (trace (snd (Run 5 (Fixtures.follower "/logs/a.log" StatusInit 1)
                             (MoreFixtures.holding ["hello"; "world"]))))
     = [ {| result_ := "hello"; logpath := "/logs/a.log" |};
         {| result_ := "world"; logpath := "/logs/a.log" |} ].
Proof.
  split; [reflexivity|].
  pose proof (Run_delivers_in_order ["hello"; "world"] 5
                (Fixtures.follower "/logs/a.log" StatusInit 1)
                (MoreFixtures.holding ["hello"; "world"]) eq_refl) as H.
  cbv zeta in H. apply H.
  - intros n s; reflexivity.
  - intros n; reflexivity.
  - intros [|[|i]] l Hl; simpl in Hl; inversion Hl; subst; split;
      try reflexivity; discriminate.
  - reflexivity.
  - simpl; lia.
Defined.

(** X25. A stop request meets a consumer that is not reading: the
    follower is Running with a pending line, the ticker fires before the
    send goes through, and meanwhile the status was set to Stopping.  The
    deliver phase returns at its next turn with the status Stopped; the
    line was not sent and is still in readcache. *)
Theorem deliver_honours_stop (fuel : nat) (repeat_ : Z) (ar : t) (w : World)
    (Hst : status ar = StatusRunning)
    (Hcache : readcache ar <> "")
    (Hbusy : selectSent w (nselect w) = false)
    (Hstop : peer w (npeer w) StatusRunning = StatusStopping) :
  let ar' := fst (fst (deliver (S (S fuel)) repeat_ ar w)) in
  snd (fst (deliver (S (S fuel)) repeat_ ar w)) = Return
  /\ status ar' = StatusStopped
  /\ readcache ar' = readcache ar
  /\ trace (snd (deliver (S (S fuel)) repeat_ ar w)) = (trace w ++ [EvTick])%list.
Proof.
  cbv zeta. rewrite deliver_S.
  destruct (decide (readcache ar = "")) as [|_]; [contradiction|].
  cbv zeta. rewrite isDown_running by exact Hst.
  change (status (set_emptyLineCnt 0 (set_inactive 0 ar))) with (status ar).
  rewrite Hst, Hbusy, Hstop.
  rewrite deliver_S.
  destruct ar as [b rp op rc st ina rn c sts]; simpl in Hst, Hcache |- *; subst st.
  destruct (decide (rc = "")) as [|_]; [contradiction|].
  simpl. repeat split.
Qed.

Lemma deliver_honours_stop_witness :
  status (set_readcache "line" (Fixtures.follower "/logs/a.log" StatusRunning 0))
  = StatusRunning
  /\ status (fst (fst (deliver 2 0
                         (set_readcache "line"
                            (Fixtures.follower "/logs/a.log" StatusRunning 0))
                         MoreFixtures.stopping))) = StatusStopped.
Proof.
  split; [reflexivity|].
  pose proof (deliver_honours_stop 0 0
                (set_readcache "line" (Fixtures.follower "/logs/a.log" StatusRunning 0))
                MoreFixtures.stopping eq_refl) as H.
  cbv zeta in H. apply H.
  - discriminate.
  - reflexivity.
  - reflexivity.
Defined.

End FollowerLifecycle.

(** ** More on discovery: the expiry sweep *)

Section ExpirySweep.

Import Reader.
Local Open Scope Z_scope.

Lemma expireEach_lookup (env : Env) (l : list (string * ActiveReader.t)) :
  forall (r : t) (paths : list string) (w : World) (k : string),
    let r' := fst (fst (expireEach env l r paths w)) in
    let gone :=
      existsb (fun p : string * ActiveReader.t =>
                 bool_decide (fst p = k) && ActiveReader.expired env (snd p) (expire r)) l in
    fileReaders r' !! k = (if gone then None else fileReaders r !! k)
    /\ cacheMap r' !! k = (if gone then None else cacheMap r !! k).
Proof.
  induction l as [|[path ar] l IH]; intros r paths w k; cbv zeta.
  - simpl. split; reflexivity.
  - simpl expireEach. simpl existsb.
    destruct (ActiveReader.expired env ar (expire r)) eqn:Hexp.
    + unfold bind at 1 3. destruct (ActiveReader.Close ar w) as [x w1].
      unfold bind at 1 2. destruct (emit (EvRemoveSubMeta path) w1) as [u w2].
      match goal with
      | |- context [expireEach env l ?r1 ?ps ?v] =>
          specialize (IH r1 ps v k); cbv zeta in IH;
            destruct IH as [IH1 IH2]; rewrite IH1, IH2
      end.
      simpl expire. simpl fileReaders. simpl cacheMap.
      destruct (bool_decide (path = k)) eqn:Hk; simpl.
      * apply bool_decide_eq_true in Hk. subst k.
        rewrite !lookup_delete_eq. destruct (existsb _ l); split; reflexivity.
      * apply bool_decide_eq_false in Hk.
        rewrite !lookup_delete_ne by exact Hk. split; reflexivity.
    + rewrite andb_false_r. simpl. apply IH.
Qed.

Lemma existsb_map_to_list (env : Env) (m : gmap string ActiveReader.t)
    (d : Duration) (k : string) :
  existsb (fun p : string * ActiveReader.t =>
             bool_decide (fst p = k) && ActiveReader.expired env (snd p) d)
    (map_to_list m)
  = match m !! k with
    | Some ar => ActiveReader.expired env ar d
    | None => false
    end.
Proof.
  apply eq_true_iff_eq. rewrite existsb_exists. split.
  - intros ([k' ar] & Hin & Hf). simpl in Hf.
    apply andb_true_iff in Hf as [Hk He]. apply bool_decide_eq_true in Hk. subst k'.
    apply list_elem_of_In, elem_of_map_to_list in Hin. rewrite Hin. exact He.
  - destruct (m !! k) as [ar|] eqn:Hl; [|discriminate].
    intros He. exists (k, ar). split.
    + apply list_elem_of_In, elem_of_map_to_list. exact Hl.
    + simpl. rewrite bool_decide_eq_true_2 by reflexivity. exact He.
Qed.

(** X7. The expiry sweep retires exactly the followers for which
    [expired] holds: such a follower leaves the follower map and its path
    leaves the line cache; every other follower and every other cache entry
    is left as it was. *)
Theorem checkExpiredFiles_retires (env : Env) (r : t) (w : World) (k : string) :
  let r' := fst (checkExpiredFiles env r w) in
  fileReaders r' !! k
  = match fileReaders r !! k with
    | Some ar => if ActiveReader.expired env ar (expire r) then None else Some ar
    | None => None
    end
  /\ cacheMap r' !! k
     = match fileReaders r !! k with
       | Some ar => if ActiveReader.expired env ar (expire r) then None
                    else cacheMap r !! k
       | None => cacheMap r !! k
       end.
Proof.
  cbv zeta. unfold checkExpiredFiles, bind, ret.
  pose proof (expireEach_lookup env (map_to_list (fileReaders r)) r [] w k) as H.
  cbv zeta in H. rewrite existsb_map_to_list in H.
  destruct (expireEach env (map_to_list (fileReaders r)) r [] w) as [[r' ps] w'].
  simpl in *. destruct H as [H1 H2]. rewrite H1, H2.
  destruct (fileReaders r !! k) as [ar|] eqn:Hl; [|split; reflexivity].
  destruct (ActiveReader.expired env ar (expire r)); split; reflexivity.
Qed.

Lemma expireEach_none (env : Env) (l : list (string * ActiveReader.t)) :
  forall (r : t) (paths : list string) (w : World),
    (forall p, In p l -> ActiveReader.expired env (snd p) (expire r) = false) ->
    expireEach env l r paths w = ((r, paths), w).
Proof.
  induction l as [|[path ar] l IH]; intros r paths w H; simpl.
  - reflexivity.
  - pose proof (H (path, ar) (or_introl eq_refl)) as Hhead. simpl in Hhead.
    rewrite Hhead. apply IH.
    intros p Hp. apply H. right. exact Hp.
Qed.

(** X8. With expire = 0 the sweep does nothing at all: no follower is
    closed or removed, not even one whose file is gone, and the world is
    untouched. *)
Theorem checkExpiredFiles_expire_zero (env : Env) (r : t) (w : World)
    (Hzero : expire r = 0) :
  checkExpiredFiles env r w = (r, w).
Proof.
  unfold checkExpiredFiles, bind, ret.
  rewrite expireEach_none; [reflexivity|].
  intros p _. rewrite Hzero. reflexivity.
Qed.

Lemma checkExpiredFiles_expire_zero_witness :
  expire MoreFixtures.keepAll = 0
  /\ checkExpiredFiles MoreFixtures.goneEnv MoreFixtures.keepAll Fixtures.idle
     = (MoreFixtures.keepAll, Fixtures.idle).
Proof.
  split; [reflexivity|].
  apply (checkExpiredFiles_expire_zero MoreFixtures.goneEnv MoreFixtures.keepAll
           Fixtures.idle).
  reflexivity.
Defined.

End ExpirySweep.

(** ** More on discovery: the reconcile sweep *)

Section Reconcile.

Import Reader.
Local Open Scope Z_scope.

Lemma Start_fst (ar : ActiveReader.t) (w : World) :
  exists s : Status, fst (ActiveReader.Start ar w) = ActiveReader.set_status s ar.
Proof.
  destruct (decide (ActiveReader.status ar = StatusRunning)) as [Hr|Hr].
  - exists (ActiveReader.status ar).
    rewrite (proj1 (Start_restarts_shape ar w) Hr), set_status_id. reflexivity.
  - destruct (proj2 (Start_restarts_shape ar w) Hr) as (k & Hfst & _).
    exists StatusInit. exact Hfst.
Qed.

(** What one match does to the engine: nothing, or a restart of the
    follower already registered under its real path, or the registration
    of a new follower under it. *)
Lemma statMatch_shape (env : Env) (un : gset string) (now : Time) (mc : string)
    (r : t) (nap : list string) (w : World) :
  let r' := fst (fst (statMatch env un now mc (r, nap) w)) in
  status r' = status r
  /\ cacheMap r' = cacheMap r
  /\ (fileReaders r' = fileReaders r
      \/ (exists rp fi filear s,
            (mc ∉ un) /\ GetRealPath env mc = Ok (rp, fi) /\ IsDir fi = false
            /\ fileReaders r !! rp = Some filear
            /\ fileReaders r' = <[rp := ActiveReader.set_status s filear]> (fileReaders r))
      \/ (exists rp fi ar,
            (mc ∉ un) /\ GetRealPath env mc = Ok (rp, fi) /\ IsDir fi = false
            /\ fileReaders r !! rp = None
            /\ status r <> StatusStopped /\ status r <> StatusStopping
            /\ ActiveReader.realpath ar = rp
            /\ ActiveReader.originpath ar = mc
            /\ ActiveReader.readcache ar = default "" (cacheMap r !! rp)
            /\ (bool_decide (default "" (cacheMap r !! rp) = "")
                && (Nanoseconds (expire r) >? 0)
                && Before (Add (ModTime fi) (expire r)) (Now env)) = false
            /\ fileReaders r' = <[rp := ar]> (fileReaders r))).
Proof.
  cbv zeta. unfold statMatch.
  destruct (decide (mc ∈ un)) as [Hun|Hun]; [unfold ret; simpl; auto|].
  destruct (GetRealPath env mc) as [[rp fi]|e] eqn:Hrp; [|unfold ret; simpl; auto].
  destruct (IsDir fi) eqn:Hdir; [unfold ret; simpl; auto|].
  destruct (fileReaders r !! rp) as [filear|] eqn:Hl.
  - destruct (IsFileModified env rp (statInterval r) now); [|unfold ret; simpl; auto].
    unfold bind, ret. destruct (Start_fst filear w) as [s Hs].
    destruct (ActiveReader.Start filear w) as [filear' w']. simpl in Hs |- *.
    subst filear'. split; [reflexivity|]. split; [reflexivity|].
    right; left. exists rp, fi, filear, s. repeat split; assumption.
  - destruct (bool_decide (default "" (cacheMap r !! rp) = "")
              && (Nanoseconds (expire r) >? 0)
              && Before (Add (ModTime fi) (expire r)) (Now env)) eqn:Hskip;
      [unfold ret; simpl; auto|].
    destruct (NewActiveReader env mc rp (whence r) (notFirstTime r) (meta r))
      as [ar|e] eqn:Hnew.
    + destruct (NewActiveReader_inv _ _ _ _ _ _ _ Hnew) as (b & _ & _ & _ & Har).
      subst ar.
      destruct (headRegexp r) as [re|]; [destruct (SetMode env rp re)|];
        cbv iota beta zeta; unfold hasStopped, isStopping; simpl status;
        (destruct (bool_decide (status r = StatusStopped)) eqn:H1;
         destruct (bool_decide (status r = StatusStopping)) eqn:H2; simpl;
         unfold bind, ret, emit; simpl;
         try (split; [reflexivity|]; split; [reflexivity|]; left; reflexivity));
        (apply bool_decide_eq_false in H1, H2;
         split; [reflexivity|]; split; [reflexivity|];
         right; right; eexists rp, fi, _; rewrite insert_insert_eq;
         repeat split; try eassumption; try reflexivity).
    + unfold bind, ret, sendError, sendOnErrChan, bind, get, emit; simpl.
      destruct (errChanClosed w); simpl; auto.
Qed.

Lemma statMatches_cons (env : Env) (un : gset string) (now : Time) (mc : string)
    (ms : list string) (acc : t * list string) (w : World) :
  statMatches env un now (mc :: ms) acc w
  = let (acc', w') := statMatch env un now mc acc w in
    statMatches env un now ms acc' w'.
Proof. reflexivity. Qed.

(** A property of the engine kept by every match is kept by the scan. *)
Lemma statMatches_invariant (P : t -> Prop) (env : Env) (un : gset string)
    (now : Time) (matches : list string)
    (Hstep : forall mc r nap w, In mc matches -> P r ->
               P (fst (fst (statMatch env un now mc (r, nap) w)))) :
  forall (ms : list string) (r : t) (nap : list string) (w : World),
    (forall mc, In mc ms -> In mc matches) ->
    P r -> P (fst (fst (statMatches env un now ms (r, nap) w))).
Proof.
  induction ms as [|mc ms IH]; intros r nap w Hsub HP.
  - exact HP.
  - rewrite statMatches_cons.
    pose proof (Hstep mc r nap w (Hsub mc (or_introl eq_refl)) HP) as H1.
    destruct (statMatch env un now mc (r, nap) w) as [[r1 nap1] w1].
    simpl in H1. apply IH; [|exact H1].
    intros mc' Hin. apply Hsub. right. exact Hin.
Qed.

(** [statLogPath] either returns early, the followers, the status and the
    line cache untouched, or ends with those of the scan of the matches. *)
Lemma statLogPath_cases (env : Env) (r : t) (w : World) :
  let r' := fst (statLogPath env r w) in
  (fileReaders r' = fileReaders r /\ status r' = status r
   /\ cacheMap r' = cacheMap r)
  \/ (exists matches,
        Glob env (logPathPattern r) = Ok matches
        /\ Z.of_nat (size (fileReaders r)) < maxOpenFiles r
        /\ let r1 := fst (fst (statMatches env (list_to_set (excluded env r)) (Now env)
                                  matches (r, []) w)) in
           fileReaders r' = fileReaders r1 /\ status r' = status r1
           /\ cacheMap r' = cacheMap r1).
Proof.
  cbv zeta. unfold statLogPath, excluded.
  destruct (Z.of_nat (size (fileReaders r)) >=? maxOpenFiles r) eqn:Hcap;
    [left; repeat split|].
  rewrite Z.geb_leb in Hcap. apply Z.leb_gt in Hcap.
  destruct (Glob env (logPathPattern r)) as [matches|e] eqn:Hglob;
    [|left; repeat split].
  destruct (bool_decide (ignoreLogPathPattern r = "")) eqn:Hign; simpl.
  - right. exists matches. split; [reflexivity|]. split; [exact Hcap|].
    unfold bind, ret.
    destruct (statMatches env (list_to_set []) (Now env) matches (r, []) w)
      as [[r1 nap] w1] eqn:Hscan.
    change (list_to_set [] : gset string) with (∅ : gset string) in Hscan.
    rewrite Hscan. simpl.
    destruct (notFirstTime r1); simpl; repeat split.
  - destruct (Glob env (ignoreLogPathPattern r)) as [unm|e] eqn:Hun;
      [|left; repeat split].
    right. exists matches. split; [reflexivity|]. split; [exact Hcap|].
    unfold bind, ret.
    destruct (statMatches env (list_to_set unm) (Now env) matches (r, []) w)
      as [[r1 nap] w1]. simpl.
    destruct (notFirstTime r1); simpl; repeat split.
Qed.

(** X9. Discovery keeps every follower under its own real path: if the
    follower map is keyed by real path before a run of discovery ticks, it
    is so after it (and the map of a new engine is empty). *)
Theorem discoveryTicks_keyedByRealPath (envs : list Env) :
  forall (r : t) (w : World),
    keyedByRealPath (fileReaders r) ->
    keyedByRealPath (fileReaders (fst (discoveryTicks envs r w))).
Proof.
  induction envs as [|env envs IH]; intros r w Hk; simpl.
  - exact Hk.
  - unfold bind, discoveryTick, bind.
    pose proof (expireEach_subseteq env (map_to_list (fileReaders r)) r [] w) as Hsub.
    unfold checkExpiredFiles, bind, ret.
    destruct (expireEach env (map_to_list (fileReaders r)) r [] w) as [[r1 ps] w1].
    simpl in Hsub |- *.
    assert (keyedByRealPath (fileReaders r1)) as Hk1.
    { intros k ar Hl. apply Hk. eapply lookup_weaken; eassumption. }
    pose proof (statLogPath_cases env r1 w1) as Hcases. cbv zeta in Hcases.
    destruct (statLogPath env r1 w1) as [r2 w2]. simpl in Hcases |- *.
    apply IH.
    destruct Hcases as [(Hfr & _)|(matches & _ & _ & Hfr & _)]; rewrite Hfr;
      [exact Hk1|].
    apply (statMatches_invariant (fun r => keyedByRealPath (fileReaders r)) env _ _ matches);
      [|auto|exact Hk1].
    intros mc r0 nap w0 _ Hk0.
    pose proof (statMatch_shape env (list_to_set (excluded env r1)) (Now env) mc r0 nap w0)
      as Hshape.
    cbv zeta in Hshape.
    destruct Hshape as (_ & _ & [Hsame|[(rp & fi & filear & s & _ & _ & _ & Hl & Hins)
                                        |(rp & fi & ar & _ & _ & _ & _ & _ & _ & Hreal & _ & _ & _ & Hins)]]).
    + rewrite Hsame. exact Hk0.
    + rewrite Hins. intros k ar Hlk.
      destruct (decide (rp = k)) as [->|Hne].
      * rewrite lookup_insert_eq in Hlk. injection Hlk as <-. simpl. apply Hk0. exact Hl.
      * rewrite lookup_insert_ne in Hlk by exact Hne. apply Hk0. exact Hlk.
    + rewrite Hins. intros k ar' Hlk.
      destruct (decide (rp = k)) as [->|Hne].
      * rewrite lookup_insert_eq in Hlk. injection Hlk as <-. exact Hreal.
      * rewrite lookup_insert_ne in Hlk by exact Hne. apply Hk0. exact Hlk.
Qed.

Lemma discoveryTicks_keyedByRealPath_witness :
  keyedByRealPath (fileReaders Fixtures.engine)
  /\ keyedByRealPath
       (fileReaders
          (fst (discoveryTicks
                  [Fixtures.fsEnv ["/logs/b.log"] (1000 * Fixtures.hour)
                     (1000 * Fixtures.hour + Second)]
                  Fixtures.engine Fixtures.idle))).
Proof.
  assert (keyedByRealPath (fileReaders Fixtures.engine)) as H.
  { intros k ar Hl. simpl in Hl.
    apply lookup_singleton_Some in Hl as [<- <-]. reflexivity. }
  split; [exact H|].
  apply (discoveryTicks_keyedByRealPath
           [Fixtures.fsEnv ["/logs/b.log"] (1000 * Fixtures.hour)
              (1000 * Fixtures.hour + Second)]
           Fixtures.engine Fixtures.idle H).
Defined.

(** X10. While the engine is Stopping or Stopped, [statLogPath] registers
    no follower: the set of followed paths is the same after the pass
    (followers already registered may still be restarted). *)
Theorem statLogPath_stopped (env : Env) (r : t) (w : World)
    (Hdown : status r = StatusStopping \/ status r = StatusStopped) :
  dom (fileReaders (fst (statLogPath env r w))) = dom (fileReaders r)
  /\ status (fst (statLogPath env r w)) = status r.
Proof.
  pose proof (statLogPath_cases env r w) as Hcases. cbv zeta in Hcases.
  destruct Hcases as [(Hfr & Hst & _)|(matches & _ & _ & Hfr & Hst & _)];
    rewrite Hfr, Hst; [split; reflexivity|].
  apply (statMatches_invariant
           (fun r1 => dom (fileReaders r1) = dom (fileReaders r) /\ status r1 = status r)
           env _ _ matches); [|auto|split; reflexivity].
  intros mc r0 nap w0 _ [Hdom Hst0].
  pose proof (statMatch_shape env (list_to_set (excluded env r)) (Now env) mc r0 nap w0)
    as Hshape.
  cbv zeta in Hshape.
  destruct Hshape as (Hst1 & _ & [Hsame|[(rp & fi & filear & s & _ & _ & _ & Hl & Hins)
                                      |(rp & fi & ar & _ & _ & _ & _ & H1 & H2 & _)]]).
  - rewrite Hsame, Hst1. split; assumption.
  - rewrite Hins, Hst1. split; [|assumption].
    rewrite dom_insert_lookup_L; [exact Hdom|]. eexists; exact Hl.
  - rewrite Hst0 in H1, H2. destruct Hdown; congruence.
Qed.

Lemma statLogPath_stopped_witness :
  (status (Engine.set_status StatusStopping Fixtures.engine) = StatusStopping
   \/ status (Engine.set_status StatusStopping Fixtures.engine) = StatusStopped)
  /\ dom (fileReaders
            (fst (statLogPath
                    (Fixtures.fsEnv ["/logs/b.log"] (1000 * Fixtures.hour)
                       (1000 * Fixtures.hour + Second))
                    (Engine.set_status StatusStopping Fixtures.engine) Fixtures.idle)))
     = dom (fileReaders (Engine.set_status StatusStopping Fixtures.engine)).
Proof.
  split; [left; reflexivity|].
  apply (statLogPath_stopped
           (Fixtures.fsEnv ["/logs/b.log"] (1000 * Fixtures.hour)
              (1000 * Fixtures.hour + Second))
           (Engine.set_status StatusStopping Fixtures.engine) Fixtures.idle).
  left; reflexivity.
Defined.

(** X11. [statLogPath] never drops or replaces a follower: whoever was
    registered under a path still is, the same but for its status.  And a
    path that was not followed is followed after the pass only if it is
    the real path of a match of the pattern that is not a directory and is
    not among the matches of the ignore pattern, the engine being neither
    Stopping nor Stopped. *)
Theorem statLogPath_followers (env : Env) (r : t) (w : World) (k : string) :
  let r' := fst (statLogPath env r w) in
  (forall ar, fileReaders r !! k = Some ar ->
              exists s, fileReaders r' !! k = Some (ActiveReader.set_status s ar))
  /\ (fileReaders r !! k = None -> is_Some (fileReaders r' !! k) ->
      exists matches mc fi,
        Glob env (logPathPattern r) = Ok matches
        /\ In mc matches /\ ~ In mc (excluded env r)
        /\ GetRealPath env mc = Ok (k, fi) /\ IsDir fi = false
        /\ status r <> StatusStopped /\ status r <> StatusStopping).
Proof.
  cbv zeta.
  pose proof (statLogPath_cases env r w) as Hcases. cbv zeta in Hcases.
  destruct Hcases as [(Hfr & _)|(matches & Hglob & _ & Hfr & _)]; rewrite Hfr.
  { split.
    - intros ar Hl. exists (ActiveReader.status ar). rewrite set_status_id. exact Hl.
    - intros Hn [x Hx]. congruence. }
  apply (statMatches_invariant
           (fun r1 =>
              status r1 = status r
              /\ (forall ar, fileReaders r !! k = Some ar ->
                     exists s, fileReaders r1 !! k = Some (ActiveReader.set_status s ar))
              /\ (fileReaders r !! k = None -> is_Some (fileReaders r1 !! k) ->
                  exists matches mc fi,
                    Glob env (logPathPattern r) = Ok matches
                    /\ In mc matches /\ ~ In mc (excluded env r)
                    /\ GetRealPath env mc = Ok (k, fi) /\ IsDir fi = false
                    /\ status r <> StatusStopped /\ status r <> StatusStopping))
           env _ _ matches); [|auto|].
  - intros mc r0 nap w0 Hin (Hst0 & Hkeep & Hnew).
    pose proof (statMatch_shape env (list_to_set (excluded env r)) (Now env) mc r0 nap w0)
      as Hshape.
    cbv zeta in Hshape.
    destruct Hshape as (Hst1 & _ & [Hsame|[(rp & fi & filear & s & _ & _ & _ & Hl & Hins)
                                        |(rp & fi & ar & Hun & Hrp & Hdir & Hl & H1 & H2
                                          & _ & _ & _ & _ & Hins)]]).
    + rewrite Hsame, Hst1. repeat split; assumption.
    + rewrite Hins, Hst1. split; [assumption|]. split.
      * intros ar Har. destruct (Hkeep ar Har) as [s0 Hs0].
        destruct (decide (rp = k)) as [->|Hne].
        -- rewrite lookup_insert_eq. rewrite Hs0 in Hl. injection Hl as <-.
           exists s. reflexivity.
        -- rewrite lookup_insert_ne by exact Hne. exists s0. exact Hs0.
      * intros Hn Hsome. apply Hnew; [exact Hn|].
        destruct (decide (rp = k)) as [->|Hne].
        -- eexists; exact Hl.
        -- rewrite lookup_insert_ne in Hsome by exact Hne. exact Hsome.
    + rewrite Hins, Hst1. split; [assumption|]. split.
      * intros ar0 Har. destruct (Hkeep ar0 Har) as [s0 Hs0].
        destruct (decide (rp = k)) as [->|Hne]; [congruence|].
        rewrite lookup_insert_ne by exact Hne. exists s0. exact Hs0.
      * intros Hn Hsome.
        destruct (decide (rp = k)) as [->|Hne].
        -- exists matches, mc, fi. rewrite <- Hst0.
           repeat split; try assumption.
           intros Hex. apply Hun. apply elem_of_list_to_set, list_elem_of_In. exact Hex.
        -- rewrite lookup_insert_ne in Hsome by exact Hne. apply Hnew; assumption.
  - split; [reflexivity|]. split.
    + intros ar Hl. exists (ActiveReader.status ar). rewrite set_status_id. exact Hl.
    + intros Hn [x Hx]. congruence.
Qed.

(** X12. A match whose real path is not followed yet.  If the line cache
    holds a pending line for it, the file is followed however old it is:
    the new follower is registered under the real path with that line in
    readcache, its sub-meta is added and its reading task launched.  If the
    cache holds nothing for it and the file was last modified more than
    expire ago (expire > 0), the match is skipped and nothing changes. *)
Theorem statMatch_new_path (env : Env) (un : gset string) (now : Time)
    (mc rp : string) (fi : FileInfo) (r : t) (nap : list string) (w : World)
    (Hun : mc ∉ un)
    (Hrp : GetRealPath env mc = Ok (rp, fi))
    (Hdir : IsDir fi = false)
    (Hnew : fileReaders r !! rp = None) :
  (forall line ar0,
     cacheMap r !! rp = Some line -> line <> "" ->
     NewActiveReader env mc rp (whence r) (notFirstTime r) (meta r) = Ok ar0 ->
     status r = StatusRunning \/ status r = StatusInit ->
     exists ar,
       fileReaders (fst (fst (statMatch env un now mc (r, nap) w))) !! rp = Some ar
       /\ ActiveReader.readcache ar = line
       /\ ActiveReader.originpath ar = mc
       /\ ActiveReader.realpath ar = rp
       /\ ActiveReader.status ar = StatusInit
       /\ trace (snd (statMatch env un now mc (r, nap) w))
          = (trace w ++ [EvAddSubMeta rp; EvGoRun mc])%list)
  /\ (default "" (cacheMap r !! rp) = "" ->
      expire r > 0 ->
      ModTime fi + expire r < Now env ->
      statMatch env un now mc (r, nap) w = ((r, nap), w)).
Proof.
  split.
  - intros line ar0 Hline Hne Hok Hup.
    destruct (NewActiveReader_inv _ _ _ _ _ _ _ Hok) as (b & _ & _ & _ & Har).
    unfold statMatch.
    destruct (decide (mc ∈ un)) as [|_]; [contradiction|].
    rewrite Hrp, Hdir, Hnew, Hline. simpl default.
    rewrite (bool_decide_eq_false_2 _ Hne). simpl andb. cbv iota.
    rewrite Hok. subst ar0.
    assert (forall e, hasStopped (setStatsError e r) = false
                      /\ isStopping (setStatsError e r) = false) as Hup1.
    { intros e. unfold hasStopped, isStopping; simpl.
      destruct Hup as [-> | ->]; split; reflexivity. }
    assert (hasStopped r = false /\ isStopping r = false) as [Hup2 Hup3].
    { unfold hasStopped, isStopping. destruct Hup as [-> | ->]; split; reflexivity. }
    destruct (headRegexp r) as [re|]; [destruct (SetMode env rp re) as [e|]|];
      cbv iota beta zeta;
      try (destruct (Hup1 ("Runner[" +:+ RunnerName (meta r)
                           +:+ "] NewActiveReader for matches " +:+ rp
                           +:+ " SetMode error " +:+ Error e)) as [-> ->]);
      rewrite ?Hup2, ?Hup3; simpl;
      unfold bind, ret, emit; simpl;
      rewrite lookup_insert_eq; eexists; (split; [reflexivity|]);
      rewrite <- app_assoc; repeat split.
  - intros Hcache Hexp Hold.
    unfold statMatch.
    destruct (decide (mc ∈ un)) as [|_]; [contradiction|].
    rewrite Hrp, Hdir, Hnew, Hcache. unfold Nanoseconds, Before, Add.
    rewrite bool_decide_eq_true_2 by reflexivity.
    assert ((expire r >? 0) = true) as -> by (apply Z.gtb_lt; lia).
    assert ((ModTime fi + expire r <? Now env) = true) as -> by (apply Z.ltb_lt; lia).
    reflexivity.
Qed.

Lemma statMatch_new_path_witness :
  GetRealPath (Fixtures.fsEnv ["/logs/a.log"] 0 (1000 * Fixtures.hour)) "/logs/a.log"
  = Ok ("/logs/a.log", {| IsDir := false; ModTime := 0 |})
  /\ fileReaders (set_fileReaders ∅ MoreFixtures.keepAll) !! "/logs/a.log" = None
  /\ exists ar,
       fileReaders
         (fst (fst (statMatch (Fixtures.fsEnv ["/logs/a.log"] 0 (1000 * Fixtures.hour))
                      ∅ 0 "/logs/a.log"
                      (set_fileReaders ∅ MoreFixtures.keepAll, []) Fixtures.idle)))
       !! "/logs/a.log" = Some ar
       /\ ActiveReader.readcache ar = "pending".
Proof.
  split; [reflexivity|]. split; [reflexivity|].
  assert (fileReaders (set_fileReaders ∅ MoreFixtures.keepAll) !! "/logs/a.log" = None)
    as Hnone by reflexivity.
  destruct (proj1 (statMatch_new_path
                     (Fixtures.fsEnv ["/logs/a.log"] 0 (1000 * Fixtures.hour))
                     ∅ 0 "/logs/a.log" "/logs/a.log"
                     {| IsDir := false; ModTime := 0 |}
                     (set_fileReaders ∅ MoreFixtures.keepAll) [] Fixtures.idle
                     (not_elem_of_empty _) eq_refl eq_refl Hnone)
              "pending" (Fixtures.follower "/logs/a.log" StatusInit 1))
    as (ar & Hl & Hc & _).
  - reflexivity.
  - discriminate.
  - reflexivity.
  - left; reflexivity.
  - exists ar. split; assumption.
Defined.

End Reconcile.

(** ** The whence of a new follower and the first discovery pass (C4) *)

Section Whence.

Import Reader.
Local Open Scope Z_scope.

(** What one match does to the line buffers: a follower that stays has the
    buffer it had; a follower that comes new has been opened with the
    whence [NewActiveReader] computes from the engine's notFirstTime, its
    statistics file and the sub-meta of the path.  The engine's meta, flag
    and configured whence are not touched. *)
Lemma statMatch_whence (env : Env) (un : gset string) (now : Time) (mc : string)
    (r : t) (nap : list string) (w : World) :
  let r' := fst (fst (statMatch env un now mc (r, nap) w)) in
  meta r' = meta r /\ notFirstTime r' = notFirstTime r /\ whence r' = whence r
  /\ forall k ar,
       fileReaders r' !! k = Some ar ->
       (exists filear, fileReaders r !! k = Some filear
                       /\ ActiveReader.br ar = ActiveReader.br filear)
       \/ (fileReaders r !! k = None
           /\ exists b : bool,
                NewMetaWithRunnerName env k = Ok b
                /\ br_whence (ActiveReader.br ar)
                   = if (statisticFileExist (meta r) || notFirstTime r) && b
                     then WhenceOldest else whence r).
Proof.
  cbv zeta.
  assert (forall k ar,
            fileReaders r !! k = Some ar ->
            (exists filear, fileReaders r !! k = Some filear
                            /\ ActiveReader.br ar = ActiveReader.br filear)
            \/ (fileReaders r !! k = None
                /\ exists b : bool,
                     NewMetaWithRunnerName env k = Ok b
                     /\ br_whence (ActiveReader.br ar)
                        = if (statisticFileExist (meta r) || notFirstTime r) && b
                          then WhenceOldest else whence r)) as Hsame.
  { intros k ar Hl. left. exists ar. split; [exact Hl|reflexivity]. }
  unfold statMatch.
  destruct (decide (mc ∈ un)) as [Hun|Hun]; [unfold ret; simpl; auto|].
  destruct (GetRealPath env mc) as [[rp fi]|e] eqn:Hrp; [|unfold ret; simpl; auto].
  destruct (IsDir fi) eqn:Hdir; [unfold ret; simpl; auto|].
  destruct (fileReaders r !! rp) as [filear|] eqn:Hl.
  - destruct (IsFileModified env rp (statInterval r) now); [|unfold ret; simpl; auto].
    unfold bind, ret. destruct (Start_fst filear w) as [s Hs].
    destruct (ActiveReader.Start filear w) as [filear' w']. simpl in Hs |- *.
    subst filear'. split; [reflexivity|]. split; [reflexivity|]. split; [reflexivity|].
    intros k ar Hlk. destruct (decide (rp = k)) as [->|Hne].
    + rewrite lookup_insert_eq in Hlk. injection Hlk as <-.
      left. exists filear. split; [exact Hl|reflexivity].
    + rewrite lookup_insert_ne in Hlk by exact Hne. apply Hsame. exact Hlk.
  - destruct (bool_decide (default "" (cacheMap r !! rp) = "")
              && (Nanoseconds (expire r) >? 0)
              && Before (Add (ModTime fi) (expire r)) (Now env)) eqn:Hskip;
      [unfold ret; simpl; auto|].
    destruct (NewActiveReader env mc rp (whence r) (notFirstTime r) (meta r))
      as [ar0|e] eqn:Hnew.
    + destruct (NewActiveReader_inv _ _ _ _ _ _ _ Hnew) as (b & Hb & _ & _ & Har).
      subst ar0.
      destruct (headRegexp r) as [re|]; [destruct (SetMode env rp re)|];
        cbv iota beta zeta; unfold hasStopped, isStopping; simpl status;
        (destruct (bool_decide (status r = StatusStopped)) eqn:H1;
         destruct (bool_decide (status r = StatusStopping)) eqn:H2; simpl;
         unfold bind, ret, emit; simpl;
         (split; [reflexivity|]); (split; [reflexivity|]); (split; [reflexivity|]);
         try exact Hsame);
        (rewrite insert_insert_eq; intros k ar Hlk;
         destruct (decide (rp = k)) as [->|Hne];
         [rewrite lookup_insert_eq in Hlk; injection Hlk as <-;
          right; split; [exact Hl|]; exists b; split; [exact Hb|reflexivity]
         |rewrite lookup_insert_ne in Hlk by exact Hne; apply Hsame; exact Hlk]).
    + unfold bind, ret, sendError, sendOnErrChan, bind, get, emit; simpl.
      destruct (errChanClosed w); simpl; auto.
Qed.

(** The same for the whole scan of the matches. *)
Lemma statMatches_whence (env : Env) (un : gset string) (now : Time)
    (matches : list string) (r : t) (w : World) :
  let r1 := fst (fst (statMatches env un now matches (r, []) w)) in
  meta r1 = meta r /\ notFirstTime r1 = notFirstTime r /\ whence r1 = whence r
  /\ forall k ar,
       fileReaders r !! k = None ->
       fileReaders r1 !! k = Some ar ->
       exists b : bool,
         NewMetaWithRunnerName env k = Ok b
         /\ br_whence (ActiveReader.br ar)
            = if (statisticFileExist (meta r) || notFirstTime r) && b
              then WhenceOldest else whence r.
Proof.
  cbv zeta.
  assert (let r1 := fst (fst (statMatches env un now matches (r, []) w)) in
          meta r1 = meta r /\ notFirstTime r1 = notFirstTime r /\ whence r1 = whence r
          /\ (forall k filear, fileReaders r !! k = Some filear ->
                               is_Some (fileReaders r1 !! k))
          /\ (forall k ar,
                fileReaders r1 !! k = Some ar ->
                (exists filear, fileReaders r !! k = Some filear
                                /\ ActiveReader.br ar = ActiveReader.br filear)
                \/ (fileReaders r !! k = None
                    /\ exists b : bool,
                         NewMetaWithRunnerName env k = Ok b
                         /\ br_whence (ActiveReader.br ar)
                            = if (statisticFileExist (meta r) || notFirstTime r) && b
                              then WhenceOldest else whence r))) as H.
  { cbv zeta.
    apply (statMatches_invariant
             (fun r1 =>
                meta r1 = meta r /\ notFirstTime r1 = notFirstTime r
                /\ whence r1 = whence r
                /\ (forall k filear, fileReaders r !! k = Some filear ->
                                     is_Some (fileReaders r1 !! k))
                /\ (forall k ar,
                      fileReaders r1 !! k = Some ar ->
                      (exists filear, fileReaders r !! k = Some filear
                                      /\ ActiveReader.br ar = ActiveReader.br filear)
                      \/ (fileReaders r !! k = None
                          /\ exists b : bool,
                               NewMetaWithRunnerName env k = Ok b
                               /\ br_whence (ActiveReader.br ar)
                                  = if (statisticFileExist (meta r) || notFirstTime r) && b
                                    then WhenceOldest else whence r)))
             env un now matches); [|auto|].
    - intros mc r0 nap w0 _ (Hm0 & Hn0 & Hw0 & Hdom0 & Hbr0).
      pose proof (statMatch_whence env un now mc r0 nap w0) as Hstep.
      pose proof (statMatch_shape env un now mc r0 nap w0) as Hshape.
      cbv zeta in Hstep, Hshape.
      destruct Hstep as (Hm1 & Hn1 & Hw1 & Hbr1).
      destruct Hshape as (_ & _ & Hfr).
      split; [congruence|]. split; [congruence|]. split; [congruence|]. split.
      + intros k filear Hk. destruct (Hdom0 k filear Hk) as [x Hx].
        destruct Hfr as [->|[(rp & fi & fa & s & _ & _ & _ & _ & ->)
                            |(rp & fi & a & _ & _ & _ & _ & _ & _ & _ & _ & _ & _ & ->)]].
        * eexists; exact Hx.
        * destruct (decide (rp = k)) as [->|Hne];
            [rewrite lookup_insert_eq|rewrite lookup_insert_ne by exact Hne];
            eexists; eauto.
        * destruct (decide (rp = k)) as [->|Hne];
            [rewrite lookup_insert_eq|rewrite lookup_insert_ne by exact Hne];
            eexists; eauto.
      + intros k ar Hk.
        destruct (Hbr1 k ar Hk) as [(fa & Hfa & Hbr)|(Hnone & b & Hb & Hwh)].
        * destruct (Hbr0 k fa Hfa) as [(fa0 & Hfa0 & Hbr')|(Hnone & b & Hb & Hwh)].
          -- left. exists fa0. split; [exact Hfa0|congruence].
          -- right. split; [exact Hnone|]. exists b. split; [exact Hb|].
             rewrite Hbr. exact Hwh.
        * right. split.
          -- destruct (fileReaders r !! k) as [fa|] eqn:Hrk; [|reflexivity].
             destruct (Hdom0 k fa Hrk) as [x Hx]. congruence.
          -- exists b. split; [exact Hb|]. rewrite Hwh, Hm0, Hn0, Hw0. reflexivity.
    - split; [reflexivity|]. split; [reflexivity|]. split; [reflexivity|]. split.
      + intros k filear Hk. eexists; exact Hk.
      + intros k ar Hk. left. exists ar. split; [exact Hk|reflexivity]. }
  cbv zeta in H. destruct H as (Hm & Hn & Hw & _ & Hbr).
  split; [exact Hm|]. split; [exact Hn|]. split; [exact Hw|].
  intros k ar Hnone Hk.
  destruct (Hbr k ar Hk) as [(fa & Hfa & _)|(_ & Hex)]; [congruence|exact Hex].
Qed.

(** C4, as stated, does not hold: the claim hands the configured whence
    over verbatim only for a path without sub-meta on the first pass of an
    engine without statistics file.  For a path whose sub-meta exists the
    configured whence (here newest) is handed over verbatim on a later pass
    as well. *)
Lemma whence_verbatim_with_submeta :
  ~ (forall (env : Env) (originPath realPath whence : string) (notFirstTime : bool)
            (meta : Meta) (ar : ActiveReader.t),
       whence <> WhenceOldest ->
       NewActiveReader env originPath realPath whence notFirstTime meta = Ok ar ->
       br_whence (ActiveReader.br ar) = whence ->
       NewMetaWithRunnerName env realPath = Ok true
       /\ notFirstTime = false /\ statisticFileExist meta = false).
Proof.
  intros H.
  destruct (H (MoreFixtures.knownEnv [] 0 10) "/logs/b.log" "/logs/b.log"
              WhenceNewest true Fixtures.meta0
              (ActiveReader.set_br
                 {| br_realpath := "/logs/b.log"; br_whence := WhenceNewest;
                    br_closed := false; br_headPattern := None |}
                 (Fixtures.follower "/logs/b.log" StatusInit 1)))
    as (Habs & _).
  - discriminate.
  - reflexivity.
  - reflexivity.
  - discriminate Habs.
Qed.

(** C4, amended.  Every follower that a pass of [statLogPath] registers
    under a path not followed before has been opened with [WhenceOldest]
    when the file counts as new (the engine has a statistics file or its
    notFirstTime flag was set when the pass began) and the path has no
    sub-meta yet, and with the configured whence, verbatim, in every other
    case: on a pass with the flag unset and no statistics file, and for any
    path whose sub-meta exists.  The flag is set by every pass that reaches
    the scan of the matches and by no other; the pass touches neither the
    meta nor the configured whence; [NewReader] builds the engine with the
    flag unset and nothing followed. *)
Theorem statLogPath_whence (env : Env) (r : t) (w : World) :
  let r' := fst (statLogPath env r w) in
  (forall k ar,
     fileReaders r !! k = None ->
     fileReaders r' !! k = Some ar ->
     exists b : bool,
       NewMetaWithRunnerName env k = Ok b
       /\ br_whence (ActiveReader.br ar)
          = if (statisticFileExist (meta r) || notFirstTime r) && b
            then WhenceOldest else whence r)
  /\ notFirstTime r' = notFirstTime r || scans env r
  /\ meta r' = meta r /\ whence r' = whence r
  /\ (forall lib m conf r0,
        NewReader lib m conf = Ok r0 ->
        notFirstTime r0 = false /\ fileReaders r0 = ∅).
Proof.
  cbv zeta.
  assert (forall lib m conf r0,
            NewReader lib m conf = Ok r0 ->
            notFirstTime r0 = false /\ fileReaders r0 = ∅) as Hinit.
  { intros lib m conf r0. unfold NewReader. intros H.
    destruct (GetString lib conf (KeyLogPath lib)); [|discriminate].
    destruct (ParseDuration lib (GetStringOr lib conf (KeyExpire lib) "24h"));
      [|discriminate].
    destruct (ParseDuration lib (GetStringOr lib conf (KeySubmetaExpire lib) "720h"));
      [|discriminate].
    destruct (IsSubmetaExpireValid _ _); [discriminate|].
    destruct (ParseDuration lib (GetStringOr lib conf (KeyStatInterval lib) "3m"));
      [|discriminate].
    injection H as <-. split; reflexivity. }
  assert (forall k ar, fileReaders r !! k = None -> fileReaders r !! k = Some ar ->
            exists b : bool,
              NewMetaWithRunnerName env k = Ok b
              /\ br_whence (ActiveReader.br ar)
                 = if (statisticFileExist (meta r) || notFirstTime r) && b
                   then WhenceOldest else whence r) as Hearly.
  { intros k ar Hn Hs. congruence. }
  unfold statLogPath, scans.
  destruct (Z.of_nat (size (fileReaders r)) >=? maxOpenFiles r) eqn:Hcap.
  { simpl. rewrite orb_false_r.
    split; [exact Hearly|]. split; [reflexivity|]. split; [reflexivity|].
    split; [reflexivity|exact Hinit]. }
  destruct (Glob env (logPathPattern r)) as [matches|e] eqn:Hglob.
  2:{ simpl. rewrite orb_false_r.
    split; [exact Hearly|]. split; [reflexivity|]. split; [reflexivity|].
    split; [reflexivity|exact Hinit]. }
  destruct (bool_decide (ignoreLogPathPattern r = "")) eqn:Hign; simpl.
  - unfold bind, ret.
    pose proof (statMatches_whence env ∅ (Now env) matches r w) as Hscan.
    cbv zeta in Hscan.
    destruct (statMatches env ∅ (Now env) matches (r, []) w) as [[r1 nap] w1].
    simpl in Hscan |- *. destruct Hscan as (Hm & Hn & Hw & Hbr).
    rewrite orb_true_r.
    destruct (notFirstTime r1) eqn:Hn1; simpl;
      (split; [exact Hbr|]); (split; [first [exact Hn1|reflexivity]|]);
      (split; [exact Hm|]); (split; [exact Hw|exact Hinit]).
  - destruct (Glob env (ignoreLogPathPattern r)) as [unm|e] eqn:Hun.
    2:{ simpl. rewrite orb_false_r.
    split; [exact Hearly|]. split; [reflexivity|]. split; [reflexivity|].
    split; [reflexivity|exact Hinit]. }
    unfold bind, ret.
    pose proof (statMatches_whence env (list_to_set unm) (Now env) matches r w) as Hscan.
    cbv zeta in Hscan.
    destruct (statMatches env (list_to_set unm) (Now env) matches (r, []) w)
      as [[r1 nap] w1].
    simpl in Hscan |- *. destruct Hscan as (Hm & Hn & Hw & Hbr).
    rewrite orb_true_r.
    destruct (notFirstTime r1) eqn:Hn1; simpl;
      (split; [exact Hbr|]); (split; [first [exact Hn1|reflexivity]|]);
      (split; [exact Hm|]); (split; [exact Hw|exact Hinit]).
Qed.

Lemma statLogPath_whence_witness :
  fileReaders MoreFixtures.firstPass !! "/logs/b.log" = None
  /\ notFirstTime MoreFixtures.firstPass = false
  /\ (exists ar,
        fileReaders
          (fst (statLogPath (Fixtures.fsEnv ["/logs/b.log"] (1000 * Fixtures.hour)
                               (1000 * Fixtures.hour + Second))
                  MoreFixtures.firstPass Fixtures.idle))
        !! "/logs/b.log" = Some ar
        /\ br_whence (ActiveReader.br ar) = WhenceNewest)
  /\ notFirstTime
       (fst (statLogPath (Fixtures.fsEnv ["/logs/b.log"] (1000 * Fixtures.hour)
                            (1000 * Fixtures.hour + Second))
               MoreFixtures.firstPass Fixtures.idle))
     = true.
Proof.
  split; [reflexivity|]. split; [reflexivity|].
  pose proof (statLogPath_whence
                (Fixtures.fsEnv ["/logs/b.log"] (1000 * Fixtures.hour)
                   (1000 * Fixtures.hour + Second))
                MoreFixtures.firstPass Fixtures.idle) as H.
  cbv zeta in H. destruct H as (Hwh & Hflag & _).
  split; [|rewrite Hflag; reflexivity].
  assert (fileReaders MoreFixtures.firstPass !! "/logs/b.log" = None) as Hnone
    by reflexivity.
  assert (fileReaders
            (fst (statLogPath (Fixtures.fsEnv ["/logs/b.log"] (1000 * Fixtures.hour)
                                 (1000 * Fixtures.hour + Second))
                    MoreFixtures.firstPass Fixtures.idle))
          !! "/logs/b.log"
          = Some (ActiveReader.set_br
                    {| br_realpath := "/logs/b.log"; br_whence := WhenceNewest;
                       br_closed := false; br_headPattern := None |}
                    (Fixtures.follower "/logs/b.log" StatusInit 1))) as Hsome
    by (vm_compute; reflexivity).
  eexists. split; [exact Hsome|].
  destruct (Hwh _ _ Hnone Hsome) as (b & Hb & Heq).
  rewrite Heq. injection Hb as <-. reflexivity.
Defined.

End Whence.

(** ** The consumer's side of the engine *)

Section EngineFacts.

Import Reader.
Local Open Scope Z_scope.

(** X13. After any run of [ReadLine] calls, [Source] is the path of the
    last message received, or what it was before if no message came:
    errors and time-outs never change it.  [ReadLine] answers every call
    and never touches the followers. *)
Theorem Source_after_ReadLines (cs : list selectCase) :
  forall r : t,
    Engine.Source (fst (Engine.ReadLines r cs))
    = default (Engine.Source r)
        (last (omap (fun c => match c with
                              | RecvMsg msg => Some (logpath msg)
                              | _ => None
                              end) cs))
    /\ length (snd (Engine.ReadLines r cs)) = length cs
    /\ fileReaders (fst (Engine.ReadLines r cs)) = fileReaders r.
Proof.
  induction cs as [|c cs IH]; intros r.
  - repeat split.
  - simpl Engine.ReadLines.
    destruct (ReadLine r c) as [r1 a] eqn:Hc.
    specialize (IH r1). destruct (Engine.ReadLines r1 cs) as [r2 rest].
    simpl in IH |- *. destruct IH as (Hs & Hlen & Hfr).
    rewrite Hs, Hlen, Hfr.
    destruct c as [msg|err|]; simpl in Hc; injection Hc as <- <-; simpl;
      repeat split.
    rewrite last_cons. unfold Engine.Source; simpl.
    destruct (last _); reflexivity.
Qed.

Lemma syncCache_fold (l : list (string * ActiveReader.t)) :
  NoDup (l.*1) ->
  (forall k ar, (k, ar) ∈ l -> ActiveReader.realpath ar = k) ->
  forall (cm : gmap string string) (k : string),
    fold_left Engine.syncCache (l.*2) cm !! k
    = match (list_to_map l : gmap string ActiveReader.t) !! k with
      | Some ar => if decide (ActiveReader.readcache ar = "") then cm !! k
                   else Some (ActiveReader.readcache ar)
      | None => cm !! k
      end.
Proof.
  induction l as [|[k0 ar0] l IH]; intros Hnd Hkey cm k.
  - reflexivity.
  - simpl in Hnd. apply NoDup_cons in Hnd as [Hk0 Hnd].
    simpl fold_left. rewrite IH; [|exact Hnd|].
    2:{ intros k' ar' Hin. apply Hkey. right. exact Hin. }
    pose proof (Hkey k0 ar0 (list_elem_of_here _ _)) as Hreal.
    simpl list_to_map.
    destruct (decide (k0 = k)) as [->|Hne].
    + rewrite lookup_insert_eq.
      rewrite (not_elem_of_list_to_map_1 _ _ Hk0).
      unfold Engine.syncCache, Engine.arSyncMeta.
      destruct (decide (ActiveReader.readcache ar0 = "")); [reflexivity|].
      rewrite Hreal, lookup_insert_eq. reflexivity.
    + rewrite lookup_insert_ne by exact Hne.
      assert (Engine.syncCache cm ar0 !! k = cm !! k) as ->.
      { unfold Engine.syncCache, Engine.arSyncMeta.
        destruct (decide (ActiveReader.readcache ar0 = "")); [reflexivity|].
        rewrite Hreal, lookup_insert_ne by exact Hne. reflexivity. }
      reflexivity.
Qed.

Lemma SyncMeta_cacheMap (st : Store) (r : t) (k : string) :
  keyedByRealPath (fileReaders r) ->
  cacheMap (fst (Engine.SyncMeta st r)) !! k
  = match fileReaders r !! k with
    | Some ar => if decide (ActiveReader.readcache ar = "") then cacheMap r !! k
                 else Some (ActiveReader.readcache ar)
    | None => cacheMap r !! k
    end.
Proof.
  intros Hkeyed.
  assert (cacheMap (fst (Engine.SyncMeta st r))
          = fold_left Engine.syncCache (Engine.getActiveReaders r) (cacheMap r)) as ->.
  { unfold Engine.SyncMeta. simpl.
    destruct (Marshal st _); [destruct (WriteBuf st _)|]; reflexivity. }
  unfold Engine.getActiveReaders.
  rewrite syncCache_fold.
  - rewrite list_to_map_to_list. reflexivity.
  - apply NoDup_fst_map_to_list.
  - intros k' ar Hin. apply elem_of_map_to_list in Hin. apply Hkeyed. exact Hin.
Qed.

(** X14. [SyncMeta] puts the pending line of every follower into the line
    cache under the follower's path and touches nothing else of the cache:
    the entry of a follower without pending line, or of a path without
    follower, stays as it was (no entry is ever removed).  The followers are
    unchanged.  When the cache so updated can be encoded, its encoding, and
    nothing else, is handed to [WriteBuf]; when it cannot, nothing is
    written. *)
Theorem SyncMeta_checkpoints (st : Store) (r : t) (k : string)
    (Hkeyed : keyedByRealPath (fileReaders r)) :
  let r' := fst (Engine.SyncMeta st r) in
  fileReaders r' = fileReaders r
  /\ cacheMap r' !! k
     = match fileReaders r !! k with
       | Some ar => if decide (ActiveReader.readcache ar = "") then cacheMap r !! k
                    else Some (ActiveReader.readcache ar)
       | None => cacheMap r !! k
       end
  /\ (is_Some (cacheMap r !! k) -> is_Some (cacheMap r' !! k))
  /\ Engine.written (snd (Engine.SyncMeta st r))
     = match Marshal st (cacheMap r') with
       | Ok buf => Some buf
       | Err _ => None
       end.
Proof.
  cbv zeta. pose proof (SyncMeta_cacheMap st r k Hkeyed) as Hcm.
  split; [|split; [exact Hcm|split]].
  - unfold Engine.SyncMeta. simpl.
    destruct (Marshal st _); [destruct (WriteBuf st _)|]; reflexivity.
  - rewrite Hcm. intros Hs.
    destruct (fileReaders r !! k) as [ar|]; [|exact Hs].
    destruct (decide _); [exact Hs|eexists; reflexivity].
  - unfold Engine.SyncMeta. simpl.
    destruct (Marshal st _) as [b|e] eqn:Hm; [destruct (WriteBuf st b)|]; simpl;
      rewrite Hm; reflexivity.
Qed.

Lemma SyncMeta_checkpoints_witness :
  keyedByRealPath (fileReaders MoreFixtures.withPending)
  /\ cacheMap (fst (Engine.SyncMeta MoreFixtures.store MoreFixtures.withPending))
     !! "/logs/a.log" = Some "half a line"
  /\ Engine.written (snd (Engine.SyncMeta MoreFixtures.store MoreFixtures.withPending))
     = Some "{}".
Proof.
  assert (keyedByRealPath (fileReaders MoreFixtures.withPending)) as H.
  { intros k ar Hl. simpl in Hl.
    apply lookup_singleton_Some in Hl as [<- <-]. reflexivity. }
  split; [exact H|].
  pose proof (SyncMeta_checkpoints MoreFixtures.store MoreFixtures.withPending
                "/logs/a.log" H) as Hs.
  cbv zeta in Hs. destruct Hs as (_ & Hcm & _ & Hw).
  split; [rewrite Hcm; reflexivity|rewrite Hw; reflexivity].
Defined.

Lemma NewReader_cacheMap (lib : ConfLib) (meta : Meta) (conf : gmap string string)
    (r : t) :
  NewReader lib meta conf = Ok r ->
  cacheMap r
  = (if (match ReadBufMeta lib meta with Err _ => 0 | Ok n => n end >? 0)
     then match ReadBuf lib meta
                  (match ReadBufMeta lib meta with Err _ => 0 | Ok n => n end) with
          | Err _ => ∅
          | Ok buf => Unmarshal lib buf
          end
     else ∅)
  /\ fileReaders r = ∅ /\ status r = StatusInit /\ notFirstTime r = false.
Proof.
  unfold NewReader. intros H.
  destruct (GetString lib conf (KeyLogPath lib)); [|discriminate].
  destruct (ParseDuration lib (GetStringOr lib conf (KeyExpire lib) "24h"));
    [|discriminate].
  destruct (ParseDuration lib (GetStringOr lib conf (KeySubmetaExpire lib) "720h"));
    [|discriminate].
  destruct (IsSubmetaExpireValid _ _); [discriminate|].
  destruct (ParseDuration lib (GetStringOr lib conf (KeyStatInterval lib) "3m"));
    [|discriminate].
  injection H as <-. repeat split.
Qed.

(** X15. Checkpoint and restart: if the buffer written by [SyncMeta] is
    the one the meta store gives back (with its positive size) to a later
    [NewReader], and decoding inverts the encoding on it, then the new
    engine starts with the checkpointed line cache; in particular the
    pending line of every follower is in it under the follower's path. *)
Theorem restart_restores_cache (st : Store) (lib : ConfLib) (meta : Meta)
    (conf : gmap string string) (r r2 : t) (buf : string) (n : Z)
    (Hkeyed : keyedByRealPath (fileReaders r))
    (Hwritten : Engine.written (snd (Engine.SyncMeta st r)) = Some buf)
    (Hsize : ReadBufMeta lib meta = Ok n)
    (Hpos : 0 < n)
    (Hread : ReadBuf lib meta n = Ok buf)
    (Hcodec : forall m, Marshal st m = Ok buf -> Unmarshal lib buf = m)
    (Hnew : NewReader lib meta conf = Ok r2) :
  cacheMap r2 = cacheMap (fst (Engine.SyncMeta st r))
  /\ forall k ar, fileReaders r !! k = Some ar ->
                  ActiveReader.readcache ar <> "" ->
                  cacheMap r2 !! k = Some (ActiveReader.readcache ar).
Proof.
  destruct (NewReader_cacheMap lib meta conf r2 Hnew) as (Hcm & _).
  rewrite Hsize in Hcm.
  assert ((n >? 0) = true) as Hn by (apply Z.gtb_lt; lia).
  rewrite Hn, Hread in Hcm.
  assert (Marshal st (cacheMap (fst (Engine.SyncMeta st r))) = Ok buf) as Hm.
  { revert Hwritten. unfold Engine.SyncMeta. simpl.
    destruct (Marshal st _) as [b|e] eqn:Hm; [destruct (WriteBuf st b)|]; simpl;
      intros Hw; try discriminate; injection Hw as <-; exact Hm. }
  rewrite (Hcodec _ Hm) in Hcm.
  split; [exact Hcm|].
  intros k ar Hl Hne. rewrite Hcm, (SyncMeta_cacheMap st r k Hkeyed), Hl.
  destruct (decide _); [contradiction|reflexivity].
Qed.

Lemma restart_restores_cache_witness :
  keyedByRealPath (fileReaders MoreFixtures.withPending)
  /\ cacheMap MoreFixtures.restarted
     !! "/logs/a.log" = Some "half a line".
Proof.
  assert (keyedByRealPath (fileReaders MoreFixtures.withPending)) as H.
  { intros k ar Hl. simpl in Hl.
    apply lookup_singleton_Some in Hl as [<- <-]. reflexivity. }
  split; [exact H|].
  refine (proj2 (restart_restores_cache MoreFixtures.codecStore MoreFixtures.codecLib
                   Fixtures.meta0 {[ "log_path" := "/logs/*.log" ]}
                   MoreFixtures.withPending MoreFixtures.restarted "B" 1
                   H _ _ _ _ _ _)
            "/logs/a.log"
            (ActiveReader.set_readcache "half a line"
               (Fixtures.follower "/logs/a.log" StatusRunning 0)) _ _).
  - reflexivity.
  - reflexivity.
  - lia.
  - reflexivity.
  - intros m. simpl. destruct (decide _) as [->|]; [reflexivity|discriminate].
  - reflexivity.
  - reflexivity.
  - discriminate.
Defined.

Lemma string_app_assoc (a b c : string) : (a +:+ b) +:+ c = a +:+ (b +:+ c).
Proof.
  induction a as [|x a IH]; [reflexivity|].
  change (String x ((a +:+ b) +:+ c) = String x (a +:+ (b +:+ c))).
  f_equal. exact IH.
Qed.

Lemma string_app_nil_r (a : string) : a +:+ "" = a.
Proof.
  induction a as [|x a IH]; [reflexivity|].
  change (String x (a +:+ "") = String x a). f_equal. exact IH.
Qed.

Lemma Status_fold (l : list ActiveReader.t) :
  forall r : t,
    let r' :=
      fold_left
        (fun (r : t) (ar : ActiveReader.t) =>
           if decide (LastError (Engine.arStatus ar) = "") then r
           else setStatsError (LastError (stats r) +:+ Engine.statusLine ar) r) l r in
    LastError (stats r')
    = LastError (stats r)
      +:+ foldr (fun ar acc =>
                   (if decide (LastError (Engine.arStatus ar) = "") then ""
                    else Engine.statusLine ar) +:+ acc) "" l
    /\ fileReaders r' = fileReaders r.
Proof.
  induction l as [|ar l IH]; intros r; cbv zeta; simpl.
  - rewrite string_app_nil_r. split; reflexivity.
  - destruct (decide (LastError (Engine.arStatus ar) = "")).
    + apply IH.
    + specialize (IH (setStatsError (LastError (stats r) +:+ Engine.statusLine ar) r)).
      cbv zeta in IH. destruct IH as [IH1 IH2]. rewrite IH1, IH2. simpl.
      rewrite string_app_assoc. split; reflexivity.
Qed.

(** X16. [Status] appends to the engine's own LastError one line per
    follower that has an error (in the order it visits them), and it
    stores the result in the engine: a second call appends as much again
    behind what the first one returned.  With no follower in error the
    engine's LastError is returned unchanged. *)
Theorem Status_accumulates (r : t) :
  let lines :=
    foldr (fun ar acc =>
             (if decide (LastError (Engine.arStatus ar) = "") then ""
              else Engine.statusLine ar) +:+ acc) "" (Engine.getActiveReaders r) in
  LastError (snd (Engine.Status r)) = LastError (stats r) +:+ lines
  /\ (exists again,
        LastError (snd (Engine.Status (fst (Engine.Status r))))
        = LastError (snd (Engine.Status r)) +:+ again
        /\ String.length again = String.length lines)
  /\ fileReaders (fst (Engine.Status r)) = fileReaders r
  /\ ((forall ar, In ar (Engine.getActiveReaders r) ->
                  LastError (Engine.arStatus ar) = "") ->
      Engine.Status r = (r, stats r)).
Proof.
  cbv zeta. unfold Engine.Status. simpl.
  destruct (Status_fold (Engine.getActiveReaders r) r) as [H1 H2]. cbv zeta in H1, H2.
  split; [exact H1|]. split; [|split; [exact H2|]].
  - match goal with
    | |- context [fold_left ?f (Engine.getActiveReaders ?r1) ?r1] =>
        destruct (Status_fold (Engine.getActiveReaders r1) r1) as [H3 _];
          cbv zeta in H3; rewrite H3
    end.
    unfold Engine.getActiveReaders at 2. rewrite H2.
    eexists. split; reflexivity.
  - intros Hnone.
    assert (forall l (r0 : t),
               (forall ar, In ar l -> LastError (Engine.arStatus ar) = "") ->
               fold_left
                 (fun (r : t) (ar : ActiveReader.t) =>
                    if decide (LastError (Engine.arStatus ar) = "") then r
                    else setStatsError (LastError (stats r) +:+ Engine.statusLine ar) r)
                 l r0 = r0) as Hid.
    { induction l as [|ar l IH]; intros r0 Hl; simpl; [reflexivity|].
      destruct (decide _) as [_|Hn]; [|exfalso; apply Hn, Hl; left; reflexivity].
      apply IH. intros ar' Hin. apply Hl. right. exact Hin. }
    rewrite (Hid _ r Hnone). reflexivity.
Qed.

Lemma wrap_int64_add (a b : Z) : wrap_int64 (wrap_int64 a + b) = wrap_int64 (a + b).
Proof.
  unfold wrap_int64.
  replace ((a + 2 ^ 63) mod 2 ^ 64 - 2 ^ 63 + b + 2 ^ 63)
    with ((a + 2 ^ 63) mod 2 ^ 64 + b) by lia.
  rewrite Zplus_mod_idemp_l.
  replace (a + 2 ^ 63 + b) with (a + b + 2 ^ 63) by lia. reflexivity.
Qed.

Lemma Lag_fold (st : Store) (l : list ActiveReader.t) :
  forall (total : Z) (errStr : string),
    fold_left
      (fun (acc : Z * string) (ar : ActiveReader.t) =>
         let (size, errStr) := acc in
         match Engine.arLag st ar with
         | Err subErr => (size, errStr +:+ Error subErr)
         | Ok lg => (wrap_int64 (size + lg), errStr)
         end) l (wrap_int64 total, errStr)
    = (wrap_int64
         (total + foldr Z.add 0
                    (omap (fun ar => match Engine.arLag st ar with
                                     | Ok lg => Some lg
                                     | Err _ => None
                                     end) l)),
       errStr +:+ foldr String.append ""
                    (omap (fun ar => match Engine.arLag st ar with
                                     | Ok _ => None
                                     | Err e => Some (Error e)
                                     end) l)).
Proof.
  induction l as [|ar l IH]; intros total errStr; simpl.
  - rewrite Z.add_0_r, string_app_nil_r. reflexivity.
  - destruct (Engine.arLag st ar) as [lg|e]; simpl.
    + rewrite wrap_int64_add, IH.
      replace (total + lg + foldr Z.add 0
                 (omap (fun ar => match Engine.arLag st ar with
                                  | Ok lg => Some lg
                                  | Err _ => None
                                  end) l))
        with (total + (lg + foldr Z.add 0
                 (omap (fun ar => match Engine.arLag st ar with
                                  | Ok lg => Some lg
                                  | Err _ => None
                                  end) l))) by lia.
      reflexivity.
    + rewrite IH, string_app_assoc. reflexivity.
Qed.

(** X17. [Lag] always answers a size in bytes: the sum, wrapped to int64,
    of the lags of the followers whose line buffer answered, the others
    left out.  Its error is the concatenation of the failing followers'
    messages and is nil exactly when that text is empty, so a failure with
    an empty message goes unreported. *)
Theorem Lag_partial_sum (st : Store) (r : t) :
  let sizes := omap (fun ar => match Engine.arLag st ar with
                               | Ok lg => Some lg
                               | Err _ => None
                               end) (Engine.getActiveReaders r) in
  let text := foldr String.append ""
                (omap (fun ar => match Engine.arLag st ar with
                                 | Ok _ => None
                                 | Err e => Some (Error e)
                                 end) (Engine.getActiveReaders r)) in
  SizeUnit (fst (Engine.Lag st r)) = "bytes"
  /\ Size (fst (Engine.Lag st r)) = wrap_int64 (foldr Z.add 0 sizes)
  /\ snd (Engine.Lag st r) = (if decide (text = "") then None else Some (Errorf text))
  /\ ((forall ar, In ar (Engine.getActiveReaders r) ->
                  exists lg, Engine.arLag st ar = Ok lg) ->
      snd (Engine.Lag st r) = None).
Proof.
  cbv zeta. unfold Engine.Lag.
  change (0, "") with (wrap_int64 0, "").
  rewrite Lag_fold. simpl.
  assert (forall t : string, (if (0 <? String.length t)%nat then Some (Errorf t) else None)
                             = (if decide (t = "") then None else Some (Errorf t))) as Hlen.
  { intros [|x t]; reflexivity. }
  rewrite Hlen.
  split; [reflexivity|]. split; [reflexivity|]. split; [reflexivity|].
  intros Hall.
  assert (omap (fun ar => match Engine.arLag st ar with
                          | Ok _ => None
                          | Err e => Some (Error e)
                          end) (Engine.getActiveReaders r) = []) as ->.
  { induction (Engine.getActiveReaders r) as [|ar l IH]; [reflexivity|]. simpl.
    destruct (Hall ar (or_introl eq_refl)) as [lg ->].
    apply IH. intros ar' Hin. apply Hall. right. exact Hin. }
  reflexivity.
Qed.

Lemma Reset_fold (st : Store) (l : list ActiveReader.t) :
  forall errMsg : list string,
    fold_left
      (fun (errMsg : list string) (ar : ActiveReader.t) =>
         match brMetaReset st (br_realpath (ActiveReader.br ar)) with
         | Some subErr => (errMsg ++ [Error subErr])%list
         | None => errMsg
         end) l errMsg
    = (errMsg ++ omap (fun ar => Error <$> brMetaReset st (br_realpath (ActiveReader.br ar)))
                   l)%list.
Proof.
  induction l as [|ar l IH]; intros errMsg; simpl.
  - rewrite app_nil_r. reflexivity.
  - destruct (brMetaReset st (br_realpath (ActiveReader.br ar))); simpl.
    + rewrite IH, <- app_assoc. reflexivity.
    + apply IH.
Qed.

(** X18. [Reset] answers nil exactly when the reset of the engine's meta
    and the reset of every follower's sub-meta succeed; otherwise its error
    joins, on separate lines, the engine's message first and then the
    followers' messages. *)
Theorem Reset_reports_all (st : Store) (r : t) :
  let msgs :=
    (match metaReset st with Some err => [Error err] | None => [] end
     ++ omap (fun ar => Error <$> brMetaReset st (br_realpath (ActiveReader.br ar)))
          (Engine.getActiveReaders r))%list in
  Engine.Reset st r = (if decide (msgs = []) then None
                       else Some (Errorf (Join msgs nl)))
  /\ (Engine.Reset st r = None <->
      metaReset st = None
      /\ forall ar, In ar (Engine.getActiveReaders r) ->
                    brMetaReset st (br_realpath (ActiveReader.br ar)) = None).
Proof.
  cbv zeta. unfold Engine.Reset. rewrite Reset_fold.
  set (msgs := (_ ++ _)%list).
  assert ((if negb (length msgs =? 0)%nat then Some (Errorf (Join msgs nl)) else None)
          = (if decide (msgs = []) then None else Some (Errorf (Join msgs nl)))) as ->.
  { destruct msgs; reflexivity. }
  split; [reflexivity|].
  assert (msgs = [] <->
          metaReset st = None
          /\ forall ar, In ar (Engine.getActiveReaders r) ->
                        brMetaReset st (br_realpath (ActiveReader.br ar)) = None) as Hiff.
  { unfold msgs. split.
    - intros H. apply app_eq_nil in H as [H1 H2]. split.
      + destruct (metaReset st); [discriminate|reflexivity].
      + induction (Engine.getActiveReaders r) as [|ar l IH]; [intros ar []|].
        simpl in H2. intros ar' [<-|Hin].
        * destruct (brMetaReset st _); [discriminate|reflexivity].
        * apply IH; [|exact Hin].
          destruct (brMetaReset st (br_realpath (ActiveReader.br ar)));
            [discriminate|exact H2].
    - intros [H1 H2]. rewrite H1. simpl.
      induction (Engine.getActiveReaders r) as [|ar l IH]; [reflexivity|]. simpl.
      rewrite (H2 ar (or_introl eq_refl)). simpl. apply IH.
      intros ar' Hin. apply H2. right. exact Hin. }
  destruct (decide (msgs = [])) as [He|He].
  - split; [intros _; apply Hiff, He|reflexivity].
  - split; [discriminate|intros H; exfalso; apply He, Hiff, H].
Qed.

(** X19. [Start] launches the discovery task at most once: from Init the
    engine becomes Running and the task is launched (with the sub-meta
    sweep when submetaExpire is active); a second [Start] then answers nil
    and launches nothing.  On a Stopping or Stopped engine [Start] fails
    and changes nothing. *)
Theorem Start_once (r : t) :
  let first := Engine.Start r in
  let second := Engine.Start (fst (fst first)) in
  snd second = []
  /\ fst (fst second) = fst (fst first)
  /\ (status r = StatusInit ->
      status (fst (fst first)) = StatusRunning /\ snd (fst first) = None
      /\ In DiscoveryTask (snd first) /\ snd (fst second) = None)
  /\ (status r = StatusStopping \/ status r = StatusStopped ->
      first = (r, Some (Errorf "reader is stopping or has stopped"), []))
  /\ (status r = StatusRunning -> first = (r, None, [])).
Proof.
  cbv zeta. unfold Engine.Start, isStopping, hasStopped.
  destruct r as [m st sts fr cf hr cm lp ilp ex sx si mo wh nft]; simpl.
  destruct st; simpl; repeat split; try discriminate; try (left; reflexivity);
    try (intros [H|H]; discriminate).
Qed.

End EngineFacts.

(** ** The docker collector's [SyncConfig] *)

Section DockerConfig.

Import Docker.

Variable TrimSpace : string -> string.

Lemma splitOn_nonempty (sep : Ascii.ascii) (s : string) : splitOn sep s <> [].
Proof.
  destruct s as [|c s]; simpl; [discriminate|].
  destruct (Ascii.eqb c sep); [discriminate|].
  destruct (splitOn sep s); discriminate.
Qed.

Lemma Join_cons (x y : string) (rest : list string) (sep : string) :
  Join (x :: y :: rest) sep = x +:+ sep +:+ Join (y :: rest) sep.
Proof. reflexivity. Qed.

(** Joining the pieces with the separator gives the string back. *)
Lemma Join_splitOn (sep : Ascii.ascii) (s : string) :
  Join (splitOn sep s) (String sep "") = s.
Proof.
  induction s as [|c s IH]; [reflexivity|]. simpl splitOn.
  pose proof (splitOn_nonempty sep s) as Hne.
  destruct (Ascii.eqb c sep) eqn:Hc.
  - apply Ascii.eqb_eq in Hc. subst c.
    destruct (splitOn sep s) as [|y rest]; [contradiction|].
    rewrite Join_cons, IH. reflexivity.
  - destruct (splitOn sep s) as [|y rest]; [contradiction|].
    destruct rest as [|z rest].
    + simpl in IH |- *. rewrite IH. reflexivity.
    + rewrite Join_cons in IH. rewrite Join_cons.
      change (String c (y +:+ String sep "" +:+ Join (z :: rest) (String sep "")) = String c s).
      rewrite IH. reflexivity.
Qed.

(** No piece holds the separator. *)
Lemma splitOn_pieces (sep : Ascii.ascii) (s : string) :
  Forall (fun x => ~ In sep (list_ascii_of_string x)) (splitOn sep s).
Proof.
  induction s as [|c s IH]; simpl.
  - constructor; [intros []|constructor].
  - destruct (Ascii.eqb c sep) eqn:Hc.
    + constructor; [intros []|exact IH].
    + apply Ascii.eqb_neq in Hc.
      destruct (splitOn sep s) as [|y rest]; [constructor; [|constructor]|].
      * simpl. intros [H|[]]. congruence.
      * inversion IH as [|? ? Hy Hrest]; subst. constructor; [|exact Hrest].
        simpl. intros [H|H]; [congruence|contradiction].
Qed.

(** X20. [SyncConfig] fails exactly when the input is not the docker input
    or the endpoint entry is missing or not a string; a failed call leaves
    the input as it was. *)
Theorem SyncConfig_fails_iff (input : Input) (data : gmap string value) :
  (snd (SyncConfig TrimSpace input data) <> None <->
   input = OtherInput \/ asString (data !! ConfigEndpoint) = None)
  /\ (snd (SyncConfig TrimSpace input data) <> None ->
      fst (SyncConfig TrimSpace input data) = input)
  /\ (forall dc, input = DockerInput dc ->
                 asString (data !! ConfigEndpoint) = None ->
                 snd (SyncConfig TrimSpace input data)
                 = Some (endpointError (data !! ConfigEndpoint))).
Proof.
  unfold SyncConfig.
  destruct input as [dc|].
  - destruct (asString (data !! ConfigEndpoint)) as [e|] eqn:He; simpl.
    + repeat split; try congruence.
      intros [H|H]; discriminate.
    + repeat split; try congruence; try discriminate.
      * intros _. right. reflexivity.
  - simpl. repeat split; try discriminate.
    intros _. left. reflexivity.
Qed.

Lemma syncList_idem (v : option value) (old : list string) :
  syncList TrimSpace v (syncList TrimSpace v old) = syncList TrimSpace v old.
Proof.
  unfold syncList. destruct (asString v) as [s|]; [|reflexivity].
  destruct (decide (TrimSpace s = "")); reflexivity.
Qed.

(** X21. [SyncConfig] is idempotent: applying the same data to its own
    result changes nothing more and gives the same answer. *)
Theorem SyncConfig_idempotent (input : Input) (data : gmap string value) :
  SyncConfig TrimSpace (fst (SyncConfig TrimSpace input data)) data
  = SyncConfig TrimSpace input data.
Proof.
  unfold SyncConfig.
  destruct input as [dc|]; [|reflexivity].
  destruct (data !! ConfigEndpoint) as [[e|b|n]|] eqn:He; simpl;
    rewrite ?He; simpl; try reflexivity.
  rewrite !syncList_idem.
  repeat match goal with
         | |- context [default (default ?x ?o) ?o] =>
             replace (default (default x o) o) with (default x o) by (destruct o; reflexivity)
         end.
  reflexivity.
Qed.

(** X22. The option container_names, though declared by the collector, is
    never read: whatever value the data gives it, [SyncConfig] does the
    same. *)
Theorem SyncConfig_ignores_container_names (input : Input)
    (data : gmap string value) (v : value) :
  SyncConfig TrimSpace input (<[ConfigContainerNames := v]> data)
  = SyncConfig TrimSpace input data.
Proof.
  unfold SyncConfig.
  rewrite !lookup_insert_ne by discriminate. reflexivity.
Qed.

(** X23. A filter option given as a string: if the string is blank after
    trimming, the filter set before is kept (a blank value cannot clear
    it); otherwise the filter becomes the pieces of the trimmed string cut
    at every comma, so that joining them with commas gives the trimmed
    string back, no piece holds a comma and there is at least one piece. *)
Theorem SyncConfig_filter (dc : Docker) (data : gmap string value)
    (endpoint s : string)
    (Hend : data !! ConfigEndpoint = Some (VString endpoint))
    (Hinc : data !! ConfigContainerNameInclude = Some (VString s)) :
  exists dc',
    SyncConfig TrimSpace (DockerInput dc) data = (DockerInput dc', None)
    /\ (TrimSpace s = "" -> ContainerInclude dc' = ContainerInclude dc)
    /\ (TrimSpace s <> "" ->
        Join (ContainerInclude dc') "," = TrimSpace s
        /\ Forall (fun x => ~ In comma (list_ascii_of_string x)) (ContainerInclude dc')
        /\ ContainerInclude dc' <> []).
Proof.
  unfold SyncConfig. rewrite Hend, Hinc. simpl.
  eexists. split; [reflexivity|]. simpl. unfold syncList; simpl.
  destruct (decide (TrimSpace s = "")) as [He|He].
  - split; [reflexivity|contradiction].
  - split; [intros; contradiction|]. intros _.
    split; [apply (Join_splitOn comma)|].
    split; [apply splitOn_pieces|apply splitOn_nonempty].
Qed.

(** X24. Data that holds nothing but a string endpoint: the endpoint is
    set and perdevice is set to true, whatever it was; every other setting
    keeps its value. *)
Theorem SyncConfig_endpoint_only (dc : Docker) (data : gmap string value)
    (endpoint : string)
    (Hend : data !! ConfigEndpoint = Some (VString endpoint))
    (Honly : forall k, k <> ConfigEndpoint -> data !! k = None) :
  SyncConfig TrimSpace (DockerInput dc) data
  = (DockerInput
       {| Endpoint := endpoint;
          GatherServices := GatherServices dc;
          ContainerInclude := ContainerInclude dc;
          ContainerExclude := ContainerExclude dc;
          ContainerStateInclude := ContainerStateInclude dc;
          ContainerStateExclude := ContainerStateExclude dc;
          PerDevice := true;
          Total := Total dc;
          InsecureSkipVerify := InsecureSkipVerify dc;
          TLSCA := TLSCA dc;
          TLSCert := TLSCert dc;
          TLSKey := TLSKey dc |}, None).
Proof.
  unfold SyncConfig. rewrite Hend. simpl.
  rewrite !Honly by discriminate. reflexivity.
Qed.

End DockerConfig.

Lemma SyncConfig_filter_witness :
  ({[ "endpoint" := Docker.VString "tcp://10.0.0.1:2375";
      "container_name_include" := Docker.VString "api,db" ]} : gmap string Docker.value)
    !! Docker.ConfigEndpoint = Some (Docker.VString "tcp://10.0.0.1:2375")
  /\ exists dc',
       Docker.SyncConfig (fun s => s) (Docker.DockerInput MoreFixtures.docker0)
         {[ "endpoint" := Docker.VString "tcp://10.0.0.1:2375";
            "container_name_include" := Docker.VString "api,db" ]}
       = (Docker.DockerInput dc', None)
       /\ Join (Docker.ContainerInclude dc') "," = "api,db".
Proof.
  split; [reflexivity|].
  assert (({[ "endpoint" := Docker.VString "tcp://10.0.0.1:2375";
              "container_name_include" := Docker.VString "api,db" ]}
            : gmap string Docker.value)
            !! Docker.ConfigEndpoint = Some (Docker.VString "tcp://10.0.0.1:2375"))
    as H1 by reflexivity.
  assert (({[ "endpoint" := Docker.VString "tcp://10.0.0.1:2375";
              "container_name_include" := Docker.VString "api,db" ]}
            : gmap string Docker.value)
            !! Docker.ConfigContainerNameInclude = Some (Docker.VString "api,db"))
    as H2 by reflexivity.
  destruct (SyncConfig_filter (fun s => s) MoreFixtures.docker0 _ _ _ H1 H2)
    as (dc' & Heq & _ & Hjoin).
  exists dc'. split; [exact Heq|]. apply Hjoin. discriminate.
Defined.

Lemma SyncConfig_endpoint_only_witness :
  ({[ "endpoint" := Docker.VString "tcp://10.0.0.1:2375" ]} : gmap string Docker.value)
    !! Docker.ConfigEndpoint = Some (Docker.VString "tcp://10.0.0.1:2375")
  /\ Docker.PerDevice MoreFixtures.docker0 = false
  /\ exists dc',
       Docker.SyncConfig (fun s => s) (Docker.DockerInput MoreFixtures.docker0)
         {[ "endpoint" := Docker.VString "tcp://10.0.0.1:2375" ]}
       = (Docker.DockerInput dc', None)
       /\ Docker.PerDevice dc' = true /\ Docker.Total dc' = true.
Proof.
  split; [reflexivity|]. split; [reflexivity|].
  eexists. split.
  - apply (SyncConfig_endpoint_only (fun s => s) MoreFixtures.docker0
             {[ "endpoint" := Docker.VString "tcp://10.0.0.1:2375" ]}
             "tcp://10.0.0.1:2375").
    + reflexivity.
    + intros k Hk. apply lookup_singleton_ne. intros Heq. apply Hk. symmetry. exact Heq.
  - split; reflexivity.
Defined.
